(** * Kernel mutex (kmutex.c): model and verification

    A shallow embedding of [src/kmutex.c] and of the part of
    [src/include/proc/kthread.h] it touches.  Kernel objects live in two
    heaps (threads and mutexes) addressed by natural numbers; a C pointer is
    an [option] of an address, [None] being [NULL].  Kernel code runs in a
    resumption monad: a computation either returns, halts the kernel on a
    failed [KASSERT] or an invalid dereference, or parks at [sched_switch]
    and hands back the rest of the function as a continuation. *)

From stdpp Require Import base numbers option list gmap.

Local Open Scope Z_scope.

(** ** Data model *)

(** Addresses of [kthread_t] and [kmutex_t] objects. *)
Abbreviation tid := nat (only parsing).
Abbreviation mid := nat (only parsing).

(** [kthread_state_t], kthread.h lines 11-18. *)
Inductive kthread_state_t : Set :=
| KT_NO_STATE
| KT_RUN
| KT_SLEEP
| KT_SLEEP_CANCELLABLE
| KT_EXITED.

#[global] Instance kthread_state_eq_dec : EqDecision kthread_state_t.
Proof. solve_decision. Defined.

(** [kthread_t], kthread.h lines 21-43.  The saved context, the stack and the
    owning process are opaque to the mutex code and left out; [kt_qlink] is
    represented by membership in the [tq_list] of a queue.  A [ktqueue_t *]
    is named by the mutex the queue is embedded in. *)
Record kthread : Set := mk_kthread {
  kt_retval : Z;
  kt_errno : Z;
  kt_cancelled : Z;
  kt_wchan : option mid;
  kt_state : kthread_state_t
}.

(** Modelled from the spec: [ktqueue_t] is declared in proc/sched.h, which is
    not part of the sources; section 3 describes it as "an ordered, FIFO
    collection of blocked threads plus a count".  kmutex.c names its two
    fields [tq_list] and [tq_size].  The intrusive list is the list of the
    linked threads, head first; the count is an integer, without a bound. *)
Record ktqueue : Set := mk_ktqueue {
  tq_list : list tid;
  tq_size : Z
}.

(** Modelled from the spec: [kmutex_t] is declared in proc/kmutex.h, which is
    not part of the sources; section 3: a mutex "binds one wait queue with a
    holder reference".  kmutex.c names the fields [km_waitq] and
    [km_holder]. *)
Record kmutex : Set := mk_kmutex {
  km_waitq : ktqueue;
  km_holder : option tid
}.

(** Calls into the queue utility and the scheduler, recorded in order. *)
Inductive kevent : Set :=
| EvEnqueue (q : mid) (t : tid)
| EvDequeue (q : mid) (t : tid)
| EvRemove (q : mid) (t : tid)
| EvMakeRunnable (t : tid)
| EvSwitch (t : option tid).

#[global] Instance kevent_eq_dec : EqDecision kevent.
Proof. solve_decision. Defined.

(** The kernel state the mutex code and its collaborators read and write:
    the global [curthr], the two heaps and the scheduler's run queue.  [klog]
    is not kernel data: it records, in order, the calls made to the queue
    utility and to the scheduler. *)
Record kstate : Type := mk_kstate {
  curthr : option tid;
  threads : gmap nat kthread;
  mutexes : gmap nat kmutex;
  kt_runq : list tid;
  klog : list kevent
}.

Definition set_curthr (c : option tid) (s : kstate) : kstate :=
  mk_kstate c (threads s) (mutexes s) (kt_runq s) (klog s).
Definition set_threads (ts : gmap nat kthread) (s : kstate) : kstate :=
  mk_kstate (curthr s) ts (mutexes s) (kt_runq s) (klog s).
Definition set_mutexes (ms : gmap nat kmutex) (s : kstate) : kstate :=
  mk_kstate (curthr s) (threads s) ms (kt_runq s) (klog s).
Definition set_runq (q : list tid) (s : kstate) : kstate :=
  mk_kstate (curthr s) (threads s) (mutexes s) q (klog s).
Definition log_event (e : kevent) (s : kstate) : kstate :=
  mk_kstate (curthr s) (threads s) (mutexes s) (kt_runq s) (klog s ++ [e]).

Definition set_kt_cancelled (v : Z) (t : kthread) : kthread :=
  mk_kthread (kt_retval t) (kt_errno t) v (kt_wchan t) (kt_state t).
Definition set_kt_wchan (w : option mid) (t : kthread) : kthread :=
  mk_kthread (kt_retval t) (kt_errno t) (kt_cancelled t) w (kt_state t).
Definition set_kt_state (st : kthread_state_t) (t : kthread) : kthread :=
  mk_kthread (kt_retval t) (kt_errno t) (kt_cancelled t) (kt_wchan t) st.

Definition set_km_waitq (q : ktqueue) (m : kmutex) : kmutex :=
  mk_kmutex q (km_holder m).
Definition set_km_holder (h : option tid) (m : kmutex) : kmutex :=
  mk_kmutex (km_waitq m) h.

(** ** The resumption monad *)

(** Outcome of running kernel code from a state: it returned [a]; the kernel
    halted in state [s]; or the thread parked in state [s] and [k] is the
    rest of the function, to be run from the state in which the scheduler
    switches back to it. *)
Inductive Res (A : Type) : Type :=
| Done (a : A) (s : kstate)
| Fault (s : kstate)
| Suspended (s : kstate) (k : kstate -> Res A).

Arguments Done {A} a s.
Arguments Fault {A} s.
Arguments Suspended {A} s k.

Definition M (A : Type) : Type := kstate -> Res A.

Definition ret {A} (a : A) : M A := fun s => Done a s.

Fixpoint res_bind {A B} (r : Res A) (f : A -> M B) : Res B :=
  match r with
  | Done a s => f a s
  | Fault s => Fault s
  | Suspended s k => Suspended s (fun s' => res_bind (k s') f)
  end.

Definition bind {A B} (m : M A) (f : A -> M B) : M B :=
  fun s => res_bind (m s) f.

Declare Scope kernel_scope.
Delimit Scope kernel_scope with kernel.
Notation "x <- m ;; k" := (bind m (fun x => k))
  (at level 100, m at next level, k at level 200, right associativity)
  : kernel_scope.
Notation "m ;;; k" := (bind m (fun _ => k))
  (at level 100, k at level 200, right associativity) : kernel_scope.
Local Open Scope kernel_scope.

(** ** Primitive accesses *)

Definition halt {A} : M A := fun s => Fault s.

Definition read_curthr : M (option tid) := fun s => Done (curthr s) s.

(** Dereference of a [kthread_t *]: [NULL] and dangling pointers halt. *)
Definition load_thr (p : option tid) : M kthread := fun s =>
  match p with
  | Some t => match threads s !! t with
              | Some th => Done th s
              | None => Fault s
              end
  | None => Fault s
  end.

Definition update_thr (p : option tid) (f : kthread -> kthread) : M unit :=
  th <- load_thr p ;;
  fun s => match p with
           | Some t => Done tt (set_threads (<[t := f th]> (threads s)) s)
           | None => Fault s
           end.

(** Dereference of a [kmutex_t *]. *)
Definition load_mtx (mtx : mid) : M kmutex := fun s =>
  match mutexes s !! mtx with
  | Some m => Done m s
  | None => Fault s
  end.

Definition store_mtx (mtx : mid) (m : kmutex) : M unit := fun s =>
  Done tt (set_mutexes (<[mtx := m]> (mutexes s)) s).

Definition update_mtx (mtx : mid) (f : kmutex -> kmutex) : M unit :=
  m <- load_mtx mtx ;; store_mtx mtx (f m).

Definition read_km_holder (mtx : mid) : M (option tid) :=
  m <- load_mtx mtx ;; ret (km_holder m).

Definition read_tq_size (mtx : mid) : M Z :=
  m <- load_mtx mtx ;; ret (tq_size (km_waitq m)).

Definition emit (e : kevent) : M unit := fun s => Done tt (log_event e s).

(** ** Collaborators that are not part of the sources *)

(** Modelled from the spec: the [KASSERT] macro of util/debug.h is missing.
    Section 7: contract violations are "checked via precondition/
    postcondition assertions; not recoverable, not reported to any caller"
    and "should halt/trap". *)
Definition KASSERT (b : bool) : M unit := fun s =>
  if b then Done tt s else Fault s.

(** Modelled from the spec: [EINTR] of errno.h is missing; the spec only
    calls it "an interruption condition ... distinct from success".  The
    conventional value is used. *)
Definition EINTR : Z := 4.

(** Modelled from the spec: [ktqueue_enqueue] is declared [extern] at
    kmutex.c line 10 and defined elsewhere.  Section 4.1: "appends thread to
    the tail, links the thread's queue membership, increments size". *)
Definition ktqueue_enqueue (q : mid) (thr : option tid) : M unit :=
  match thr with
  | Some t =>
      update_mtx q (fun m =>
        set_km_waitq (mk_ktqueue (tq_list (km_waitq m) ++ [t])
                                 (tq_size (km_waitq m))) m) ;;;
      update_thr thr (set_kt_wchan (Some q)) ;;;
      update_mtx q (fun m =>
        set_km_waitq (mk_ktqueue (tq_list (km_waitq m))
                                 (tq_size (km_waitq m) + 1)) m) ;;;
      emit (EvEnqueue q t)
  | None => halt
  end.

(** Modelled from the spec: [ktqueue_dequeue] is declared [extern] at
    kmutex.c line 11 and defined elsewhere.  Section 4.1: "removes and
    returns the head thread (undefined/error if empty), decrements size,
    clears the thread's membership". *)
Definition ktqueue_dequeue (q : mid) : M (option tid) :=
  m <- load_mtx q ;;
  match tq_list (km_waitq m) with
  | [] => halt
  | t :: rest =>
      store_mtx q
        (set_km_waitq (mk_ktqueue rest (tq_size (km_waitq m))) m) ;;;
      update_mtx q (fun m =>
        set_km_waitq (mk_ktqueue (tq_list (km_waitq m))
                                 (tq_size (km_waitq m) - 1)) m) ;;;
      update_thr (Some t) (set_kt_wchan None) ;;;
      emit (EvDequeue q t) ;;;
      ret (Some t)
  end.

(** Modelled from the spec: [sched_switch] belongs to the scheduler, which
    is external.  Section 2: "voluntarily relinquish the CPU, returning only
    when this thread is made runnable again".  The call parks the thread;
    what follows it in the caller is the continuation. *)
Definition sched_switch : M unit := fun s =>
  Suspended (log_event (EvSwitch (curthr s)) s) (fun r => Done tt r).

(** Modelled from the spec: [sched_make_runnable] belongs to the scheduler.
    Section 2: "move a thread from blocked to runnable"; section 6: "move a
    thread into the runnable set". *)
Definition sched_make_runnable (thr : option tid) : M unit := fun s =>
  match thr with
  | Some t =>
      Done tt (log_event (EvMakeRunnable t) (set_runq (kt_runq s ++ [t]) s))
  | None => Fault s
  end.

(** ** kmutex.c *)

(** The assertion operand [curthr && (curthr OP mtx->km_holder)]: the right
    operand is evaluated only when [curthr] is not [NULL]. *)
Definition curthr_and (mtx : mid)
    (op : option tid -> option tid -> bool) : M bool :=
  cur <- read_curthr ;;
  match cur with
  | None => ret false
  | Some _ => h <- read_km_holder mtx ;; ret (op cur h)
  end.

Definition ptr_eq (p q : option tid) : bool := bool_decide (p = q).
Definition ptr_ne (p q : option tid) : bool := negb (ptr_eq p q).

(** kmutex.c lines 19-28. *)
Definition kmutex_init (mtx : mid) : M unit :=
  store_mtx mtx (mk_kmutex (mk_ktqueue [] 0) None).

(** kmutex.c lines 36-55. *)
Definition kmutex_lock (mtx : mid) : M unit :=
  pre <- curthr_and mtx ptr_ne ;;
  KASSERT pre ;;;
  holder <- read_km_holder mtx ;;
  (if ptr_eq holder None then
     cur <- read_curthr ;;
     update_mtx mtx (set_km_holder cur)
   else
     cur <- read_curthr ;;
     update_thr cur (set_kt_state KT_SLEEP) ;;;
     cur <- read_curthr ;;
     ktqueue_enqueue mtx cur ;;;
     sched_switch) ;;;
  post <- curthr_and mtx ptr_eq ;;
  KASSERT post.

(** kmutex.c lines 103-125. *)
Definition kmutex_unlock (mtx : mid) : M unit :=
  pre <- curthr_and mtx ptr_eq ;;
  KASSERT pre ;;;
  size <- read_tq_size mtx ;;
  (if 0 =? size then
     update_mtx mtx (set_km_holder None)
   else
     next_in_queue <- ktqueue_dequeue mtx ;;
     update_mtx mtx (set_km_holder next_in_queue) ;;;
     update_thr next_in_queue (set_kt_state KT_RUN) ;;;
     sched_make_runnable next_in_queue) ;;;
  cur <- read_curthr ;;
  holder <- read_km_holder mtx ;;
  KASSERT (ptr_ne cur holder).

(** kmutex.c lines 61-88. *)
Definition kmutex_lock_cancellable (mtx : mid) : M Z :=
  pre <- curthr_and mtx ptr_ne ;;
  KASSERT pre ;;;
  holder <- read_km_holder mtx ;;
  (if ptr_eq holder None then
     cur <- read_curthr ;;
     update_mtx mtx (set_km_holder cur)
   else
     cur <- read_curthr ;;
     update_thr cur (set_kt_state KT_SLEEP_CANCELLABLE) ;;;
     cur <- read_curthr ;;
     ktqueue_enqueue mtx cur ;;;
     sched_switch) ;;;
  post <- curthr_and mtx ptr_eq ;;
  KASSERT post ;;;
  cur <- read_curthr ;;
  th <- load_thr cur ;;
  if negb (kt_cancelled th =? 0) then
    kmutex_unlock mtx ;;;
    ret (- EINTR)
  else ret 0.

(** The tails of the two lock functions, from the statement after
    [sched_switch] to the end: what a parked caller runs when the scheduler
    switches back to it (kmutex.c lines 53-54 and 78-87). *)
Definition lock_resume (mtx : mid) : M unit :=
  post <- curthr_and mtx ptr_eq ;;
  KASSERT post.

Definition lock_cancellable_resume (mtx : mid) : M Z :=
  post <- curthr_and mtx ptr_eq ;;
  KASSERT post ;;;
  cur <- read_curthr ;;
  th <- load_thr cur ;;
  if negb (kt_cancelled th =? 0) then
    kmutex_unlock mtx ;;;
    ret (- EINTR)
  else ret 0.

(** ** Closed forms of the states the mutex functions produce *)

(** The mutex [mtx], holding [mx], after its holder field is overwritten. *)
Definition holder_set (mtx : mid) (mx : kmutex) (h : option tid)
    (s : kstate) : kstate :=
  set_mutexes (<[mtx := set_km_holder h mx]> (mutexes s)) s.

(** The state in which a caller [c] parks on a held mutex: its state field is
    [st], it is the last element of the wait queue, and the log shows the
    enqueue followed by the switch. *)
Definition parked_state (st : kthread_state_t) (mtx : mid) (mx : kmutex)
    (c : tid) (th : kthread) (s : kstate) : kstate :=
  mk_kstate (curthr s)
    (<[c := set_kt_wchan (Some mtx) (set_kt_state st th)]> (threads s))
    (<[mtx := mk_kmutex
                (mk_ktqueue (tq_list (km_waitq mx) ++ [c])
                            (tq_size (km_waitq mx) + 1))
                (km_holder mx)]> (mutexes s))
    (kt_runq s)
    ((klog s ++ [EvEnqueue mtx c]) ++ [EvSwitch (curthr s)]).

(** The state after [kmutex_unlock] passed the mutex to the head [t] of the
    wait queue [t :: rest]. *)
Definition handoff_state (mtx : mid) (mx : kmutex) (t : tid)
    (rest : list tid) (th : kthread) (s : kstate) : kstate :=
  mk_kstate (curthr s)
    (<[t := set_kt_state KT_RUN (set_kt_wchan None th)]> (threads s))
    (<[mtx := mk_kmutex (mk_ktqueue rest (tq_size (km_waitq mx) - 1))
                        (Some t)]> (mutexes s))
    (kt_runq s ++ [t])
    ((klog s ++ [EvDequeue mtx t]) ++ [EvMakeRunnable t]).

(** ** Well-formed mutexes *)

(** The invariants section 3 of the specification gives for a wait queue and
    a mutex: the count equals the number of linked threads, the holder is not
    linked in the mutex's own wait queue, and every linked thread is a live
    thread object. *)
Record mutex_wf (s : kstate) (mx : kmutex) : Prop := mk_mutex_wf {
  wf_count :
    tq_size (km_waitq mx) = Z.of_nat (length (tq_list (km_waitq mx)));
  wf_holder_unlinked :
    forall h, km_holder mx = Some h -> h ∉ tq_list (km_waitq mx);
  wf_linked_live :
    forall t, t ∈ tq_list (km_waitq mx) -> is_Some (threads s !! t)
}.

(** The mutex as [kmutex_init] leaves it. *)
Definition kmutex_initial : kmutex := mk_kmutex (mk_ktqueue [] 0) None.

(** ** A concrete kernel state for the examples

    Three live threads at addresses 1, 2 and 3 (thread 3 has been cancelled)
    and one freshly initialised mutex at address 7; thread 1 is running. *)
Definition demo_thread : kthread := mk_kthread 0 0 0 None KT_RUN.

Definition demo_threads : gmap nat kthread :=
  <[1%nat := demo_thread]>
    (<[2%nat := demo_thread]>
       (<[3%nat := set_kt_cancelled 1 demo_thread]> ∅)).

Definition demo_free : kstate :=
  mk_kstate (Some 1%nat) demo_threads (<[7%nat := kmutex_initial]> ∅) [] [].

(** Thread 1 holds the mutex; threads 2 and 3 wait, 2 having arrived first. *)
Definition demo_waiting : kmutex :=
  mk_kmutex (mk_ktqueue [2%nat; 3%nat] 2) (Some 1%nat).

Definition demo_contended : kstate :=
  mk_kstate (Some 1%nat) demo_threads (<[7%nat := demo_waiting]> ∅) [] [].

(** ** The cancellation flags are a frame of the mutex code *)

(** The [kt_cancelled] field of every live thread. *)
Definition flags (s : kstate) : gmap nat Z := kt_cancelled <$> threads s.

(** Every stretch of execution of an outcome leaves the flags as they were
    when the stretch began: the first stretch starts in [s0]; after a park
    the next stretch starts in whatever state the scheduler resumes in. *)
Fixpoint flags_kept {A} (s0 : kstate) (r : Res A) : Prop :=
  match r with
  | Done _ s => flags s = flags s0
  | Fault s => flags s = flags s0
  | Suspended s k => flags s = flags s0 /\ forall r0, flags_kept r0 (k r0)
  end.

Definition keeps_flags {A} (m : M A) : Prop := forall s, flags_kept s (m s).

(** ** Changing a cancellation flag *)

(** The state [s] with the [kt_cancelled] field of thread [t], if it is
    live, overwritten by [z]. *)
Definition with_flag (t : tid) (z : Z) (s : kstate) : kstate :=
  set_threads (alter (set_kt_cancelled z) t (threads s)) s.

(** The same outcome in a transformed state; the continuation is kept. *)
Definition res_in {A} (f : kstate -> kstate) (r : Res A) : Res A :=
  match r with
  | Done a s => Done a (f s)
  | Fault s => Fault (f s)
  | Suspended s k => Suspended (f s) k
  end.

(** ** Threads sharing one mutex

    The three mutex functions as called by the threads of a kernel, one
    thread running at a time.  A thread that parks inside a lock function
    leaves its continuation behind; the scheduler may switch back to it only
    once it is on the run queue.  In these runs nothing happens but mutex
    calls and resumptions: no thread is cancelled, and the run queue, empty
    at the start, only ever holds threads the mutex made runnable.  The runs
    with cancellations and a run queue shared with other threads come
    further down ([kernel_step]). *)

Inductive call : Set := CLock | CLockCancellable | CUnlock.

#[global] Instance call_eq_dec : EqDecision call.
Proof. solve_decision. Defined.

(** What happens next: thread [t], which is not parked, runs and calls a
    mutex function; or the scheduler switches back to the parked thread
    [t]. *)
Inductive event : Set :=
| Call (t : tid) (c : call)
| Resume (t : tid).

(** A completed call: who called what, the value reported (0 for the two
    [void] functions) and whether the caller had parked on the way. *)
Record returned : Set := mk_returned {
  r_thread : tid;
  r_call : call;
  r_value : Z;
  r_waited : bool
}.

Record sys : Type := mk_sys {
  kern : kstate;
  parked : gmap nat (call * (kstate -> Res Z));
  history : list returned
}.

Definition run_call (mtx : mid) (c : call) : M Z :=
  match c with
  | CLock => kmutex_lock mtx ;;; ret 0
  | CLockCancellable => kmutex_lock_cancellable mtx
  | CUnlock => kmutex_unlock mtx ;;; ret 0
  end.

(** The outcome of a stretch of thread [t] inside call [c]: a return is
    recorded, a park stores the continuation, a halt stops the kernel. *)
Definition settle (t : tid) (c : call) (waited : bool) (r : Res Z)
    (g : sys) : option sys :=
  match r with
  | Done v s =>
      Some (mk_sys s (delete t (parked g))
                   (history g ++ [mk_returned t c v waited]))
  | Suspended s k => Some (mk_sys s (<[t := (c, k)]> (parked g)) (history g))
  | Fault _ => None
  end.

Fixpoint remove_first (t : tid) (l : list tid) : list tid :=
  match l with
  | [] => []
  | x :: l' => if decide (x = t) then l' else x :: remove_first t l'
  end.

(** Modelled from the spec: the scheduler's half of [sched_switch], which is
    external.  Section 2: [sched_switch] returns "only when this thread is
    made runnable again"; the glossary: the run queue is "the scheduler's
    collection of threads eligible for execution".  Switching to [t] takes it
    off the run queue and makes it [curthr]; any thread on the run queue may
    be chosen. *)
Definition sched_dispatch (t : tid) (s : kstate) : option kstate :=
  if bool_decide (t ∈ kt_runq s)
  then Some (set_curthr (Some t) (set_runq (remove_first t (kt_runq s)) s))
  else None.

Definition sys_step (mtx : mid) (g : sys) (e : event) : option sys :=
  match e with
  | Call t c =>
      match parked g !! t with
      | Some _ => None
      | None =>
          settle t c false (run_call mtx c (set_curthr (Some t) (kern g))) g
      end
  | Resume t =>
      match parked g !! t with
      | Some (c, k) =>
          match sched_dispatch t (kern g) with
          | Some r => settle t c true (k r) g
          | None => None
          end
      | None => None
      end
  end.

Fixpoint sys_run (mtx : mid) (g : sys) (es : list event) : option sys :=
  match es with
  | [] => Some g
  | e :: es' =>
      match sys_step mtx g e with
      | Some g' => sys_run mtx g' es'
      | None => None
      end
  end.

(** A kernel in which the mutex has just been initialised and nothing has
    happened yet; no thread is waiting on the run queue. *)
Record sys_initial (mtx : mid) (g : sys) : Prop := mk_sys_initial {
  init_mutex : mutexes (kern g) !! mtx = Some kmutex_initial;
  init_runq : kt_runq (kern g) = [];
  init_klog : klog (kern g) = [];
  init_parked : parked g = ∅;
  init_history : history g = []
}.

(** Threads in the order in which they were enqueued on, and dequeued from,
    the wait queue of [mtx]. *)
Definition arrivals (mtx : mid) (l : list kevent) : list tid :=
  omap (fun e => match e with
                 | EvEnqueue q t => if decide (q = mtx) then Some t else None
                 | _ => None
                 end) l.

Definition grants (mtx : mid) (l : list kevent) : list tid :=
  omap (fun e => match e with
                 | EvDequeue q t => if decide (q = mtx) then Some t else None
                 | _ => None
                 end) l.

(** Threads whose lock call returned after having parked, in the order of
    their returns. *)
Definition served (h : list returned) : list tid :=
  omap (fun r => if r_waited r then Some (r_thread r) else None) h.

(** Whether a completed call left its caller owning the mutex. *)
Definition acquired (r : returned) : bool :=
  match r_call r with
  | CLock => true
  | CLockCancellable => bool_decide (r_value r = 0)
  | CUnlock => false
  end.

(** Whether thread [t] is inside its critical section: its most recent
    completed call is a successful lock. *)
Definition owns (t : tid) (h : list returned) : bool :=
  foldl (fun b r => if decide (r_thread r = t) then acquired r else b)
        false h.

(** The holder field of the mutex at [mtx], and its waiters in queue
    order. *)
Definition holder_of (mtx : mid) (s : kstate) : option tid :=
  match mutexes s !! mtx with
  | Some mx => km_holder mx
  | None => None
  end.

Definition waiters_of (mtx : mid) (s : kstate) : list tid :=
  match mutexes s !! mtx with
  | Some mx => tq_list (km_waitq mx)
  | None => []
  end.

(** Thread 1 holds the mutex, nobody waits, and thread 2 is running. *)
Definition demo_held : kstate :=
  mk_kstate (Some 2%nat) demo_threads
    (<[7%nat := mk_kmutex (mk_ktqueue [] 0) (Some 1%nat)]> ∅) [] [].

(** Every cancellable lock by thread [t] completed so far reported
    [-EINTR]. *)
Definition always_interrupted (t : tid) (h : list returned) : Prop :=
  Forall (fun e => r_thread e = t -> r_call e = CLockCancellable ->
                   r_value e = - EINTR) h.

(** Three threads contend: 1 locks, 2 and 3 park in that order, 1 unlocks,
    2 is switched to and unlocks, 3 is switched to. *)
Definition demo_sys : sys := mk_sys demo_free ∅ [].

Definition demo_schedule : list event :=
  [Call 1%nat CLock; Call 2%nat CLock; Call 3%nat CLock;
   Call 1%nat CUnlock; Resume 2%nat; Call 2%nat CUnlock; Resume 3%nat].

(** ** The invariant of a kernel whose threads share the mutex *)

(** What a stored continuation is: the tail of the lock function in which
    the thread parked. *)
Definition resumes_as (mtx : mid) (c : call) (k : kstate -> Res Z) : Prop :=
  match c with
  | CLock => forall r, k r = res_bind (lock_resume mtx r) (fun _ => ret 0)
  | CLockCancellable => forall r, k r = lock_cancellable_resume mtx r
  | CUnlock => False
  end.

(** The invariant, over the mutex [mx], the run queue [rq], the log [lg], the
    parked threads [P], the owner predicate [ow] and the list [sv] of threads
    served after a wait. *)
Record kinv (mtx : mid) (mx : kmutex) (rq : list tid) (lg : list kevent)
    (P : gmap nat (call * (kstate -> Res Z))) (ow : tid -> bool)
    (sv : list tid) : Prop := mk_kinv {
  k_count :
    tq_size (km_waitq mx) = Z.of_nat (length (tq_list (km_waitq mx)));
  k_nodup : NoDup (tq_list (km_waitq mx));
  k_holder_unlinked :
    forall t, km_holder mx = Some t -> t ∉ tq_list (km_waitq mx);
  k_free_empty : km_holder mx = None -> tq_list (km_waitq mx) = [];
  k_linked_parked :
    forall t, t ∈ tq_list (km_waitq mx) -> is_Some (P !! t);
  k_runq :
    rq = [] \/ exists t, rq = [t] /\ km_holder mx = Some t
                         /\ is_Some (P !! t);
  k_parked_queued :
    forall t, is_Some (P !! t) -> t ∈ tq_list (km_waitq mx) \/ t ∈ rq;
  k_conts : forall t c k, P !! t = Some (c, k) -> resumes_as mtx c k;
  k_owner : forall t, ow t = true -> km_holder mx = Some t /\ P !! t = None;
  k_fifo_queue :
    arrivals mtx lg = grants mtx lg ++ tq_list (km_waitq mx);
  k_fifo_served : grants mtx lg = sv ++ rq
}.

Definition sys_inv (mtx : mid) (g : sys) : Prop :=
  exists mx,
    mutexes (kern g) !! mtx = Some mx
    /\ kinv mtx mx (kt_runq (kern g)) (klog (kern g)) (parked g)
            (fun t => owns t (history g)) (served (history g)).

(** The owner predicate after thread [t] acquired ([b = true]) or gave up
    ([b = false]) the mutex. *)
Definition own_upd (ow : tid -> bool) (t : tid) (b : bool) : tid -> bool :=
  fun t' => if decide (t = t') then b else ow t'.

(** The state the example schedule ends in. *)
Definition demo_final : sys :=
  match sys_run 7%nat demo_sys demo_schedule with
  | Some g => g
  | None => demo_sys
  end.

(** ** Further observations on outcomes and states *)

(** Every stretch of execution of an outcome leaves the observation [obs]
    of the state as it was when the stretch began. *)
Fixpoint stretches_keep {X A} (obs : kstate -> X) (s0 : kstate)
    (r : Res A) : Prop :=
  match r with
  | Done _ s => obs s = obs s0
  | Fault s => obs s = obs s0
  | Suspended s k =>
      obs s = obs s0 /\ forall r0, stretches_keep obs r0 (k r0)
  end.

Definition keeps {X A} (obs : kstate -> X) (m : M A) : Prop :=
  forall s, stretches_keep obs s (m s).

(** What a mutex function called on [mtx] has no business with: the global
    [curthr], every other mutex, and of each thread the return value, the
    error number and the cancellation flag. *)
Definition untouched (mtx : mid) (s : kstate)
    : option tid * gmap nat kmutex * gmap nat (Z * Z * Z) :=
  (curthr s, delete mtx (mutexes s),
   (fun th => (kt_retval th, kt_errno th, kt_cancelled th)) <$> threads s).

(** An outcome that is not a park, and one that parks at most once. *)
Definition never_parks {A} (r : Res A) : Prop :=
  match r with
  | Suspended _ _ => False
  | _ => True
  end.

Definition parks_at_most_once {A} (r : Res A) : Prop :=
  match r with
  | Suspended _ k => forall r0, never_parks (k r0)
  | _ => True
  end.

(** The call halts the kernel in state [sf], at once or after having parked:
    [rs] lists the states in which the scheduler switches back to the
    caller, one for each park.  A call that is still parked when [rs] is
    used up has not halted. *)
Fixpoint halts_in {A} (rs : list kstate) (r : Res A) (sf : kstate)
    {struct r} : Prop :=
  match r with
  | Fault s => s = sf
  | Done _ _ => False
  | Suspended _ k =>
      match rs with
      | [] => False
      | r0 :: rs' => halts_in rs' (k r0) sf
      end
  end.

(** The state field a caller parked in call [c] was given. *)
Definition sleep_state (c : call) : kthread_state_t :=
  match c with
  | CLockCancellable => KT_SLEEP_CANCELLABLE
  | _ => KT_SLEEP
  end.

(** The part of the invariant that concerns the thread objects [ts]: a
    linked thread is live, parked, asleep in the way of its call and points
    at the queue; a thread on the run queue is live and [KT_RUN]; the holder
    is inside its critical section or on the run queue. *)
Record tinv (mtx : mid) (mx : kmutex) (rq : list tid)
    (ts : gmap nat kthread) (P : gmap nat (call * (kstate -> Res Z)))
    (ow : tid -> bool) : Prop := mk_tinv {
  t_waiting :
    forall t, t ∈ tq_list (km_waitq mx) ->
      exists th c k,
        ts !! t = Some th /\ P !! t = Some (c, k)
        /\ kt_state th = sleep_state c /\ kt_wchan th = Some mtx;
  t_runnable :
    forall t, t ∈ rq ->
      exists th, ts !! t = Some th /\ kt_state th = KT_RUN
                 /\ kt_wchan th = None;
  t_holder : forall t, km_holder mx = Some t -> ow t = true \/ t ∈ rq
}.

Definition sys_tinv (mtx : mid) (g : sys) : Prop :=
  exists mx,
    mutexes (kern g) !! mtx = Some mx
    /\ tinv mtx mx (kt_runq (kern g)) (threads (kern g)) (parked g)
            (fun t => owns t (history g)).

(** The count of the example mutex says 0 although threads 2 and 3 are
    linked; thread 1 holds it. *)
Definition demo_miscounted : kstate :=
  mk_kstate (Some 1%nat) demo_threads
    (<[7%nat := mk_kmutex (mk_ktqueue [2%nat; 3%nat] 0) (Some 1%nat)]> ∅)
    [] [].

(** Thread 1 locks, the cancelled thread 3 and then thread 2 park, the first
    in the cancellable lock; thread 1 unlocks. *)
Definition demo_cancelled_schedule : list event :=
  [Call 1%nat CLock; Call 3%nat CLockCancellable; Call 2%nat CLock;
   Call 1%nat CUnlock].

Definition demo_cancelled_sys : sys :=
  match sys_run 7%nat demo_sys demo_cancelled_schedule with
  | Some g => g
  | None => demo_sys
  end.

(** Thread 1 locks and thread 2 parks. *)
Definition demo_waiting_sys : sys :=
  match sys_run 7%nat demo_sys (take 2 demo_schedule) with
  | Some g => g
  | None => demo_sys
  end.

(** Then thread 3 calls [kmutex_lock]. *)
Definition demo_queued_sys : sys :=
  match sys_step 7%nat demo_waiting_sys (Call 3%nat CLock) with
  | Some g => g
  | None => demo_sys
  end.

(** ** Cancellation and the other threads of the kernel

    The threads of the kernel share one scheduler: its run queue also holds
    threads that have nothing to do with the mutex, and a thread asleep in
    [kmutex_lock_cancellable] can be woken by a cancellation instead of a
    hand-off.  The runs below include both. *)

Definition set_kt_retval (v : Z) (t : kthread) : kthread :=
  mk_kthread v (kt_errno t) (kt_cancelled t) (kt_wchan t) (kt_state t).

(** Modelled from the spec: taking a thread out of the middle of a wait
    queue belongs to the queue utility of proc/sched.h, which is not part of
    the sources.  Section 8: a thread cancelled while in [SLEEP_CANCELLABLE]
    on a mutex wait queue "is removed from that queue"; section 3: "the count
    always equals the number of linked threads", and the wait channel is
    "none when running". *)
Definition ktqueue_remove (q : mid) (thr : option tid) : M unit :=
  match thr with
  | Some t =>
      update_mtx q (fun m =>
        set_km_waitq (mk_ktqueue (remove_first t (tq_list (km_waitq m)))
                                 (tq_size (km_waitq m) - 1)) m) ;;;
      update_thr thr (set_kt_wchan None) ;;;
      emit (EvRemove q t)
  | None => halt
  end.

(** Modelled from the spec: [kthread_cancel] is declared at kthread.h line
    72; its body is not part of the sources.  Section 4.2: it "sets
    cancelled; if the thread is in SLEEP_CANCELLABLE, it must be made
    runnable so it observes cancellation and unwinds; if in uninterruptible
    SLEEP, cancellation is deferred until the thread wakes naturally; the
    supplied retval becomes the thread's eventual return value".  The state
    machine of the same section takes a woken thread to [RUN]. *)
Definition kthread_cancel (kthr : option tid) (retval : Z) : M unit :=
  th <- load_thr kthr ;;
  update_thr kthr (fun th => set_kt_cancelled 1 (set_kt_retval retval th)) ;;;
  if bool_decide (kt_state th = KT_SLEEP_CANCELLABLE) then
    (match kt_wchan th with
     | Some q => ktqueue_remove q kthr
     | None => ret tt
     end) ;;;
    update_thr kthr (set_kt_state KT_RUN) ;;;
    sched_make_runnable kthr
  else ret tt.

(** The state after a cancellation took the thread [t], asleep in
    [KT_SLEEP_CANCELLABLE] on the queue of [q], off that queue and made it
    runnable. *)
Definition struck_state (q : mid) (mq : kmutex) (t : tid) (th : kthread)
    (retval : Z) (s : kstate) : kstate :=
  mk_kstate (curthr s)
    (<[t := set_kt_state KT_RUN
              (set_kt_wchan None
                 (set_kt_cancelled 1 (set_kt_retval retval th)))]>
       (threads s))
    (<[q := mk_kmutex
              (mk_ktqueue (remove_first t (tq_list (km_waitq mq)))
                          (tq_size (km_waitq mq) - 1))
              (km_holder mq)]> (mutexes s))
    (kt_runq s ++ [t])
    ((klog s ++ [EvRemove q t]) ++ [EvMakeRunnable t]).

(** What happens next in the kernel: a mutex call or the resumption of a
    thread parked in one; a cancellation of thread [t]; some other part of
    the kernel making a thread runnable that is not asleep on the mutex; the
    scheduler switching to such a thread, which then runs code of its
    own. *)
Inductive action : Set :=
| Mutex (e : event)
| Cancel (t : tid) (retval : Z)
| Wake (t : tid)
| Dispatch (t : tid).

(** Modelled from the spec: one step of the kernel.  The scheduler is
    external; section 5: "only one thread executes kernel code at a time",
    and a parked thread does not return "until that thread is later made
    runnable (either by unlock's hand-off or by an external cancellation
    wakeup)"; section 3: "at every observable instant a thread is in
    precisely one of -- actively executing, linked into some wait/run
    queue, or EXITED".  So a thread that calls a mutex function is not
    parked and not on the run queue, and only a thread that is not asleep on
    the mutex is made runnable or switched to by the rest of the kernel.  A
    halt of the kernel ends the run. *)
Definition kernel_step (mtx : mid) (g : sys) (a : action) : option sys :=
  match a with
  | Mutex (Call t c) =>
      if bool_decide (t ∈ kt_runq (kern g)) then None
      else sys_step mtx g (Call t c)
  | Mutex (Resume t) => sys_step mtx g (Resume t)
  | Cancel t retval =>
      match kthread_cancel (Some t) retval (kern g) with
      | Done _ s => Some (mk_sys s (parked g) (history g))
      | _ => None
      end
  | Wake t =>
      match parked g !! t with
      | Some _ => None
      | None =>
          match sched_make_runnable (Some t) (kern g) with
          | Done _ s => Some (mk_sys s (parked g) (history g))
          | _ => None
          end
      end
  | Dispatch t =>
      match parked g !! t with
      | Some _ => None
      | None =>
          match sched_dispatch t (kern g) with
          | Some s => Some (mk_sys s (parked g) (history g))
          | None => None
          end
      end
  end.

Fixpoint kernel_run (mtx : mid) (g : sys) (acts : list action)
    : option sys :=
  match acts with
  | [] => Some g
  | a :: acts' =>
      match kernel_step mtx g a with
      | Some g' => kernel_run mtx g' acts'
      | None => None
      end
  end.

(** A kernel in which the mutex has just been initialised: no thread object
    points at its wait queue, no mutex call is under way.  The threads, the
    other mutexes and the run queue are arbitrary. *)
Record kernel_initial (mtx : mid) (g : sys) : Prop := mk_kernel_initial {
  kinit_mutex : mutexes (kern g) !! mtx = Some kmutex_initial;
  kinit_wchan :
    forall t th, threads (kern g) !! t = Some th -> kt_wchan th <> Some mtx;
  kinit_klog : klog (kern g) = [];
  kinit_parked : parked g = ∅;
  kinit_history : history g = []
}.

(** The list [l] without the last occurrence of [t]. *)
Definition remove_last (t : tid) (l : list tid) : list tid :=
  reverse (remove_first t (reverse l)).

(** The threads enqueued on the wait queue of [mtx], in the order of their
    arrival, less those a cancellation took off the queue while they
    waited. *)
Definition admitted (mtx : mid) (l : list kevent) : list tid :=
  foldl (fun acc e =>
           match e with
           | EvEnqueue q t => if decide (q = mtx) then acc ++ [t] else acc
           | EvRemove q t =>
               if decide (q = mtx) then remove_last t acc else acc
           | _ => acc
           end) [] l.

(** The thread that has been passed the mutex and has not run since: the
    holder, when it is still parked. *)
Definition handed_to (mx : kmutex)
    (P : gmap nat (call * (kstate -> Res Z))) : list tid :=
  match km_holder mx with
  | Some t => match P !! t with
              | Some _ => [t]
              | None => []
              end
  | None => []
  end.

Definition handed (mtx : mid) (g : sys) : list tid :=
  match mutexes (kern g) !! mtx with
  | Some mx => handed_to mx (parked g)
  | None => []
  end.

(** A thread that can call a mutex function: it is neither parked in one nor
    waiting on the run queue. *)
Definition running (g : sys) (t : tid) : Prop :=
  parked g !! t = None /\ t ∉ kt_runq (kern g).

(** The invariant of these runs, over the mutex [mx], the run queue [rq],
    the log [lg], the thread objects [ts], the parked threads [P], the owner
    predicate [ow] and the list [sv] of threads served after a wait.  A
    parked thread is linked in the wait queue, asleep in the way of its
    call, or it is on the run queue in state [KT_RUN]: as the holder, or
    woken from [kmutex_lock_cancellable] by a cancellation. *)
Record winv (mtx : mid) (mx : kmutex) (rq : list tid) (lg : list kevent)
    (ts : gmap nat kthread) (P : gmap nat (call * (kstate -> Res Z)))
    (ow : tid -> bool) (sv : list tid) : Prop := mk_winv {
  w_count :
    tq_size (km_waitq mx) = Z.of_nat (length (tq_list (km_waitq mx)));
  w_nodup : NoDup (tq_list (km_waitq mx));
  w_holder_unlinked :
    forall t, km_holder mx = Some t -> t ∉ tq_list (km_waitq mx);
  w_free_empty : km_holder mx = None -> tq_list (km_waitq mx) = [];
  w_waiting :
    forall t, t ∈ tq_list (km_waitq mx) ->
      (t ∉ rq)
      /\ exists th c k,
           ts !! t = Some th /\ P !! t = Some (c, k)
           /\ kt_state th = sleep_state c /\ kt_wchan th = Some mtx;
  w_wchan :
    forall t th, ts !! t = Some th -> kt_wchan th = Some mtx ->
      t ∈ tq_list (km_waitq mx);
  w_parked :
    forall t c k, P !! t = Some (c, k) ->
      resumes_as mtx c k
      /\ (t ∈ tq_list (km_waitq mx)
          \/ (t ∈ rq
              /\ exists th,
                   ts !! t = Some th /\ kt_state th = KT_RUN
                   /\ (km_holder mx = Some t
                       \/ (c = CLockCancellable /\ kt_cancelled th <> 0))));
  w_owner : forall t, ow t = true -> km_holder mx = Some t /\ P !! t = None;
  w_holder :
    forall t, km_holder mx = Some t -> ow t = true \/ is_Some (P !! t);
  w_fifo_queue :
    admitted mtx lg = grants mtx lg ++ tq_list (km_waitq mx);
  w_fifo_served : grants mtx lg = sv ++ handed_to mx P
}.

Definition sys_winv (mtx : mid) (g : sys) : Prop :=
  exists mx,
    mutexes (kern g) !! mtx = Some mx
    /\ winv mtx mx (kt_runq (kern g)) (klog (kern g)) (threads (kern g))
            (parked g) (fun t => owns t (history g)) (served (history g)).

(** How an action changes the holder and the wait queue [l] of the mutex:
    not at all; the caller of a lock function joins at the tail; the caller
    of a lock function claims the free mutex, for which nobody waits; the
    holder runs and frees the mutex, for which nobody waits; the holder runs
    and the mutex passes to the head of the queue; or a cancellation takes a
    waiter off the queue. *)
Definition actor (a : action) : option tid :=
  match a with
  | Mutex (Call t _) => Some t
  | Mutex (Resume t) => Some t
  | _ => None
  end.

Inductive queue_move (a : action) (h : option tid) (l : list tid)
    : option tid -> list tid -> Prop :=
| qm_stay : queue_move a h l h l
| qm_join t c :
    a = Mutex (Call t c) -> c <> CUnlock -> h <> None -> t ∉ l ->
    queue_move a h l h (l ++ [t])
| qm_claim t c :
    a = Mutex (Call t c) -> c <> CUnlock -> h = None -> l = [] ->
    queue_move a h l (Some t) []
| qm_free : actor a = h -> h <> None -> l = [] -> queue_move a h l None []
| qm_pass t rest :
    actor a = h -> h <> None -> l = t :: rest ->
    queue_move a h l (Some t) rest
| qm_strike t v :
    a = Cancel t v -> t ∈ l -> queue_move a h l h (remove_first t l).

Definition moves (mtx : mid) (a : action) (g g' : sys) : Prop :=
  queue_move a (holder_of mtx (kern g)) (waiters_of mtx (kern g))
             (holder_of mtx (kern g')) (waiters_of mtx (kern g')).

(** The example kernel with two more threads, 8 and 9, on the run queue;
    thread 1 locks, thread 2 parks in the cancellable lock and thread 3 in
    the plain one, thread 8 is switched to, thread 2 is cancelled, thread 1
    unlocks and thread 3 is switched to. *)
Definition demo_kernel : sys :=
  mk_sys (mk_kstate (Some 1%nat)
            (<[8%nat := demo_thread]> (<[9%nat := demo_thread]> demo_threads))
            (<[7%nat := kmutex_initial]> ∅) [8%nat; 9%nat] [])
         ∅ [].

Definition demo_actions : list action :=
  [Mutex (Call 1%nat CLock); Mutex (Call 2%nat CLockCancellable);
   Mutex (Call 3%nat CLock); Dispatch 8%nat; Cancel 2%nat 5;
   Mutex (Call 1%nat CUnlock); Mutex (Resume 3%nat)].

Definition demo_kernel_final : sys :=
  match kernel_run 7%nat demo_kernel demo_actions with
  | Some g => g
  | None => demo_kernel
  end.

(** The same kernel after the first [n] of these actions. *)
Definition demo_kernel_after (n : nat) : sys :=
  match kernel_run 7%nat demo_kernel (take n demo_actions) with
  | Some g => g
  | None => demo_kernel
  end.

(** * Verification *)

(** ** Equations of the monad and of the primitives *)

Lemma bind_Done {A B} (m : M A) (f : A -> M B) s a s' :
  m s = Done a s' -> bind m f s = f a s'.
Proof. unfold bind. by intros ->. Qed.

Lemma bind_Fault {A B} (m : M A) (f : A -> M B) s s' :
  m s = Fault s' -> bind m f s = Fault s'.
Proof. unfold bind. by intros ->. Qed.

Lemma bind_Suspended {A B} (m : M A) (f : A -> M B) s s' k :
  m s = Suspended s' k ->
  bind m f s = Suspended s' (fun r => res_bind (k r) f).
Proof. unfold bind. by intros ->. Qed.

Lemma ptr_eq_true p q : ptr_eq p q = true <-> p = q.
Proof. unfold ptr_eq. apply bool_decide_eq_true. Qed.

Lemma ptr_eq_refl p : ptr_eq p p = true.
Proof. by apply ptr_eq_true. Qed.

Lemma ptr_eq_false p q : p <> q -> ptr_eq p q = false.
Proof. unfold ptr_eq. apply bool_decide_eq_false_2. Qed.

Lemma ptr_ne_true p q : ptr_ne p q = true <-> p <> q.
Proof.
  unfold ptr_ne, ptr_eq. rewrite negb_true_iff. apply bool_decide_eq_false.
Qed.

Lemma ptr_ne_refl p : ptr_ne p p = false.
Proof. unfold ptr_ne. by rewrite ptr_eq_refl. Qed.

Lemma ptr_ne_neq p q : p <> q -> ptr_ne p q = true.
Proof. apply ptr_ne_true. Qed.

Section Primitives.
Variables (s : kstate) (mtx : mid).

Lemma load_mtx_Done mx :
  mutexes s !! mtx = Some mx -> load_mtx mtx s = Done mx s.
Proof. unfold load_mtx. by intros ->. Qed.

Lemma load_mtx_Fault :
  mutexes s !! mtx = None -> load_mtx mtx s = Fault s.
Proof. unfold load_mtx. by intros ->. Qed.

Lemma read_km_holder_Done mx :
  mutexes s !! mtx = Some mx -> read_km_holder mtx s = Done (km_holder mx) s.
Proof.
  intros H. unfold read_km_holder.
  by rewrite (bind_Done _ _ _ _ _ (load_mtx_Done _ H)).
Qed.

Lemma read_tq_size_Done mx :
  mutexes s !! mtx = Some mx ->
  read_tq_size mtx s = Done (tq_size (km_waitq mx)) s.
Proof.
  intros H. unfold read_tq_size.
  by rewrite (bind_Done _ _ _ _ _ (load_mtx_Done _ H)).
Qed.

Lemma update_mtx_Done mx f :
  mutexes s !! mtx = Some mx ->
  update_mtx mtx f s = Done tt (set_mutexes (<[mtx := f mx]> (mutexes s)) s).
Proof.
  intros H. unfold update_mtx.
  by rewrite (bind_Done _ _ _ _ _ (load_mtx_Done _ H)).
Qed.

Lemma update_mtx_Fault f :
  mutexes s !! mtx = None -> update_mtx mtx f s = Fault s.
Proof.
  intros H. unfold update_mtx.
  by rewrite (bind_Fault _ _ _ _ (load_mtx_Fault H)).
Qed.

Lemma load_thr_Done t th :
  threads s !! t = Some th -> load_thr (Some t) s = Done th s.
Proof. unfold load_thr. by intros ->. Qed.

Lemma load_thr_Fault t :
  threads s !! t = None -> load_thr (Some t) s = Fault s.
Proof. unfold load_thr. by intros ->. Qed.

Lemma update_thr_Done t th f :
  threads s !! t = Some th ->
  update_thr (Some t) f s
  = Done tt (set_threads (<[t := f th]> (threads s)) s).
Proof.
  intros H. unfold update_thr.
  by rewrite (bind_Done _ _ _ _ _ (load_thr_Done _ _ H)).
Qed.

Lemma update_thr_Fault t f :
  threads s !! t = None -> update_thr (Some t) f s = Fault s.
Proof.
  intros H. unfold update_thr.
  by rewrite (bind_Fault _ _ _ _ (load_thr_Fault _ H)).
Qed.

Lemma curthr_and_Done op c mx :
  curthr s = Some c -> mutexes s !! mtx = Some mx ->
  curthr_and mtx op s = Done (op (Some c) (km_holder mx)) s.
Proof.
  intros Hc Hm. unfold curthr_and, bind, read_curthr. cbn [res_bind].
  rewrite Hc.
  fold (bind (read_km_holder mtx) (fun h => ret (op (Some c) h)) s).
  by rewrite (bind_Done _ _ _ _ _ (read_km_holder_Done _ Hm)).
Qed.

Lemma curthr_and_null op :
  curthr s = None -> curthr_and mtx op s = Done false s.
Proof.
  intros Hc. unfold curthr_and, bind, read_curthr. cbn [res_bind].
  by rewrite Hc.
Qed.

Lemma curthr_and_Fault op c :
  curthr s = Some c -> mutexes s !! mtx = None ->
  curthr_and mtx op s = Fault s.
Proof.
  intros Hc Hm. unfold curthr_and, bind, read_curthr. cbn [res_bind].
  rewrite Hc. unfold read_km_holder, bind. by rewrite (load_mtx_Fault Hm).
Qed.
End Primitives.

(** Side conditions of the equations: lookups in heaps that were just
    updated. *)
Ltac kheap :=
  cbn [curthr threads mutexes kt_runq klog
       set_curthr set_threads set_mutexes set_runq log_event];
  first
    [ eassumption
    | apply lookup_insert_eq
    | rewrite lookup_insert_ne by congruence; kheap ].

(** One step of symbolic execution: the first action of a sequence returns. *)
Ltac kdone lem := erewrite bind_Done by (apply lem; kheap).

Ltac knorm :=
  cbn [curthr threads mutexes kt_runq klog
       set_curthr set_threads set_mutexes set_runq log_event
       set_km_waitq set_km_holder km_waitq km_holder tq_list tq_size];
  rewrite ?insert_insert_eq.

Section QueueUtility.
Variables (s : kstate) (q : mid) (mx : kmutex).
Hypothesis Hq : mutexes s !! q = Some mx.

Lemma ktqueue_enqueue_Done t th :
  threads s !! t = Some th ->
  ktqueue_enqueue q (Some t) s
  = Done tt
      (mk_kstate (curthr s)
         (<[t := set_kt_wchan (Some q) th]> (threads s))
         (<[q := mk_kmutex
                   (mk_ktqueue (tq_list (km_waitq mx) ++ [t])
                               (tq_size (km_waitq mx) + 1))
                   (km_holder mx)]> (mutexes s))
         (kt_runq s)
         (klog s ++ [EvEnqueue q t])).
Proof.
  intros Ht. unfold ktqueue_enqueue.
  kdone update_mtx_Done. kdone update_thr_Done.
  kdone update_mtx_Done. unfold emit. by knorm.
Qed.

Lemma ktqueue_dequeue_Done t rest th :
  tq_list (km_waitq mx) = t :: rest ->
  threads s !! t = Some th ->
  ktqueue_dequeue q s
  = Done (Some t)
      (mk_kstate (curthr s)
         (<[t := set_kt_wchan None th]> (threads s))
         (<[q := mk_kmutex
                   (mk_ktqueue rest (tq_size (km_waitq mx) - 1))
                   (km_holder mx)]> (mutexes s))
         (kt_runq s)
         (klog s ++ [EvDequeue q t])).
Proof.
  intros Hl Ht. unfold ktqueue_dequeue.
  kdone load_mtx_Done. rewrite Hl.
  unfold store_mtx at 1. erewrite bind_Done by reflexivity.
  kdone update_mtx_Done. kdone update_thr_Done.
  unfold emit at 1. erewrite bind_Done by reflexivity.
  unfold ret. by knorm.
Qed.

Lemma ktqueue_dequeue_empty :
  tq_list (km_waitq mx) = [] -> ktqueue_dequeue q s = Fault s.
Proof.
  intros Hl. unfold ktqueue_dequeue.
  kdone load_mtx_Done. by rewrite Hl.
Qed.
End QueueUtility.

(** ** Equations of the mutex functions *)

Section Unlock.
Variables (s : kstate) (mtx : mid).

Lemma kmutex_unlock_null :
  curthr s = None -> kmutex_unlock mtx s = Fault s.
Proof.
  intros Hc. unfold kmutex_unlock.
  by erewrite bind_Done by (by apply curthr_and_null).
Qed.

Lemma kmutex_unlock_unallocated c :
  curthr s = Some c -> mutexes s !! mtx = None ->
  kmutex_unlock mtx s = Fault s.
Proof.
  intros Hc Hm. unfold kmutex_unlock.
  by erewrite bind_Fault by (by eapply curthr_and_Fault).
Qed.

Variables (c : tid) (mx : kmutex).
Hypothesis Hc : curthr s = Some c.
Hypothesis Hm : mutexes s !! mtx = Some mx.

Lemma kmutex_unlock_not_holder :
  km_holder mx <> Some c -> kmutex_unlock mtx s = Fault s.
Proof.
  intros Hh. unfold kmutex_unlock. kdone curthr_and_Done.
  rewrite ptr_eq_false by congruence. done.
Qed.

Hypothesis Hh : km_holder mx = Some c.

Lemma kmutex_unlock_free :
  tq_size (km_waitq mx) = 0 ->
  kmutex_unlock mtx s = Done tt (holder_set mtx mx None s).
Proof.
  intros Hsz. unfold kmutex_unlock. kdone curthr_and_Done.
  rewrite Hh, ptr_eq_refl. unfold KASSERT at 1.
  erewrite bind_Done by reflexivity.
  kdone read_tq_size_Done. rewrite Hsz. cbn [Z.eqb].
  kdone update_mtx_Done. unfold read_curthr at 1.
  erewrite bind_Done by reflexivity.
  kdone read_km_holder_Done. knorm. rewrite Hc. done.
Qed.

Lemma kmutex_unlock_empty_list :
  tq_size (km_waitq mx) <> 0 -> tq_list (km_waitq mx) = [] ->
  kmutex_unlock mtx s = Fault s.
Proof.
  intros Hsz Hl. unfold kmutex_unlock. kdone curthr_and_Done.
  rewrite Hh, ptr_eq_refl. unfold KASSERT at 1.
  erewrite bind_Done by reflexivity.
  kdone read_tq_size_Done.
  destruct (Z.eqb_spec 0 (tq_size (km_waitq mx))) as [E|_]; [congruence|].
  erewrite bind_Fault; [done|].
  erewrite bind_Fault; [done|]. by eapply ktqueue_dequeue_empty.
Qed.

Lemma kmutex_unlock_handoff t rest th :
  tq_size (km_waitq mx) <> 0 -> tq_list (km_waitq mx) = t :: rest ->
  threads s !! t = Some th -> t <> c ->
  kmutex_unlock mtx s = Done tt (handoff_state mtx mx t rest th s).
Proof.
  intros Hsz Hl Ht Hne. unfold kmutex_unlock. kdone curthr_and_Done.
  rewrite Hh, ptr_eq_refl. unfold KASSERT at 1.
  erewrite bind_Done by reflexivity.
  kdone read_tq_size_Done.
  destruct (Z.eqb_spec 0 (tq_size (km_waitq mx))) as [E|_]; [congruence|].
  erewrite (bind_Done (bind (ktqueue_dequeue mtx) _)); cycle 1.
  { erewrite bind_Done by (by eapply ktqueue_dequeue_Done).
    kdone update_mtx_Done. kdone update_thr_Done.
    unfold sched_make_runnable. reflexivity. }
  knorm. unfold read_curthr at 1. erewrite bind_Done by reflexivity.
  kdone read_km_holder_Done. knorm. rewrite Hc.
  rewrite ptr_ne_neq by congruence.
  unfold KASSERT, handoff_state. knorm. by rewrite ?Hc.
Qed.

Lemma kmutex_unlock_head_unallocated t rest :
  tq_size (km_waitq mx) <> 0 -> tq_list (km_waitq mx) = t :: rest ->
  threads s !! t = None ->
  exists s', kmutex_unlock mtx s = Fault s'.
Proof.
  intros Hsz Hl Ht. unfold kmutex_unlock. kdone curthr_and_Done.
  rewrite Hh, ptr_eq_refl. unfold KASSERT at 1.
  erewrite bind_Done by reflexivity.
  kdone read_tq_size_Done.
  destruct (Z.eqb_spec 0 (tq_size (km_waitq mx))) as [E|_]; [congruence|].
  eexists. erewrite bind_Fault; [done|].
  erewrite bind_Fault; [done|]. unfold ktqueue_dequeue.
  kdone load_mtx_Done. rewrite Hl.
  unfold store_mtx at 1. erewrite bind_Done by reflexivity.
  kdone update_mtx_Done.
  erewrite bind_Fault; [done|]. apply update_thr_Fault. by kheap.
Qed.

Lemma kmutex_unlock_head_self rest th :
  tq_size (km_waitq mx) <> 0 -> tq_list (km_waitq mx) = c :: rest ->
  threads s !! c = Some th ->
  kmutex_unlock mtx s = Fault (handoff_state mtx mx c rest th s).
Proof.
  intros Hsz Hl Ht. unfold kmutex_unlock. kdone curthr_and_Done.
  rewrite Hh, ptr_eq_refl. unfold KASSERT at 1.
  erewrite bind_Done by reflexivity.
  kdone read_tq_size_Done.
  destruct (Z.eqb_spec 0 (tq_size (km_waitq mx))) as [E|_]; [congruence|].
  erewrite (bind_Done (bind (ktqueue_dequeue mtx) _)); cycle 1.
  { erewrite bind_Done by (by eapply ktqueue_dequeue_Done).
    kdone update_mtx_Done. kdone update_thr_Done.
    unfold sched_make_runnable. reflexivity. }
  knorm. unfold read_curthr at 1. erewrite bind_Done by reflexivity.
  kdone read_km_holder_Done. knorm. rewrite Hc, ptr_ne_refl.
  unfold KASSERT, handoff_state. knorm. by rewrite ?Hc.
Qed.
End Unlock.

Lemma kmutex_unlock_cases (s : kstate) (mtx : mid) :
  (exists s', kmutex_unlock mtx s = Fault s')
  \/ (exists c mx,
        curthr s = Some c /\ mutexes s !! mtx = Some mx
        /\ km_holder mx = Some c /\ tq_size (km_waitq mx) = 0
        /\ kmutex_unlock mtx s = Done tt (holder_set mtx mx None s))
  \/ (exists c mx t rest th,
        curthr s = Some c /\ mutexes s !! mtx = Some mx
        /\ km_holder mx = Some c /\ tq_size (km_waitq mx) <> 0
        /\ tq_list (km_waitq mx) = t :: rest
        /\ threads s !! t = Some th /\ t <> c
        /\ kmutex_unlock mtx s = Done tt (handoff_state mtx mx t rest th s)).
Proof.
  destruct (curthr s) as [c|] eqn:Hc;
    [|left; eexists; by apply kmutex_unlock_null].
  destruct (mutexes s !! mtx) as [mx|] eqn:Hm;
    [|left; eexists; by eapply kmutex_unlock_unallocated].
  destruct (decide (km_holder mx = Some c)) as [Hh|Hh];
    [|left; eexists; by eapply kmutex_unlock_not_holder].
  destruct (decide (tq_size (km_waitq mx) = 0)) as [Hsz|Hsz].
  { right; left. exists c, mx. eauto 10 using kmutex_unlock_free. }
  destruct (tq_list (km_waitq mx)) as [|t rest] eqn:Hl;
    [left; eexists; by eapply kmutex_unlock_empty_list|].
  destruct (threads s !! t) as [th|] eqn:Ht;
    [|left; by eapply kmutex_unlock_head_unallocated].
  destruct (decide (t = c)) as [->|Hne];
    [left; eexists; by eapply kmutex_unlock_head_self|].
  right; right. exists c, mx, t, rest, th.
  eauto 10 using kmutex_unlock_handoff.
Qed.

Section LockResume.
Variables (r : kstate) (mtx : mid).

Lemma lock_resume_Done c mx :
  curthr r = Some c -> mutexes r !! mtx = Some mx ->
  km_holder mx = Some c ->
  lock_resume mtx r = Done tt r.
Proof.
  intros Hc Hm Hh. unfold lock_resume. kdone curthr_and_Done.
  by rewrite Hh, ptr_eq_refl.
Qed.

Lemma lock_resume_cases :
  (lock_resume mtx r = Fault r
   /\ ~ (exists c mx, curthr r = Some c /\ mutexes r !! mtx = Some mx
                      /\ km_holder mx = Some c))
  \/ (exists c mx,
        curthr r = Some c /\ mutexes r !! mtx = Some mx
        /\ km_holder mx = Some c /\ lock_resume mtx r = Done tt r).
Proof.
  destruct (curthr r) as [c|] eqn:Hc.
  2:{ left. split; [|intros (?&?&?&?&?); congruence]. unfold lock_resume.
      by erewrite bind_Done by (by apply curthr_and_null). }
  destruct (mutexes r !! mtx) as [mx|] eqn:Hm.
  2:{ left. split; [|intros (?&?&?&?&?); congruence]. unfold lock_resume.
      by erewrite bind_Fault by (by eapply curthr_and_Fault). }
  destruct (decide (km_holder mx = Some c)) as [Hh|Hh].
  - right. exists c, mx. eauto using lock_resume_Done.
  - left. split; [|intros (?&?&?&?&?); congruence]. unfold lock_resume.
    kdone curthr_and_Done. by rewrite ptr_eq_false by congruence.
Qed.

Lemma lock_cancellable_resume_Fault :
  ~ (exists c mx, curthr r = Some c /\ mutexes r !! mtx = Some mx
                  /\ km_holder mx = Some c) ->
  lock_cancellable_resume mtx r = Fault r.
Proof.
  intros Hn. unfold lock_cancellable_resume.
  destruct (curthr r) as [c|] eqn:Hc.
  2:{ by erewrite bind_Done by (by apply curthr_and_null). }
  destruct (mutexes r !! mtx) as [mx|] eqn:Hm.
  2:{ by erewrite bind_Fault by (by eapply curthr_and_Fault). }
  kdone curthr_and_Done. rewrite ptr_eq_false; [done|].
  intros E. apply Hn. by exists c, mx.
Qed.

Variables (c : tid) (mx : kmutex).
Hypothesis Hc : curthr r = Some c.
Hypothesis Hm : mutexes r !! mtx = Some mx.
Hypothesis Hh : km_holder mx = Some c.

Lemma lock_cancellable_resume_unallocated :
  threads r !! c = None -> lock_cancellable_resume mtx r = Fault r.
Proof.
  intros Ht. unfold lock_cancellable_resume. kdone curthr_and_Done.
  rewrite Hh, ptr_eq_refl. unfold KASSERT at 1, read_curthr at 1.
  do 2 erewrite bind_Done by reflexivity. rewrite Hc.
  by erewrite bind_Fault by (by apply load_thr_Fault).
Qed.

Lemma lock_cancellable_resume_clear th :
  threads r !! c = Some th -> kt_cancelled th = 0 ->
  lock_cancellable_resume mtx r = Done 0 r.
Proof.
  intros Ht Hz. unfold lock_cancellable_resume. kdone curthr_and_Done.
  rewrite Hh, ptr_eq_refl. unfold KASSERT at 1, read_curthr at 1.
  do 2 erewrite bind_Done by reflexivity. rewrite Hc.
  kdone load_thr_Done. by rewrite Hz.
Qed.

Lemma lock_cancellable_resume_cancelled th :
  threads r !! c = Some th -> kt_cancelled th <> 0 ->
  lock_cancellable_resume mtx r
  = (kmutex_unlock mtx ;;; ret (- EINTR)) r.
Proof.
  intros Ht Hz. unfold lock_cancellable_resume. kdone curthr_and_Done.
  rewrite Hh, ptr_eq_refl. unfold KASSERT at 1, read_curthr at 1.
  do 2 erewrite bind_Done by reflexivity. rewrite Hc.
  kdone load_thr_Done.
  by destruct (Z.eqb_spec (kt_cancelled th) 0).
Qed.
End LockResume.

Section Lock.
Variables (s : kstate) (mtx : mid).

Lemma kmutex_lock_null : curthr s = None -> kmutex_lock mtx s = Fault s.
Proof.
  intros Hc. unfold kmutex_lock.
  by erewrite bind_Done by (by apply curthr_and_null).
Qed.

Lemma kmutex_lock_cancellable_null :
  curthr s = None -> kmutex_lock_cancellable mtx s = Fault s.
Proof.
  intros Hc. unfold kmutex_lock_cancellable.
  by erewrite bind_Done by (by apply curthr_and_null).
Qed.

Lemma kmutex_lock_unallocated c :
  curthr s = Some c -> mutexes s !! mtx = None ->
  kmutex_lock mtx s = Fault s.
Proof.
  intros Hc Hm. unfold kmutex_lock.
  by erewrite bind_Fault by (by eapply curthr_and_Fault).
Qed.

Lemma kmutex_lock_cancellable_unallocated c :
  curthr s = Some c -> mutexes s !! mtx = None ->
  kmutex_lock_cancellable mtx s = Fault s.
Proof.
  intros Hc Hm. unfold kmutex_lock_cancellable.
  by erewrite bind_Fault by (by eapply curthr_and_Fault).
Qed.

Variables (c : tid) (mx : kmutex).
Hypothesis Hc : curthr s = Some c.
Hypothesis Hm : mutexes s !! mtx = Some mx.

Lemma kmutex_lock_self :
  km_holder mx = Some c -> kmutex_lock mtx s = Fault s.
Proof.
  intros Hh. unfold kmutex_lock. kdone curthr_and_Done.
  by rewrite Hh, ptr_ne_refl.
Qed.

Lemma kmutex_lock_cancellable_self :
  km_holder mx = Some c -> kmutex_lock_cancellable mtx s = Fault s.
Proof.
  intros Hh. unfold kmutex_lock_cancellable. kdone curthr_and_Done.
  by rewrite Hh, ptr_ne_refl.
Qed.

Lemma kmutex_lock_free :
  km_holder mx = None ->
  kmutex_lock mtx s = Done tt (holder_set mtx mx (Some c) s).
Proof.
  intros Hh. unfold kmutex_lock. kdone curthr_and_Done.
  rewrite Hh, ptr_ne_neq by done. unfold KASSERT at 1.
  erewrite bind_Done by reflexivity.
  kdone read_km_holder_Done. rewrite Hh, ptr_eq_refl.
  erewrite (bind_Done (bind read_curthr _)); cycle 1.
  { unfold read_curthr. erewrite bind_Done by reflexivity.
    rewrite Hc. by apply update_mtx_Done. }
  fold (lock_resume mtx). eapply lock_resume_Done; [done|by kheap|done].
Qed.

Lemma kmutex_lock_cancellable_free :
  km_holder mx = None ->
  kmutex_lock_cancellable mtx s
  = lock_cancellable_resume mtx (holder_set mtx mx (Some c) s).
Proof.
  intros Hh. unfold kmutex_lock_cancellable. kdone curthr_and_Done.
  rewrite Hh, ptr_ne_neq by done. unfold KASSERT at 1.
  erewrite bind_Done by reflexivity.
  kdone read_km_holder_Done. rewrite Hh, ptr_eq_refl.
  erewrite (bind_Done (bind read_curthr _)); cycle 1.
  { unfold read_curthr. erewrite bind_Done by reflexivity.
    rewrite Hc. by apply update_mtx_Done. }
  reflexivity.
Qed.

Variable h : tid.
Hypothesis Hh : km_holder mx = Some h.
Hypothesis Hne : h <> c.

Lemma kmutex_lock_held_unallocated :
  threads s !! c = None -> kmutex_lock mtx s = Fault s.
Proof.
  intros Ht. unfold kmutex_lock. kdone curthr_and_Done.
  rewrite Hh, ptr_ne_neq by congruence. unfold KASSERT at 1.
  erewrite bind_Done by reflexivity.
  kdone read_km_holder_Done. rewrite Hh, ptr_eq_false by done.
  erewrite bind_Fault; [done|]. unfold read_curthr at 1.
  erewrite bind_Done by reflexivity. rewrite Hc.
  by erewrite bind_Fault by (by apply update_thr_Fault).
Qed.

Lemma kmutex_lock_cancellable_held_unallocated :
  threads s !! c = None -> kmutex_lock_cancellable mtx s = Fault s.
Proof.
  intros Ht. unfold kmutex_lock_cancellable. kdone curthr_and_Done.
  rewrite Hh, ptr_ne_neq by congruence. unfold KASSERT at 1.
  erewrite bind_Done by reflexivity.
  kdone read_km_holder_Done. rewrite Hh, ptr_eq_false by done.
  erewrite bind_Fault; [done|]. unfold read_curthr at 1.
  erewrite bind_Done by reflexivity. rewrite Hc.
  by erewrite bind_Fault by (by apply update_thr_Fault).
Qed.

Variable th : kthread.
Hypothesis Ht : threads s !! c = Some th.

Lemma block_on_mutex st :
  (cur <- read_curthr ;;
   update_thr cur (set_kt_state st) ;;;
   cur <- read_curthr ;;
   ktqueue_enqueue mtx cur ;;;
   sched_switch) s
  = Suspended (parked_state st mtx mx c th s) (fun r => Done tt r).
Proof.
  unfold read_curthr at 1. erewrite bind_Done by reflexivity. rewrite Hc.
  kdone update_thr_Done. unfold read_curthr at 1.
  erewrite bind_Done by reflexivity. knorm. rewrite Hc.
  erewrite bind_Done by (by eapply ktqueue_enqueue_Done; kheap).
  unfold sched_switch, parked_state. knorm. by rewrite Hc.
Qed.

Lemma kmutex_lock_held :
  kmutex_lock mtx s
  = Suspended (parked_state KT_SLEEP mtx mx c th s) (lock_resume mtx).
Proof.
  unfold kmutex_lock. kdone curthr_and_Done.
  rewrite Hh, ptr_ne_neq by congruence. unfold KASSERT at 1.
  erewrite bind_Done by reflexivity.
  kdone read_km_holder_Done. rewrite Hh, ptr_eq_false by done.
  erewrite bind_Suspended by apply block_on_mutex. reflexivity.
Qed.

Lemma kmutex_lock_cancellable_held :
  kmutex_lock_cancellable mtx s
  = Suspended (parked_state KT_SLEEP_CANCELLABLE mtx mx c th s)
              (lock_cancellable_resume mtx).
Proof.
  unfold kmutex_lock_cancellable. kdone curthr_and_Done.
  rewrite Hh, ptr_ne_neq by congruence. unfold KASSERT at 1.
  erewrite bind_Done by reflexivity.
  kdone read_km_holder_Done. rewrite Hh, ptr_eq_false by done.
  erewrite bind_Suspended by apply block_on_mutex. reflexivity.
Qed.
End Lock.

Lemma holder_of_Some mtx s t :
  holder_of mtx s = Some t
  <-> exists mx, mutexes s !! mtx = Some mx /\ km_holder mx = Some t.
Proof.
  unfold holder_of. destruct (mutexes s !! mtx) as [mx|]; split.
  - intros E. by exists mx.
  - by intros (? & [= <-] & ?).
  - done.
  - by intros (? & ? & ?).
Qed.

(** ** Unlocking a well-formed mutex *)

Lemma kmutex_init_Done (s : kstate) (mtx : mid) :
  kmutex_init mtx s
  = Done tt (set_mutexes (<[mtx := kmutex_initial]> (mutexes s)) s).
Proof. reflexivity. Qed.

Lemma kmutex_unlock_wf_nonempty s mtx c mx t rest :
  curthr s = Some c -> mutexes s !! mtx = Some mx ->
  km_holder mx = Some c -> mutex_wf s mx ->
  tq_list (km_waitq mx) = t :: rest ->
  exists th, threads s !! t = Some th /\ t <> c
    /\ kmutex_unlock mtx s = Done tt (handoff_state mtx mx t rest th s).
Proof.
  intros Hc Hm Hh [Hcount Hunl Hlive] Hl.
  destruct (Hlive t) as [th Ht]; [rewrite Hl; left|].
  assert (t <> c) as Hne.
  { intros ->. apply (Hunl c Hh). rewrite Hl. left. }
  exists th. split; [done|]. split; [done|].
  eapply kmutex_unlock_handoff; eauto.
  rewrite Hcount, Hl. cbn [length]. lia.
Qed.

Lemma kmutex_unlock_wf_empty s mtx c mx :
  curthr s = Some c -> mutexes s !! mtx = Some mx ->
  km_holder mx = Some c -> mutex_wf s mx ->
  tq_list (km_waitq mx) = [] ->
  kmutex_unlock mtx s = Done tt (holder_set mtx mx None s).
Proof.
  intros Hc Hm Hh [Hcount _ _] Hl.
  eapply kmutex_unlock_free; eauto. by rewrite Hcount, Hl.
Qed.

Lemma demo_waiting_wf : mutex_wf demo_contended demo_waiting.
Proof.
  split.
  - reflexivity.
  - intros h [= <-]. cbn. intros Hin.
    apply elem_of_cons in Hin as [?|Hin]; [done|].
    apply elem_of_cons in Hin as [?|Hin]; [done|].
    by apply elem_of_nil in Hin.
  - intros t Ht. cbn in Ht.
    apply elem_of_cons in Ht as [->|Ht]; [by eexists|].
    apply elem_of_cons in Ht as [->|Ht]; [by eexists|].
    by apply elem_of_nil in Ht.
Defined.

Lemma unlock_returns_wf mtx s c mx :
  curthr s = Some c -> mutexes s !! mtx = Some mx ->
  km_holder mx = Some c -> mutex_wf s mx ->
  exists s', kmutex_unlock mtx s = Done tt s'.
Proof.
  intros Hc Hm Hh Hwf. destruct (tq_list (km_waitq mx)) as [|t rest] eqn:Hl.
  - eexists. by eapply kmutex_unlock_wf_empty.
  - destruct (kmutex_unlock_wf_nonempty s mtx c mx t rest)
      as (th & _ & _ & E); try done. by eexists.
Qed.

(** ** Function-level properties *)

(** C1: when the caller holds a well-formed mutex, [kmutex_unlock] returns
    without parking; with an empty wait queue the holder becomes [NULL] and
    nothing else changes; with waiters [t :: rest] the head [t] becomes the
    holder in the same step, its state is [KT_RUN], it is appended to the run
    queue through [sched_make_runnable], the count drops by one and the
    remaining waiters [rest] keep their order. *)
Theorem unlock_releases_or_hands_off (s : kstate) (mtx : mid) (c : tid)
    (mx : kmutex) :
  curthr s = Some c ->
  mutexes s !! mtx = Some mx ->
  km_holder mx = Some c ->
  mutex_wf s mx ->
  match tq_list (km_waitq mx) with
  | [] =>
      exists s',
        kmutex_unlock mtx s = Done tt s'
        /\ mutexes s' !! mtx = Some (set_km_holder None mx)
        /\ threads s' = threads s
        /\ kt_runq s' = kt_runq s
        /\ klog s' = klog s
  | t :: rest =>
      exists th s' mx',
        threads s !! t = Some th
        /\ kmutex_unlock mtx s = Done tt s'
        /\ mutexes s' !! mtx = Some mx'
        /\ km_holder mx' = Some t
        /\ tq_list (km_waitq mx') = rest
        /\ tq_size (km_waitq mx') = tq_size (km_waitq mx) - 1
        /\ tq_size (km_waitq mx') = Z.of_nat (length rest)
        /\ threads s' = <[t := set_kt_state KT_RUN (set_kt_wchan None th)]>
                          (threads s)
        /\ kt_state <$> threads s' !! t = Some KT_RUN
        /\ kt_runq s' = kt_runq s ++ [t]
        /\ klog s' = klog s ++ [EvDequeue mtx t; EvMakeRunnable t]
  end.
Proof.
  intros Hc Hm Hh Hwf.
  destruct (tq_list (km_waitq mx)) as [|t rest] eqn:Hl.
  - eexists. split; [by eapply kmutex_unlock_wf_empty|].
    unfold holder_set. cbn. by rewrite lookup_insert_eq.
  - destruct (kmutex_unlock_wf_nonempty s mtx c mx t rest)
      as (th & Ht & Hne & Hrun); try done.
    exists th, (handoff_state mtx mx t rest th s). eexists.
    split; [done|]. split; [done|]. unfold handoff_state. cbn.
    rewrite !lookup_insert_eq. split; [done|]. cbn.
    repeat (split; [done|]).
    split; [rewrite (wf_count _ _ Hwf), Hl; cbn [length]; lia|].
    repeat (split; [done|]). by rewrite <- app_assoc.
Qed.

(** Instance of C1 on the contended example: thread 1 unlocks, thread 2
    becomes the holder and thread 3 stays queued. *)
Lemma unlock_releases_or_hands_off_witness :
  exists th s' mx',
    threads demo_contended !! 2%nat = Some th
    /\ kmutex_unlock 7%nat demo_contended = Done tt s'
    /\ mutexes s' !! 7%nat = Some mx'
    /\ km_holder mx' = Some 2%nat
    /\ tq_list (km_waitq mx') = [3%nat]
    /\ tq_size (km_waitq mx') = tq_size (km_waitq demo_waiting) - 1
    /\ tq_size (km_waitq mx') = Z.of_nat (length [3%nat])
    /\ threads s'
       = <[2%nat := set_kt_state KT_RUN (set_kt_wchan None th)]>
           (threads demo_contended)
    /\ kt_state <$> threads s' !! 2%nat = Some KT_RUN
    /\ kt_runq s' = kt_runq demo_contended ++ [2%nat]
    /\ klog s' = klog demo_contended
                 ++ [EvDequeue 7%nat 2%nat; EvMakeRunnable 2%nat].
Proof.
  exact (unlock_releases_or_hands_off demo_contended 7%nat 1%nat demo_waiting
           eq_refl eq_refl eq_refl demo_waiting_wf).
Defined.

(** C4: [kmutex_lock] on a free mutex by a valid current thread returns at
    once with the caller as holder: the outcome is [Done], not [Suspended],
    and neither the scheduler's run queue nor the log of queue and scheduler
    calls changes.  Only the holder field of the mutex is written. *)
Theorem lock_free_claims_synchronously (s : kstate) (mtx : mid) (c : tid)
    (mx : kmutex) :
  curthr s = Some c ->
  mutexes s !! mtx = Some mx ->
  km_holder mx = None ->
  exists s',
    kmutex_lock mtx s = Done tt s'
    /\ mutexes s' = <[mtx := set_km_holder (Some c) mx]> (mutexes s)
    /\ mutexes s' !! mtx = Some (set_km_holder (Some c) mx)
    /\ klog s' = klog s
    /\ kt_runq s' = kt_runq s
    /\ threads s' = threads s
    /\ curthr s' = curthr s.
Proof.
  intros Hc Hm Hh. exists (holder_set mtx mx (Some c) s).
  split; [by apply kmutex_lock_free|].
  unfold holder_set. cbn. by rewrite lookup_insert_eq.
Qed.

Lemma lock_free_claims_synchronously_witness :
  exists s',
    kmutex_lock 7%nat demo_free = Done tt s'
    /\ mutexes s'
       = <[7%nat := set_km_holder (Some 1%nat) kmutex_initial]>
           (mutexes demo_free)
    /\ mutexes s' !! 7%nat = Some (set_km_holder (Some 1%nat) kmutex_initial)
    /\ klog s' = klog demo_free
    /\ kt_runq s' = kt_runq demo_free
    /\ threads s' = threads demo_free
    /\ curthr s' = curthr demo_free.
Proof.
  exact (lock_free_claims_synchronously demo_free 7%nat 1%nat kmutex_initial
           eq_refl eq_refl eq_refl).
Defined.

(** C6: the precondition assertions catch the contract violations.  A lock
    or cancellable lock by the thread that already holds the mutex, and an
    unlock by a thread that does not hold it, halt the kernel in the very
    state in which the call was made: no field has been written. *)
Theorem contract_violations_halt (s : kstate) (mtx : mid) (c : tid)
    (mx : kmutex) :
  curthr s = Some c ->
  mutexes s !! mtx = Some mx ->
  (km_holder mx = Some c ->
     kmutex_lock mtx s = Fault s
     /\ kmutex_lock_cancellable mtx s = Fault s)
  /\ (km_holder mx <> Some c -> kmutex_unlock mtx s = Fault s).
Proof.
  intros Hc Hm. split.
  - intros Hh. split;
      [by eapply kmutex_lock_self | by eapply kmutex_lock_cancellable_self].
  - intros Hh. by eapply kmutex_unlock_not_holder.
Qed.

(** On the contended example thread 1 is the holder: its second lock halts;
    so does an unlock attempted by thread 2. *)
Lemma contract_violations_halt_witness :
  (kmutex_lock 7%nat demo_contended = Fault demo_contended
   /\ kmutex_lock_cancellable 7%nat demo_contended = Fault demo_contended)
  /\ kmutex_unlock 7%nat (set_curthr (Some 2%nat) demo_contended)
     = Fault (set_curthr (Some 2%nat) demo_contended).
Proof.
  split.
  - exact (proj1 (contract_violations_halt demo_contended 7%nat 1%nat
                    demo_waiting eq_refl eq_refl) eq_refl).
  - refine (proj2 (contract_violations_halt
                     (set_curthr (Some 2%nat) demo_contended) 7%nat 2%nat
                     demo_waiting eq_refl eq_refl) _).
    discriminate.
Defined.

(** C7: after [kmutex_unlock] returns to a caller that held the mutex and
    was not linked in its wait queue, the caller is not the holder: the new
    holder is [NULL] or a thread taken from the wait queue, which differs
    from the caller.  On a well-formed mutex the call does return. *)
Theorem unlock_caller_not_holder (s : kstate) (mtx : mid) (c : tid)
    (mx : kmutex) :
  curthr s = Some c ->
  mutexes s !! mtx = Some mx ->
  km_holder mx = Some c ->
  c ∉ tq_list (km_waitq mx) ->
  (forall s',
      kmutex_unlock mtx s = Done tt s' ->
      exists mx',
        mutexes s' !! mtx = Some mx'
        /\ km_holder mx' <> Some c
        /\ (km_holder mx' = None
            \/ exists t, km_holder mx' = Some t
                         /\ t ∈ tq_list (km_waitq mx) /\ t <> c))
  /\ (mutex_wf s mx -> exists s', kmutex_unlock mtx s = Done tt s').
Proof.
  intros Hc Hm Hh Hnin. split.
  - intros s' Hrun.
    destruct (kmutex_unlock_cases s mtx)
      as [[s1 E]|[(c1 & mx1 & ? & ? & ? & ? & E)
                 |(c1 & mx1 & t & rest & th & ? & ? & ? & ? & Hl & ? & ? & E)]];
      rewrite E in Hrun; [discriminate| |]; injection Hrun as <-;
      simplify_eq.
    + eexists. split; [unfold holder_set; cbn; apply lookup_insert_eq|].
      cbn. split; [done|by left].
    + eexists. split; [unfold handoff_state; cbn; apply lookup_insert_eq|].
      cbn. split; [congruence|]. right. exists t. rewrite Hl.
      split; [done|]. split; [left|done].
  - intros Hwf. destruct (tq_list (km_waitq mx)) as [|t rest] eqn:Hl.
    + eexists. by eapply kmutex_unlock_wf_empty.
    + destruct (kmutex_unlock_wf_nonempty s mtx c mx t rest)
        as (th & _ & _ & E); try done. by eexists.
Qed.

Lemma unlock_caller_not_holder_witness :
  (forall s',
      kmutex_unlock 7%nat demo_contended = Done tt s' ->
      exists mx',
        mutexes s' !! 7%nat = Some mx'
        /\ km_holder mx' <> Some 1%nat
        /\ (km_holder mx' = None
            \/ exists t, km_holder mx' = Some t
                         /\ t ∈ tq_list (km_waitq demo_waiting)
                         /\ t <> 1%nat))
  /\ (mutex_wf demo_contended demo_waiting ->
      exists s', kmutex_unlock 7%nat demo_contended = Done tt s').
Proof.
  refine (unlock_caller_not_holder demo_contended 7%nat 1%nat demo_waiting
            eq_refl eq_refl eq_refl _).
  exact (wf_holder_unlinked _ _ demo_waiting_wf 1%nat eq_refl).
Defined.

(** C8: on a mutex in its initial free state, the state [kmutex_init]
    produces (empty wait queue, count 0, no holder), [kmutex_lock] followed
    by [kmutex_unlock] by the same thread returns, and the whole kernel
    state, the mutex included, is what it was before the two calls; in
    between the caller is the holder. *)
Theorem lock_unlock_round_trip (s : kstate) (mtx : mid) (c : tid) :
  curthr s = Some c ->
  mutexes s !! mtx = Some kmutex_initial ->
  (kmutex_lock mtx ;;; kmutex_unlock mtx) s = Done tt s
  /\ kmutex_init mtx s = Done tt s
  /\ exists s1,
       kmutex_lock mtx s = Done tt s1
       /\ holder_of mtx s1 = Some c
       /\ kmutex_unlock mtx s1 = Done tt s.
Proof.
  intros Hc Hm.
  assert (kmutex_unlock mtx (holder_set mtx kmutex_initial (Some c) s)
          = Done tt s) as Hu.
  { erewrite kmutex_unlock_free;
      [| exact Hc | unfold holder_set; cbn; apply lookup_insert_eq | done..].
    unfold holder_set. cbn. rewrite insert_insert_eq.
    destruct s as [cur ts ms rq lg]. cbn in *. unfold set_mutexes. cbn.
    by rewrite (insert_id ms mtx kmutex_initial Hm). }
  split; [|split].
  - by erewrite bind_Done by (by eapply kmutex_lock_free).
  - rewrite kmutex_init_Done. destruct s as [cur ts ms rq lg]. cbn in *.
    unfold set_mutexes. cbn. by rewrite (insert_id ms mtx kmutex_initial Hm).
  - exists (holder_set mtx kmutex_initial (Some c) s).
    split; [by eapply kmutex_lock_free|]. split; [|done].
    unfold holder_of, holder_set. cbn. by rewrite lookup_insert_eq.
Qed.

Lemma lock_unlock_round_trip_witness :
  (kmutex_lock 7%nat ;;; kmutex_unlock 7%nat) demo_free = Done tt demo_free
  /\ kmutex_init 7%nat demo_free = Done tt demo_free
  /\ exists s1,
       kmutex_lock 7%nat demo_free = Done tt s1
       /\ holder_of 7%nat s1 = Some 1%nat
       /\ kmutex_unlock 7%nat s1 = Done tt demo_free.
Proof.
  exact (lock_unlock_round_trip demo_free 7%nat 1%nat eq_refl eq_refl).
Defined.

(** ** The cancellation flags are a frame of the mutex code *)

Lemma flags_kept_rebase {A} (r : Res A) s0 s1 :
  flags s1 = flags s0 -> flags_kept s1 r -> flags_kept s0 r.
Proof.
  intros E. destruct r as [a s|s|s k]; cbn; [congruence..|].
  intros [E' Hk]. split; [congruence|done].
Qed.

Lemma flags_kept_bind {A B} (r : Res A) (f : A -> M B) s0 :
  flags_kept s0 r -> (forall a, keeps_flags (f a)) ->
  flags_kept s0 (res_bind r f).
Proof.
  intros Hr Hf. revert s0 Hr.
  induction r as [a s|s|s k IH]; intros s0 Hr; cbn in *.
  - eapply flags_kept_rebase; [exact Hr|apply Hf].
  - done.
  - destruct Hr as [E Hk]. split; [done|]. intros r0. apply IH, Hk.
Qed.

Lemma keeps_flags_bind {A B} (m : M A) (f : A -> M B) :
  keeps_flags m -> (forall a, keeps_flags (f a)) -> keeps_flags (bind m f).
Proof. intros Hm Hf s. apply flags_kept_bind; [apply Hm|done]. Qed.

Lemma keeps_flags_if {A} (b : bool) (m1 m2 : M A) :
  keeps_flags m1 -> keeps_flags m2 -> keeps_flags (if b then m1 else m2).
Proof. by destruct b. Qed.

Lemma keeps_flags_ret {A} (a : A) : keeps_flags (ret a).
Proof. by intros s. Qed.

Lemma keeps_flags_halt {A} : keeps_flags (@halt A).
Proof. by intros s. Qed.

Lemma keeps_flags_read_curthr : keeps_flags read_curthr.
Proof. by intros s. Qed.

Lemma keeps_flags_KASSERT b : keeps_flags (KASSERT b).
Proof. intros s. unfold KASSERT. by destruct b. Qed.

Lemma keeps_flags_emit e : keeps_flags (emit e).
Proof. by intros s. Qed.

Lemma keeps_flags_load_thr p : keeps_flags (load_thr p).
Proof.
  intros s. unfold load_thr.
  destruct p as [t|]; [destruct (threads s !! t)|]; done.
Qed.

Lemma keeps_flags_load_mtx mtx : keeps_flags (load_mtx mtx).
Proof. intros s. unfold load_mtx. by destruct (mutexes s !! mtx). Qed.

Lemma keeps_flags_store_mtx mtx m : keeps_flags (store_mtx mtx m).
Proof. by intros s. Qed.

Lemma keeps_flags_sched_switch : keeps_flags sched_switch.
Proof. intros s. cbn. split; [done|]. by intros r0. Qed.

Lemma keeps_flags_sched_make_runnable p : keeps_flags (sched_make_runnable p).
Proof. intros s. unfold sched_make_runnable. by destruct p. Qed.

Lemma keeps_flags_update_thr p f :
  (forall th, kt_cancelled (f th) = kt_cancelled th) ->
  keeps_flags (update_thr p f).
Proof.
  intros Hf s. unfold update_thr, bind, load_thr.
  destruct p as [t|]; [|done].
  destruct (threads s !! t) as [th|] eqn:Ht; [|done].
  cbn. unfold flags. cbn. rewrite fmap_insert, Hf.
  apply insert_id. by rewrite lookup_fmap, Ht.
Qed.

Lemma keeps_flags_update_mtx mtx f : keeps_flags (update_mtx mtx f).
Proof.
  apply keeps_flags_bind; [apply keeps_flags_load_mtx|].
  intros m. apply keeps_flags_store_mtx.
Qed.

Lemma keeps_flags_read_km_holder mtx : keeps_flags (read_km_holder mtx).
Proof.
  apply keeps_flags_bind; [apply keeps_flags_load_mtx|].
  intros m. apply keeps_flags_ret.
Qed.

Lemma keeps_flags_read_tq_size mtx : keeps_flags (read_tq_size mtx).
Proof.
  apply keeps_flags_bind; [apply keeps_flags_load_mtx|].
  intros m. apply keeps_flags_ret.
Qed.

Create HintDb frame discriminated.
#[local] Hint Resolve keeps_flags_ret keeps_flags_halt keeps_flags_read_curthr
  keeps_flags_KASSERT keeps_flags_emit keeps_flags_load_thr
  keeps_flags_load_mtx keeps_flags_store_mtx keeps_flags_sched_switch
  keeps_flags_sched_make_runnable keeps_flags_update_mtx
  keeps_flags_read_km_holder keeps_flags_read_tq_size : frame.

(** The frame argument is by the shape of the code: split at each sequence
    and branch, and close the leaves with the primitives' lemmas. *)
Ltac frame :=
  repeat first
    [ solve [auto with frame]
    | apply keeps_flags_update_thr; intros []; reflexivity
    | apply keeps_flags_if
    | match goal with
      | |- keeps_flags (match ?x with _ => _ end) => destruct x
      end
    | apply keeps_flags_bind; [|intros ?] ].

Lemma keeps_flags_curthr_and mtx op : keeps_flags (curthr_and mtx op).
Proof. unfold curthr_and. frame. Qed.

Lemma keeps_flags_ktqueue_enqueue q thr : keeps_flags (ktqueue_enqueue q thr).
Proof. unfold ktqueue_enqueue. frame. Qed.

Lemma keeps_flags_ktqueue_dequeue q : keeps_flags (ktqueue_dequeue q).
Proof. unfold ktqueue_dequeue. frame. Qed.

#[local] Hint Resolve keeps_flags_curthr_and keeps_flags_ktqueue_enqueue
  keeps_flags_ktqueue_dequeue : frame.

Lemma keeps_flags_kmutex_init mtx : keeps_flags (kmutex_init mtx).
Proof. unfold kmutex_init. frame. Qed.

Lemma keeps_flags_kmutex_unlock mtx : keeps_flags (kmutex_unlock mtx).
Proof. unfold kmutex_unlock. frame. Qed.

#[local] Hint Resolve keeps_flags_kmutex_unlock : frame.

Lemma keeps_flags_kmutex_lock mtx : keeps_flags (kmutex_lock mtx).
Proof. unfold kmutex_lock. frame. Qed.

Lemma keeps_flags_kmutex_lock_cancellable mtx :
  keeps_flags (kmutex_lock_cancellable mtx).
Proof. unfold kmutex_lock_cancellable. frame. Qed.

Lemma keeps_flags_lock_resume mtx : keeps_flags (lock_resume mtx).
Proof. unfold lock_resume. frame. Qed.

Lemma keeps_flags_lock_cancellable_resume mtx :
  keeps_flags (lock_cancellable_resume mtx).
Proof. unfold lock_cancellable_resume. frame. Qed.

(** ** Case analysis of the lock functions *)

Lemma kmutex_lock_cases (s : kstate) (mtx : mid) :
  kmutex_lock mtx s = Fault s
  \/ (exists c mx,
        curthr s = Some c /\ mutexes s !! mtx = Some mx
        /\ km_holder mx = None
        /\ kmutex_lock mtx s = Done tt (holder_set mtx mx (Some c) s))
  \/ (exists c mx h th,
        curthr s = Some c /\ mutexes s !! mtx = Some mx
        /\ km_holder mx = Some h /\ h <> c /\ threads s !! c = Some th
        /\ kmutex_lock mtx s
           = Suspended (parked_state KT_SLEEP mtx mx c th s)
                       (lock_resume mtx)).
Proof.
  destruct (curthr s) as [c|] eqn:Hc;
    [|left; by apply kmutex_lock_null].
  destruct (mutexes s !! mtx) as [mx|] eqn:Hm;
    [|left; by eapply kmutex_lock_unallocated].
  destruct (km_holder mx) as [h|] eqn:Hh.
  2:{ right; left. exists c, mx. eauto using kmutex_lock_free. }
  destruct (decide (h = c)) as [->|Hne];
    [left; by eapply kmutex_lock_self|].
  destruct (threads s !! c) as [th|] eqn:Ht;
    [|left; by eapply kmutex_lock_held_unallocated].
  right; right. exists c, mx, h, th. eauto 10 using kmutex_lock_held.
Qed.

Lemma kmutex_lock_cancellable_cases (s : kstate) (mtx : mid) :
  (exists s', kmutex_lock_cancellable mtx s = Fault s')
  \/ (exists c mx,
        curthr s = Some c /\ mutexes s !! mtx = Some mx
        /\ km_holder mx = None
        /\ kmutex_lock_cancellable mtx s
           = lock_cancellable_resume mtx (holder_set mtx mx (Some c) s))
  \/ (exists c mx h th,
        curthr s = Some c /\ mutexes s !! mtx = Some mx
        /\ km_holder mx = Some h /\ h <> c /\ threads s !! c = Some th
        /\ kmutex_lock_cancellable mtx s
           = Suspended (parked_state KT_SLEEP_CANCELLABLE mtx mx c th s)
                       (lock_cancellable_resume mtx)).
Proof.
  destruct (curthr s) as [c|] eqn:Hc;
    [|left; eexists; by apply kmutex_lock_cancellable_null].
  destruct (mutexes s !! mtx) as [mx|] eqn:Hm;
    [|left; eexists; by eapply kmutex_lock_cancellable_unallocated].
  destruct (km_holder mx) as [h|] eqn:Hh.
  2:{ right; left. exists c, mx. eauto using kmutex_lock_cancellable_free. }
  destruct (decide (h = c)) as [->|Hne];
    [left; eexists; by eapply kmutex_lock_cancellable_self|].
  destruct (threads s !! c) as [th|] eqn:Ht;
    [|left; eexists; by eapply kmutex_lock_cancellable_held_unallocated].
  right; right. exists c, mx, h, th.
  eauto 10 using kmutex_lock_cancellable_held.
Qed.

Lemma lock_cancellable_resume_cases (r : kstate) (mtx : mid) :
  lock_cancellable_resume mtx r = Fault r
  \/ (exists c mx th,
        curthr r = Some c /\ mutexes r !! mtx = Some mx
        /\ km_holder mx = Some c /\ threads r !! c = Some th
        /\ kt_cancelled th = 0
        /\ lock_cancellable_resume mtx r = Done 0 r)
  \/ (exists c mx th,
        curthr r = Some c /\ mutexes r !! mtx = Some mx
        /\ km_holder mx = Some c /\ threads r !! c = Some th
        /\ kt_cancelled th <> 0
        /\ lock_cancellable_resume mtx r
           = (kmutex_unlock mtx ;;; ret (- EINTR)) r).
Proof.
  destruct (curthr r) as [c|] eqn:Hc.
  2:{ left. apply lock_cancellable_resume_Fault.
      intros (?&?&?&?&?); congruence. }
  destruct (mutexes r !! mtx) as [mx|] eqn:Hm.
  2:{ left. apply lock_cancellable_resume_Fault.
      intros (?&?&?&?&?); congruence. }
  destruct (decide (km_holder mx = Some c)) as [Hh|Hh].
  2:{ left. apply lock_cancellable_resume_Fault.
      intros (?&?&?&?&?); congruence. }
  destruct (threads r !! c) as [th|] eqn:Ht;
    [|left; by eapply lock_cancellable_resume_unallocated].
  destruct (decide (kt_cancelled th = 0)) as [Hz|Hz].
  - right; left. exists c, mx, th.
    eauto 10 using lock_cancellable_resume_clear.
  - right; right. exists c, mx, th.
    eauto 10 using lock_cancellable_resume_cancelled.
Qed.

(** ** Transitions of the invariant *)

Section Transitions.
Variables (mtx : mid) (mx : kmutex) (rq : list tid) (lg : list kevent).
Variables (P : gmap nat (call * (kstate -> Res Z))).
Variables (ow : tid -> bool) (sv : list tid).
Hypothesis Hinv : kinv mtx mx rq lg P ow sv.

Lemma kinv_ext ow' :
  (forall t, ow' t = ow t) -> kinv mtx mx rq lg P ow' sv.
Proof.
  intros E. destruct Hinv. split; try done.
  intros t Ht. rewrite E in Ht. auto.
Qed.

(** A thread that is not parked is not linked in the wait queue; if it
    is the holder, or if the mutex is free, the run queue is empty. *)
Lemma unparked_not_linked t :
  P !! t = None -> t ∉ tq_list (km_waitq mx).
Proof.
  intros Hp Hin. destruct (k_linked_parked _ _ _ _ _ _ _ Hinv t Hin).
  congruence.
Qed.

Lemma unparked_holder_runq t :
  P !! t = None -> km_holder mx = Some t -> rq = [].
Proof.
  intros Hp Hh. destruct (k_runq _ _ _ _ _ _ _ Hinv)
    as [->|(t' & -> & Hh' & [x Hx])]; [done|]. congruence.
Qed.

Lemma free_runq : km_holder mx = None -> rq = [].
Proof.
  intros Hh. destruct (k_runq _ _ _ _ _ _ _ Hinv)
    as [->|(t' & -> & Hh' & _)]; [done|congruence].
Qed.

(** The caller claims the free mutex. *)
Lemma kinv_claim t :
  P !! t = None -> km_holder mx = None ->
  kinv mtx (set_km_holder (Some t) mx) rq lg P (own_upd ow t true) sv.
Proof.
  intros Hp Hh. pose proof (free_runq Hh) as Hrq.
  destruct Hinv as [Hcount Hnd Hunl Hfe Hlp Hrunq Hpq Hk How Hfq Hfs].
  specialize (Hfe Hh). split; cbn; try done.
  - intros t' _. rewrite Hfe. apply not_elem_of_nil.
  - by left.
  - intros t'. unfold own_upd. destruct (decide (t = t')) as [<-|Hne].
    + done.
    + intros Ho. destruct (How t' Ho). congruence.
Qed.

(** The caller parks at the tail of the wait queue. *)
Lemma kinv_park t c k h ev :
  P !! t = None -> km_holder mx = Some h -> h <> t ->
  resumes_as mtx c k ->
  kinv mtx
    (mk_kmutex (mk_ktqueue (tq_list (km_waitq mx) ++ [t])
                           (tq_size (km_waitq mx) + 1))
               (km_holder mx))
    rq ((lg ++ [EvEnqueue mtx t]) ++ [EvSwitch ev])
    (<[t := (c, k)]> P) ow sv.
Proof.
  intros Hp Hh Hne Hres. pose proof (unparked_not_linked t Hp) as Hnl.
  destruct Hinv as [Hcount Hnd Hunl Hfe Hlp Hrunq Hpq Hk How Hfq Hfs].
  split; cbn.
  - rewrite length_app. cbn. lia.
  - apply NoDup_app. split; [done|]. split; [|apply NoDup_singleton].
    intros x Hx Hx'. apply list_elem_of_singleton in Hx'. by subst.
  - intros t' Ht' Hin. apply elem_of_app in Hin as [Hin|Hin].
    + by apply (Hunl t').
    + apply list_elem_of_singleton in Hin. congruence.
  - congruence.
  - intros t' Hin. apply elem_of_app in Hin as [Hin|Hin].
    + apply lookup_insert_is_Some'. right. auto.
    + apply list_elem_of_singleton in Hin as ->.
      rewrite lookup_insert_eq. by eexists.
  - destruct Hrunq as [->|(t' & -> & Hh' & Hs)]; [by left|right].
    exists t'. split; [done|]. split; [done|].
    apply lookup_insert_is_Some'. by right.
  - intros t' Hs. apply lookup_insert_is_Some' in Hs as [<-|Hs].
    + left. apply elem_of_app. right. by apply list_elem_of_singleton.
    + destruct (Hpq t' Hs); [left|by right]. apply elem_of_app. by left.
  - intros t' c' k' Hl. destruct (decide (t = t')) as [<-|Hne'].
    + rewrite lookup_insert_eq in Hl. by injection Hl as <- <-.
    + rewrite lookup_insert_ne in Hl by done. eauto.
  - intros t' Ho. destruct (How t' Ho) as [Hh' Hp']. split; [done|].
    rewrite lookup_insert_ne; [done|]. congruence.
  - unfold arrivals, grants in *. rewrite !omap_app. cbn.
    rewrite decide_True by done. cbn.
    rewrite !app_nil_r, Hfq. by rewrite app_assoc.
  - unfold grants in *. rewrite !omap_app. cbn. by rewrite !app_nil_r.
Qed.

Lemma own_upd_release t t' :
  km_holder mx = Some t -> own_upd ow t false t' = true -> False.
Proof.
  intros Hh. unfold own_upd. destruct (decide (t = t')) as [<-|Hne].
  - done.
  - intros Ho. destruct (k_owner _ _ _ _ _ _ _ Hinv t' Ho). congruence.
Qed.

(** The holder releases the mutex while nobody waits. *)
Lemma kinv_release_free t :
  P !! t = None -> km_holder mx = Some t -> tq_size (km_waitq mx) = 0 ->
  kinv mtx (set_km_holder None mx) rq lg P (own_upd ow t false) sv.
Proof.
  intros Hp Hh Hsz. pose proof (unparked_holder_runq t Hp Hh) as Hrq.
  pose proof (own_upd_release t) as Hrel.
  destruct Hinv as [Hcount Hnd Hunl Hfe Hlp Hrunq Hpq Hk How Hfq Hfs].
  split; cbn; try done.
  - intros _. apply length_zero_iff_nil. lia.
  - by left.
  - intros t' Ho. destruct (Hrel t' Hh Ho).
Qed.

(** The holder passes the mutex to the head of the wait queue. *)
Lemma kinv_release_handoff t t2 rest :
  P !! t = None -> km_holder mx = Some t ->
  tq_list (km_waitq mx) = t2 :: rest ->
  kinv mtx
    (mk_kmutex (mk_ktqueue rest (tq_size (km_waitq mx) - 1)) (Some t2))
    (rq ++ [t2]) ((lg ++ [EvDequeue mtx t2]) ++ [EvMakeRunnable t2])
    P (own_upd ow t false) sv.
Proof.
  intros Hp Hh Hl. pose proof (unparked_holder_runq t Hp Hh) as Hrq.
  pose proof (own_upd_release t) as Hrel.
  destruct Hinv as [Hcount Hnd Hunl Hfe Hlp Hrunq Hpq Hk How Hfq Hfs].
  rewrite Hl in *. apply NoDup_cons in Hnd as [Hnin Hnd]. subst rq.
  split; cbn; try done.
  - rewrite Hcount. cbn [length]. lia.
  - by intros t' [= <-].
  - intros t' Hin. apply Hlp. by right.
  - right. exists t2. split; [done|]. split; [done|]. apply Hlp. by left.
  - intros t' Hs. destruct (Hpq t' Hs) as [Hin|Hin].
    + apply elem_of_cons in Hin as [->|Hin]; [right; by left|by left].
    + by apply elem_of_nil in Hin.
  - intros t' Ho. destruct (Hrel t' Hh Ho).
  - unfold arrivals, grants in *. rewrite !omap_app. cbn.
    rewrite decide_True by done. cbn.
    rewrite !app_nil_r, Hfq. by rewrite <- app_assoc.
  - unfold grants in *. rewrite !omap_app. cbn.
    rewrite decide_True by done. cbn.
    rewrite !app_nil_r, Hfs. by rewrite app_nil_r.
Qed.

(** The scheduler switches back to a parked thread on the run queue: the
    thread is the holder. *)
Lemma kinv_resume t :
  is_Some (P !! t) -> t ∈ rq ->
  km_holder mx = Some t
  /\ remove_first t rq = []
  /\ kinv mtx mx [] lg (delete t P) (own_upd ow t true) (sv ++ [t]).
Proof.
  intros Hs Hin.
  destruct Hinv as [Hcount Hnd Hunl Hfe Hlp Hrunq Hpq Hk How Hfq Hfs].
  destruct Hrunq as [->|(t' & -> & Hh & _)];
    [by apply elem_of_nil in Hin|].
  apply list_elem_of_singleton in Hin as ->.
  split; [done|]. split; [cbn; by rewrite decide_True|].
  split; cbn; try done.
  - intros t Hin. rewrite lookup_delete_ne; [auto|].
    intros <-. by apply (Hunl t').
  - by left.
  - intros t Hst. apply lookup_delete_is_Some in Hst as [Hne Hst].
    destruct (Hpq t Hst) as [Hin|Hin]; [by left|].
    apply list_elem_of_singleton in Hin. congruence.
  - intros t c k Hlk. apply lookup_delete_Some in Hlk as [_ Hlk]. eauto.
  - intros t. unfold own_upd. destruct (decide (t' = t)) as [<-|Hne].
    + intros _. split; [done|]. apply lookup_delete_eq.
    + intros Ho. destruct (How t Ho). congruence.
  - by rewrite Hfs, app_nil_r.
Qed.
End Transitions.

(** ** The invariant holds along every run *)

Lemma owns_snoc t h e :
  owns t (h ++ [e])
  = if decide (r_thread e = t) then acquired e else owns t h.
Proof. unfold owns. by rewrite foldl_app. Qed.

Lemma served_snoc h e :
  served (h ++ [e])
  = served h ++ (if r_waited e then [r_thread e] else []).
Proof. unfold served. rewrite omap_app. cbn. by destruct (r_waited e). Qed.

(** Recording the return of thread [t] updates the owner predicate and the
    served list the way the transitions expect. *)
Lemma kinv_record mtx mx rq lg P h t c v w :
  kinv mtx mx rq lg P
       (own_upd (fun t' => owns t' h) t (acquired (mk_returned t c v w)))
       (served h ++ (if w then [t] else [])) ->
  kinv mtx mx rq lg P
       (fun t' => owns t' (h ++ [mk_returned t c v w]))
       (served (h ++ [mk_returned t c v w])).
Proof.
  intros H. rewrite served_snoc. cbn [r_waited r_thread].
  eapply kinv_ext; [exact H|]. intros t'. by rewrite owns_snoc.
Qed.

Section StepInvariant.
Variables (mtx : mid) (s : kstate) (mx : kmutex) (t : tid).
Variables (P : gmap nat (call * (kstate -> Res Z))).
Variables (ow : tid -> bool) (sv : list tid).
Hypothesis Hc : curthr s = Some t.
Hypothesis Hm : mutexes s !! mtx = Some mx.
Hypothesis Hp : P !! t = None.
Hypothesis Hinv : kinv mtx mx (kt_runq s) (klog s) P ow sv.

(** An unlock by a thread that is not parked either halts or returns in a
    state that satisfies the invariant with the caller no longer owner. *)
Lemma kmutex_unlock_kinv :
  (exists s', kmutex_unlock mtx s = Fault s')
  \/ (exists s' mx',
        kmutex_unlock mtx s = Done tt s'
        /\ km_holder mx = Some t
        /\ curthr s' = Some t
        /\ mutexes s' !! mtx = Some mx'
        /\ kinv mtx mx' (kt_runq s') (klog s') P (own_upd ow t false) sv).
Proof.
  destruct (kmutex_unlock_cases s mtx)
    as [?|[(c & mx1 & ? & ? & Hh & Hsz & ->)
          |(c & mx1 & t2 & rest & th & ? & ? & Hh & Hsz & Hl & ? & ? & ->)]];
    [by left|right; simplify_eq..].
  - eexists _, _. split; [done|]. split; [done|]. split; [done|].
    split; [unfold holder_set; cbn; apply lookup_insert_eq|].
    cbn. by apply kinv_release_free.
  - eexists _, _. split; [done|]. split; [done|]. split; [done|].
    split; [unfold handoff_state; cbn; apply lookup_insert_eq|].
    cbn. by eapply kinv_release_handoff.
Qed.

(** The tail of the cancellable lock, run by the thread that has just been
    given the mutex: it halts, returns 0 still owning the mutex, or
    returns [-EINTR] having given the mutex away. *)
Lemma lock_cancellable_resume_kinv :
  km_holder mx = Some t -> ow t = true ->
  (exists s', lock_cancellable_resume mtx s = Fault s')
  \/ (exists v s' mx',
        lock_cancellable_resume mtx s = Done v s'
        /\ (v = 0 \/ v = - EINTR)
        /\ mutexes s' !! mtx = Some mx'
        /\ kinv mtx mx' (kt_runq s') (klog s') P
                (own_upd ow t (bool_decide (v = 0))) sv).
Proof.
  intros Hh How.
  destruct (lock_cancellable_resume_cases s mtx)
    as [?|[(c & mx1 & th & ? & ? & ? & ? & ? & ->)
          |(c & mx1 & th & ? & ? & ? & ? & ? & ->)]];
    [left; by eexists| |]; simplify_eq.
  - right. exists 0, s, mx. split; [done|]. split; [by left|].
    split; [done|]. eapply kinv_ext; [exact Hinv|].
    intros t'. unfold own_upd. cbn. by destruct (decide (t = t')) as [<-|].
  - destruct kmutex_unlock_kinv as [[s' E]|(s' & mx' & E & _ & _ & ? & ?)].
    + left. exists s'. by erewrite bind_Fault.
    + right. exists (- EINTR), s', mx'.
      split; [by erewrite bind_Done|]. split; [by right|]. done.
Qed.
End StepInvariant.

Lemma own_upd_twice ow t b b' t' :
  own_upd ow t b' t' = own_upd (own_upd ow t b) t b' t'.
Proof. unfold own_upd. by destruct (decide (t = t')). Qed.

Lemma sys_step_inv mtx g e g' :
  sys_inv mtx g -> sys_step mtx g e = Some g' -> sys_inv mtx g'.
Proof.
  intros (mx & Hm & Hinv) Hstep. destruct e as [t c|t]; cbn in Hstep.
  - destruct (parked g !! t) eqn:Hp; [done|].
    set (s := set_curthr (Some t) (kern g)) in *.
    assert (curthr s = Some t) as Hc by done.
    assert (mutexes s !! mtx = Some mx) as Hm' by done.
    assert (kinv mtx mx (kt_runq s) (klog s) (parked g)
                 (fun t' => owns t' (history g)) (served (history g)))
      as Hinv' by done.
    destruct c; unfold run_call in Hstep.
    + destruct (kmutex_lock_cases s mtx)
        as [E|[(c & mx1 & ? & ? & Hh & E)
                   |(c & mx1 & h & th & ? & ? & Hh & Hne & Ht & E)]].
      * by erewrite bind_Fault in Hstep by exact E.
      * simplify_eq. erewrite bind_Done in Hstep by exact E.
        cbn in Hstep. injection Hstep as <-.
        exists (set_km_holder (Some t) mx).
        split; [cbn; apply lookup_insert_eq|].
        cbn. rewrite delete_id by done. apply kinv_record. cbn.
        rewrite app_nil_r. by apply kinv_claim.
      * simplify_eq. erewrite bind_Suspended in Hstep by exact E.
        cbn in Hstep. injection Hstep as <-. eexists.
        split; [cbn; apply lookup_insert_eq|].
        cbn. eapply kinv_park; try done.
    + destruct (kmutex_lock_cancellable_cases s mtx)
        as [[s' E]|[(c & mx1 & ? & ? & Hh & E)
                   |(c & mx1 & h & th & ? & ? & Hh & Hne & Ht & E)]].
      * by rewrite E in Hstep.
      * simplify_eq. rewrite E in Hstep.
        destruct (lock_cancellable_resume_kinv mtx
                    (holder_set mtx mx (Some t) s)
                    (set_km_holder (Some t) mx) t (parked g)
                    (own_upd (fun t' => owns t' (history g)) t true)
                    (served (history g)))
          as [[s' E']|(v & s' & mx' & E' & _ & Hm2 & Hinv2)]; try done.
        { cbn. apply lookup_insert_eq. }
        { cbn. by apply kinv_claim. }
        { unfold own_upd. by rewrite decide_True. }
        { by rewrite E' in Hstep. }
        rewrite E' in Hstep. cbn in Hstep. injection Hstep as <-.
        exists mx'. split; [done|]. cbn. rewrite delete_id by done.
        apply kinv_record. cbn. rewrite app_nil_r.
        eapply kinv_ext; [exact Hinv2|]. intros t'. apply own_upd_twice.
      * simplify_eq. rewrite E in Hstep.
        cbn in Hstep. injection Hstep as <-. eexists.
        split; [cbn; apply lookup_insert_eq|].
        cbn. eapply kinv_park; try done.
    + destruct (kmutex_unlock_kinv mtx s mx t (parked g) _ _ Hc Hm' Hp Hinv')
        as [[s' E]|(s' & mx' & E & _ & _ & Hm2 & Hinv2)].
      * by erewrite bind_Fault in Hstep by exact E.
      * erewrite bind_Done in Hstep by exact E.
        cbn in Hstep. injection Hstep as <-.
        exists mx'. split; [done|]. cbn. rewrite delete_id by done.
        apply kinv_record. cbn. by rewrite app_nil_r.
  - destruct (parked g !! t) as [[c k]|] eqn:Hp; [|done].
    unfold sched_dispatch in Hstep.
    destruct (bool_decide (t ∈ kt_runq (kern g))) eqn:Hin; [|done].
    apply bool_decide_eq_true in Hin.
    destruct (kinv_resume _ _ _ _ _ _ _ Hinv t) as (Hh & Hrf & Hinv');
      [by eexists|done|].
    rewrite Hrf in Hstep.
    set (r := set_curthr (Some t) (set_runq [] (kern g))) in *.
    pose proof (k_conts _ _ _ _ _ _ _ Hinv t c k Hp) as Hres.
    destruct c; cbn [resumes_as] in Hres; [| |done]; rewrite Hres in Hstep.
    + erewrite lock_resume_Done in Hstep; [|done..].
      cbn in Hstep. injection Hstep as <-.
      exists mx. split; [done|]. cbn. apply kinv_record. by cbn.
    + destruct (lock_cancellable_resume_kinv mtx r mx t
                  (delete t (parked g))
                  (own_upd (fun t' => owns t' (history g)) t true)
                  (served (history g) ++ [t]))
        as [[s' E']|(v & s' & mx' & E' & _ & Hm2 & Hinv2)]; try done.
      { apply lookup_delete_eq. }
      { unfold own_upd. by rewrite decide_True. }
      { by rewrite E' in Hstep. }
      rewrite E' in Hstep. cbn in Hstep. injection Hstep as <-.
      exists mx'. split; [done|]. cbn.
      apply kinv_record. cbn.
      eapply kinv_ext; [exact Hinv2|]. intros t'. apply own_upd_twice.
Qed.

Lemma sys_run_inv mtx es g g' :
  sys_inv mtx g -> sys_run mtx g es = Some g' -> sys_inv mtx g'.
Proof.
  revert g. induction es as [|e es IH]; intros g Hinv Hrun; cbn in Hrun.
  - by injection Hrun as <-.
  - destruct (sys_step mtx g e) as [g1|] eqn:Hstep; [|done].
    eauto using sys_step_inv.
Qed.

Lemma sys_initial_inv mtx g : sys_initial mtx g -> sys_inv mtx g.
Proof.
  intros [Hm Hrq Hlg Hp Hh]. exists kmutex_initial. split; [done|].
  rewrite Hrq, Hlg, Hp, Hh. split; cbn; try done.
  - apply NoDup_nil_2.
  - intros t Hin. by apply elem_of_nil in Hin.
  - by left.
  - intros t [x Hx]. by rewrite lookup_empty in Hx.
Qed.

Lemma demo_sys_initial : sys_initial 7%nat demo_sys.
Proof. by split. Defined.

Lemma demo_schedule_runs :
  sys_run 7%nat demo_sys demo_schedule = Some demo_final.
Proof. vm_compute. reflexivity. Defined.

(** ** Properties of all runs *)

(** On the example the arrival order is 2 then 3, thread 3 ends as owner and
    both blocked calls returned in arrival order. *)
Example demo_final_observed :
  arrivals 7%nat (klog (kern demo_final)) = [2%nat; 3%nat]
  /\ served (history demo_final) = [2%nat; 3%nat]
  /\ holder_of 7%nat (kern demo_final) = Some 3%nat
  /\ owns 3%nat (history demo_final) = true
  /\ owns 1%nat (history demo_final) = false
  /\ owns 2%nat (history demo_final) = false.
Proof. vm_compute. repeat split. Qed.

(** A thread parked in [kmutex_lock]: while it is not on the run queue the
    scheduler cannot switch to it, it is linked in the wait queue and is not
    the holder; once it is on the run queue it is the holder, the last
    thread [kmutex_unlock] dequeued, and switching to it makes its call
    return. *)
Lemma parked_lock_resumes_on_handoff mtx g0 es g t k :
  sys_initial mtx g0 ->
  sys_run mtx g0 es = Some g ->
  parked g !! t = Some (CLock, k) ->
  (t ∉ kt_runq (kern g) ->
     sys_step mtx g (Resume t) = None
     /\ t ∈ waiters_of mtx (kern g)
     /\ holder_of mtx (kern g) <> Some t)
  /\ (t ∈ kt_runq (kern g) ->
        holder_of mtx (kern g) = Some t
        /\ last (grants mtx (klog (kern g))) = Some t
        /\ exists g',
             sys_step mtx g (Resume t) = Some g'
             /\ holder_of mtx (kern g') = Some t
             /\ parked g' !! t = None
             /\ history g' = history g ++ [mk_returned t CLock 0 true]).
Proof.
  intros Hinit Hrun Hp.
  destruct (sys_run_inv mtx es g0 g (sys_initial_inv _ _ Hinit) Hrun)
    as (mx & Hm & Hinv).
  split; intros Hin.
  - split.
    { cbn. rewrite Hp. unfold sched_dispatch.
      by rewrite bool_decide_eq_false_2. }
    destruct (k_parked_queued _ _ _ _ _ _ _ Hinv t) as [Hl|];
      [by eexists| |done].
    unfold waiters_of, holder_of. rewrite Hm. split; [done|].
    intros Hh. by apply (k_holder_unlinked _ _ _ _ _ _ _ Hinv t).
  - pose proof (k_fifo_served _ _ _ _ _ _ _ Hinv) as Hfs.
    pose proof (k_conts _ _ _ _ _ _ _ Hinv t _ _ Hp) as Hres.
    cbn [resumes_as] in Hres.
    destruct (k_runq _ _ _ _ _ _ _ Hinv) as [E|(t' & E & Hh & _)];
      rewrite E in Hin; [by apply elem_of_nil in Hin|].
    apply list_elem_of_singleton in Hin as ->.
    split; [apply holder_of_Some; eauto|].
    split; [rewrite Hfs, E; apply last_snoc|].
    eexists. split.
    { cbn. rewrite Hp. unfold sched_dispatch.
      rewrite bool_decide_eq_true_2 by (rewrite E; left).
      rewrite Hres. erewrite lock_resume_Done; [reflexivity|done..]. }
    cbn. split; [apply holder_of_Some; eauto|].
    split; [apply lookup_delete_eq|done].
Qed.

(** C3: [kmutex_lock] on a mutex held by another thread parks the caller: its
    state is [KT_SLEEP], it is linked at the tail of the wait queue, and it
    yields through [sched_switch].  Its continuation returns exactly when the
    state it is resumed in has the running thread as holder, and otherwise
    halts; there is no other way out of the call.  In every run from a
    freshly initialised mutex the scheduler cannot switch to the parked
    caller before [kmutex_unlock] has dequeued it and made it holder, and
    switching to it then makes the call return with the caller as holder. *)
Theorem lock_held_parks_until_handoff (mtx : mid) (s : kstate) (c h : tid)
    (mx : kmutex) (th : kthread) :
  curthr s = Some c ->
  mutexes s !! mtx = Some mx ->
  km_holder mx = Some h ->
  h <> c ->
  threads s !! c = Some th ->
  exists s1 mx1 th1,
    kmutex_lock mtx s = Suspended s1 (lock_resume mtx)
    /\ threads s1 !! c = Some th1
    /\ kt_state th1 = KT_SLEEP
    /\ kt_wchan th1 = Some mtx
    /\ mutexes s1 !! mtx = Some mx1
    /\ tq_list (km_waitq mx1) = tq_list (km_waitq mx) ++ [c]
    /\ tq_size (km_waitq mx1) = tq_size (km_waitq mx) + 1
    /\ km_holder mx1 = Some h
    /\ klog s1 = klog s ++ [EvEnqueue mtx c; EvSwitch (Some c)]
    /\ kt_runq s1 = kt_runq s
    /\ (forall r,
          curthr r = Some c -> holder_of mtx r = Some c ->
          lock_resume mtx r = Done tt r)
    /\ (forall r,
          lock_resume mtx r = Fault r
          \/ (lock_resume mtx r = Done tt r
              /\ curthr r <> None /\ holder_of mtx r = curthr r))
    /\ (forall g0 es g k,
          sys_initial mtx g0 ->
          sys_run mtx g0 es = Some g ->
          parked g !! c = Some (CLock, k) ->
          (c ∉ kt_runq (kern g) ->
             sys_step mtx g (Resume c) = None
             /\ c ∈ waiters_of mtx (kern g)
             /\ holder_of mtx (kern g) <> Some c)
          /\ (c ∈ kt_runq (kern g) ->
                holder_of mtx (kern g) = Some c
                /\ last (grants mtx (klog (kern g))) = Some c
                /\ exists g',
                     sys_step mtx g (Resume c) = Some g'
                     /\ holder_of mtx (kern g') = Some c
                     /\ parked g' !! c = None
                     /\ history g'
                        = history g ++ [mk_returned c CLock 0 true])).
Proof.
  intros Hc Hm Hh Hne Ht.
  eexists (parked_state KT_SLEEP mtx mx c th s), _, _.
  split; [by eapply kmutex_lock_held|].
  unfold parked_state. cbn. rewrite !lookup_insert_eq.
  split; [done|]. cbn. do 2 (split; [done|]).
  split; [done|]. cbn. do 3 (split; [done|]).
  split; [by rewrite Hc, <- app_assoc|]. split; [done|].
  split; [|split].
  - intros r Hcr Hhr. apply holder_of_Some in Hhr as (mr & ? & ?).
    by eapply lock_resume_Done.
  - intros r. destruct (lock_resume_cases r mtx)
      as [[E _]|(c' & mr & Hc' & Hm' & Hh' & E)]; [by left|right].
    split; [done|]. rewrite Hc'. split; [done|].
    apply holder_of_Some. eauto.
  - intros g0 es g k. apply parked_lock_resumes_on_handoff.
Qed.

Lemma lock_held_parks_until_handoff_witness :
  exists s1,
    kmutex_lock 7%nat demo_held = Suspended s1 (lock_resume 7%nat)
    /\ waiters_of 7%nat s1 = [2%nat]
    /\ holder_of 7%nat s1 = Some 1%nat
    /\ kt_state <$> threads s1 !! 2%nat = Some KT_SLEEP
    /\ klog s1 = [EvEnqueue 7%nat 2%nat; EvSwitch (Some 2%nat)].
Proof.
  destruct (lock_held_parks_until_handoff 7%nat demo_held 2%nat 1%nat
              (mk_kmutex (mk_ktqueue [] 0) (Some 1%nat)) demo_thread
              eq_refl eq_refl eq_refl ltac:(discriminate) eq_refl)
    as (s1 & mx1 & th1 & E & Ht & Hst & _ & Hm & Hl & _ & Hh & Hlog & _).
  exists s1. split; [exact E|]. unfold waiters_of, holder_of.
  rewrite Hm, Hl, Ht, Hh, Hlog. cbn. rewrite Hst. repeat split.
Defined.

(** On the example schedule thread 2 cannot be switched to while thread 1
    still holds the mutex, and can be once thread 1 has unlocked. *)
Example demo_no_resume_before_handoff :
  sys_run 7%nat demo_sys (take 3 demo_schedule ++ [Resume 2%nat]) = None
  /\ is_Some (sys_run 7%nat demo_sys (take 4 demo_schedule ++ [Resume 2%nat])).
Proof. split; [by vm_compute|]. vm_compute. by eexists. Qed.

(** ** The cancellable lock *)

Lemma kmutex_unlock_Done mtx s s' :
  kmutex_unlock mtx s = Done tt s' ->
  exists c, curthr s = Some c /\ curthr s' = Some c
            /\ holder_of mtx s = Some c
            /\ holder_of mtx s' <> Some c.
Proof.
  intros Hrun.
  destruct (kmutex_unlock_cases s mtx)
    as [[s1 E]|[(c & mx & Hc & Hm & Hh & Hsz & E)
               |(c & mx & t & rest & th & Hc & Hm & Hh & _ & _ & _ & Hne & E)]];
    rewrite E in Hrun; [done|..]; injection Hrun as <-;
    exists c; (split; [done|]); (split; [done|]);
    (split; [apply holder_of_Some; eauto|]); unfold holder_of; cbn;
    rewrite lookup_insert_eq; cbn; congruence.
Qed.

(** Whatever state its tail runs in, a cancellable lock that returns reports
    0 with the running thread, whose flag is clear, as holder and the state
    untouched, or [-EINTR] with the running thread, whose flag is set, no
    longer the holder. *)
Lemma lock_cancellable_resume_Done_inv mtx r v r' :
  lock_cancellable_resume mtx r = Done v r' ->
  exists c tr,
    curthr r = Some c /\ threads r !! c = Some tr
    /\ holder_of mtx r = Some c
    /\ ((kt_cancelled tr = 0 /\ v = 0 /\ r' = r)
        \/ (kt_cancelled tr <> 0 /\ v = - EINTR
            /\ holder_of mtx r' <> Some c
            /\ kmutex_unlock mtx r = Done tt r')).
Proof.
  intros Hrun.
  destruct (lock_cancellable_resume_cases r mtx)
    as [E|[(c & mx & th & Hc & Hm & Hh & Ht & Hz & E)
          |(c & mx & th & Hc & Hm & Hh & Ht & Hz & E)]];
    rewrite E in Hrun; [done|..]; exists c, th;
    (split; [done|]); (split; [done|]);
    (split; [apply holder_of_Some; eauto|]).
  - left. by injection Hrun as <- <-.
  - right. unfold bind in Hrun.
    destruct (kmutex_unlock mtx r) as [[] s1|s1|s1 k] eqn:Hu; cbn in Hrun;
      [|done..]. injection Hrun as <- <-.
    destruct (kmutex_unlock_Done _ _ _ Hu) as (c' & ? & _ & _ & ?).
    by simplify_eq.
Qed.

(** C2: [kmutex_lock_cancellable], called by a live thread that does not
    hold the mutex, claims a free mutex or parks on a held one exactly as
    [kmutex_lock] does, except that the parked caller's state is
    [KT_SLEEP_CANCELLABLE].  Once the caller runs again as holder (at once
    after the claim, or after a hand-off), a clear [kt_cancelled] flag makes
    the call return 0 with the caller as holder; a set flag makes it run
    [kmutex_unlock] and then return [-EINTR], so that whenever [-EINTR] is
    returned the caller is not the holder.  On a well-formed mutex the
    unlock, and with it the call, does return. *)
Theorem lock_cancellable_protocol (mtx : mid) (s : kstate) (c : tid)
    (mx : kmutex) (th : kthread) :
  curthr s = Some c ->
  mutexes s !! mtx = Some mx ->
  km_holder mx <> Some c ->
  threads s !! c = Some th ->
  match km_holder mx with
  | None =>
      kmutex_lock mtx s = Done tt (holder_set mtx mx (Some c) s)
      /\ kmutex_lock_cancellable mtx s
         = lock_cancellable_resume mtx (holder_set mtx mx (Some c) s)
  | Some _ =>
      kmutex_lock mtx s
      = Suspended (parked_state KT_SLEEP mtx mx c th s) (lock_resume mtx)
      /\ kmutex_lock_cancellable mtx s
         = Suspended (parked_state KT_SLEEP_CANCELLABLE mtx mx c th s)
                     (lock_cancellable_resume mtx)
  end
  /\ (forall r mr tr,
        curthr r = Some c -> mutexes r !! mtx = Some mr ->
        km_holder mr = Some c -> threads r !! c = Some tr ->
        if decide (kt_cancelled tr = 0)
        then lock_cancellable_resume mtx r = Done 0 r
        else lock_cancellable_resume mtx r
             = (kmutex_unlock mtx ;;; ret (- EINTR)) r
             /\ (mutex_wf r mr ->
                 exists r',
                   kmutex_unlock mtx r = Done tt r'
                   /\ lock_cancellable_resume mtx r = Done (- EINTR) r'
                   /\ holder_of mtx r' <> Some c))
  /\ (forall r v r',
        curthr r = Some c ->
        lock_cancellable_resume mtx r = Done v r' ->
        (v = 0 /\ r' = r /\ holder_of mtx r' = Some c
         /\ kt_cancelled <$> threads r !! c = Some 0)
        \/ (v = - EINTR /\ holder_of mtx r' <> Some c
            /\ kmutex_unlock mtx r = Done tt r'
            /\ exists z, kt_cancelled <$> threads r !! c = Some z /\ z <> 0)).
Proof.
  intros Hc Hm Hh Ht. split; [|split].
  - destruct (km_holder mx) as [h|] eqn:Hh'.
    + assert (h <> c) by congruence.
      split; [by eapply kmutex_lock_held
             |by eapply kmutex_lock_cancellable_held].
    + split; [by eapply kmutex_lock_free
             |by eapply kmutex_lock_cancellable_free].
  - intros r mr tr Hcr Hmr Hhr Htr.
    destruct (decide (kt_cancelled tr = 0)) as [Hz|Hz].
    + by eapply lock_cancellable_resume_clear.
    + assert (lock_cancellable_resume mtx r
              = (kmutex_unlock mtx ;;; ret (- EINTR)) r) as E
        by (by eapply lock_cancellable_resume_cancelled).
      split; [done|]. intros Hwf.
      destruct (unlock_returns_wf mtx r c mr Hcr Hmr Hhr Hwf) as [r' Hu].
      exists r'. split; [done|]. rewrite E.
      split; [by erewrite bind_Done|].
      destruct (kmutex_unlock_Done _ _ _ Hu) as (c' & ? & _ & _ & ?).
      by simplify_eq.
  - intros r v r' Hcr Hrun.
    destruct (lock_cancellable_resume_Done_inv _ _ _ _ Hrun)
      as (c' & tr & ? & Htr & Hhr & [(Hz & -> & ->)|(Hz & -> & Hn & Hu)]);
      simplify_eq.
    + left. rewrite Htr. cbn. by rewrite Hz.
    + right. split; [done|]. split; [done|]. split; [done|].
      exists (kt_cancelled tr). by rewrite Htr.
Qed.

(** Instance of C2: the cancelled thread 3 calls the cancellable lock while
    thread 1 holds the mutex. *)
Lemma lock_cancellable_protocol_witness :
  kmutex_lock 7%nat (set_curthr (Some 3%nat) demo_held)
  = Suspended
      (parked_state KT_SLEEP 7%nat
         (mk_kmutex (mk_ktqueue [] 0) (Some 1%nat)) 3%nat
         (set_kt_cancelled 1 demo_thread) (set_curthr (Some 3%nat) demo_held))
      (lock_resume 7%nat)
  /\ kmutex_lock_cancellable 7%nat (set_curthr (Some 3%nat) demo_held)
     = Suspended
         (parked_state KT_SLEEP_CANCELLABLE 7%nat
            (mk_kmutex (mk_ktqueue [] 0) (Some 1%nat)) 3%nat
            (set_kt_cancelled 1 demo_thread)
            (set_curthr (Some 3%nat) demo_held))
         (lock_cancellable_resume 7%nat).
Proof.
  exact (proj1 (lock_cancellable_protocol 7%nat
                  (set_curthr (Some 3%nat) demo_held) 3%nat
                  (mk_kmutex (mk_ktqueue [] 0) (Some 1%nat))
                  (set_kt_cancelled 1 demo_thread)
                  eq_refl eq_refl ltac:(discriminate) eq_refl)).
Defined.

(** The cancelled thread 3 on the free mutex: the claim is undone and the
    call reports [-EINTR]; thread 2, not cancelled, gets 0 and the mutex. *)
Example demo_cancelled_claim :
  kmutex_lock_cancellable 7%nat (set_curthr (Some 3%nat) demo_free)
  = Done (- EINTR) (set_curthr (Some 3%nat) demo_free)
  /\ kmutex_lock_cancellable 7%nat (set_curthr (Some 2%nat) demo_free)
     = Done 0 (holder_set 7%nat kmutex_initial (Some 2%nat)
                 (set_curthr (Some 2%nat) demo_free)).
Proof. split; vm_compute; reflexivity. Qed.

(** ** The cancellation flag along calls and runs *)

Lemma flags_lookup s t :
  flags s !! t = kt_cancelled <$> threads s !! t.
Proof. unfold flags. apply lookup_fmap. Qed.

Lemma lock_cancellable_resume_flagged mtx r v r' c z :
  curthr r = Some c -> flags r !! c = Some z -> z <> 0 ->
  lock_cancellable_resume mtx r = Done v r' ->
  v = - EINTR /\ flags r' = flags r.
Proof.
  intros Hc Hf Hz Hrun.
  pose proof (keeps_flags_lock_cancellable_resume mtx r) as Hk.
  rewrite Hrun in Hk. cbn in Hk. split; [|done].
  destruct (lock_cancellable_resume_Done_inv _ _ _ _ Hrun)
    as (c' & tr & ? & Htr & _ & [(Hz' & _)|(_ & -> & _)]); [|done].
  simplify_eq. rewrite flags_lookup, Htr in Hf. cbn in Hf. congruence.
Qed.

Lemma kmutex_lock_cancellable_flagged mtx s v s' c z :
  curthr s = Some c -> flags s !! c = Some z -> z <> 0 ->
  kmutex_lock_cancellable mtx s = Done v s' ->
  v = - EINTR /\ flags s' = flags s.
Proof.
  intros Hc Hf Hz Hrun.
  destruct (kmutex_lock_cancellable_cases s mtx)
    as [[s1 E]|[(c' & mx & ? & ? & Hh & E)
               |(c' & mx & h & th & ? & ? & Hh & Hne & Ht & E)]];
    rewrite E in Hrun; [done| |done].
  simplify_eq.
  by apply (lock_cancellable_resume_flagged mtx _ v s' c z) in Hrun.
Qed.

Lemma keeps_flags_run_call mtx c : keeps_flags (run_call mtx c).
Proof.
  destruct c; cbn.
  - apply keeps_flags_bind; [apply keeps_flags_kmutex_lock|].
    intros _. apply keeps_flags_ret.
  - apply keeps_flags_kmutex_lock_cancellable.
  - apply keeps_flags_bind; [apply keeps_flags_kmutex_unlock|].
    intros _. apply keeps_flags_ret.
Qed.

Lemma settle_flags {t c w r g g'} s0 :
  flags_kept s0 r -> settle t c w r g = Some g' ->
  flags (kern g') = flags s0.
Proof.
  destruct r as [v s|s|s k]; cbn; [|done|]; intros H [= <-]; cbn; tauto.
Qed.

Lemma sys_step_flags mtx g e g' :
  sys_inv mtx g -> sys_step mtx g e = Some g' ->
  flags (kern g') = flags (kern g).
Proof.
  intros (mx & Hm & Hinv) Hstep. destruct e as [t c|t]; cbn in Hstep.
  - destruct (parked g !! t); [done|].
    by rewrite (settle_flags _ (keeps_flags_run_call mtx c _) Hstep).
  - destruct (parked g !! t) as [[c k]|] eqn:Hp; [|done].
    unfold sched_dispatch in Hstep.
    destruct (bool_decide (t ∈ kt_runq (kern g))); [|done].
    pose proof (k_conts _ _ _ _ _ _ _ Hinv t c k Hp) as Hres.
    assert (forall r, flags_kept r (k r)) as Hk.
    { intros r. destruct c; cbn [resumes_as] in Hres; [| |done];
        rewrite Hres.
      - apply flags_kept_bind; [apply keeps_flags_lock_resume|].
        intros _. apply keeps_flags_ret.
      - apply keeps_flags_lock_cancellable_resume. }
    by rewrite (settle_flags _ (Hk _) Hstep).
Qed.

Lemma settle_interrupted {t c w r g g'} t0 :
  (forall v s', r = Done v s' -> t = t0 -> c = CLockCancellable ->
                v = - EINTR) ->
  settle t c w r g = Some g' ->
  always_interrupted t0 (history g) -> always_interrupted t0 (history g').
Proof.
  unfold always_interrupted.
  destruct r as [v s|s|s k]; cbn; [|done|]; intros H [= <-] Hall; cbn;
    [|done].
  apply Forall_app. split; [done|]. apply Forall_singleton. cbn. eauto.
Qed.

Lemma sys_step_interrupted mtx g e g' t z :
  sys_inv mtx g -> flags (kern g) !! t = Some z -> z <> 0 ->
  sys_step mtx g e = Some g' ->
  always_interrupted t (history g) -> always_interrupted t (history g').
Proof.
  intros (mx & Hm & Hinv) Hf Hz Hstep. destruct e as [t' c|t']; cbn in Hstep.
  - destruct (parked g !! t'); [done|].
    intros Hall. eapply (settle_interrupted t); [|exact Hstep|exact Hall].
    intros v s' E -> ->. cbn [run_call] in E.
    by apply (kmutex_lock_cancellable_flagged _ _ _ _ t z) in E as [-> _].
  - destruct (parked g !! t') as [[c k]|] eqn:Hp; [|done].
    unfold sched_dispatch in Hstep.
    destruct (bool_decide (t' ∈ kt_runq (kern g))); [|done].
    pose proof (k_conts _ _ _ _ _ _ _ Hinv t' c k Hp) as Hres.
    intros Hall. eapply (settle_interrupted t); [|exact Hstep|exact Hall].
    intros v s' E -> ->. cbn [resumes_as] in Hres. rewrite Hres in E.
    by apply (lock_cancellable_resume_flagged _ _ _ _ t z) in E as [-> _].
Qed.

Lemma sys_run_flags mtx es g g' t z :
  sys_inv mtx g -> sys_run mtx g es = Some g' ->
  flags (kern g') = flags (kern g)
  /\ (flags (kern g) !! t = Some z -> z <> 0 ->
      always_interrupted t (history g) ->
      always_interrupted t (history g')).
Proof.
  revert g. induction es as [|e es IH]; intros g Hinv Hrun; cbn in Hrun.
  - by injection Hrun as <-.
  - destruct (sys_step mtx g e) as [g1|] eqn:Hstep; [|done].
    pose proof (sys_step_inv _ _ _ _ Hinv Hstep) as Hinv1.
    pose proof (sys_step_flags _ _ _ _ Hinv Hstep) as Hfl.
    destruct (IH g1 Hinv1 Hrun) as [Hfl' Hint]. split; [congruence|].
    intros Hf Hz Hall. apply Hint; [congruence|done|].
    exact (sys_step_interrupted _ _ _ _ _ _ Hinv Hf Hz Hstep Hall).
Qed.

(** C9: none of [kmutex_init], [kmutex_lock], [kmutex_lock_cancellable] and
    [kmutex_unlock] writes a [kt_cancelled] field: in every stretch of their
    execution, whether it ends in a return, a park or a halt, the flags of
    all threads are what they were when the stretch began.  Therefore a
    cancellable lock by a thread whose flag is set never reports success and
    leaves the flag set, and along every run of mutex calls from a freshly
    initialised mutex the flags stay what they were and every cancellable
    lock completed by a thread whose flag was set reported [-EINTR]. *)
Theorem cancelled_flag_is_never_written (mtx : mid) :
  keeps_flags (kmutex_init mtx)
  /\ keeps_flags (kmutex_lock mtx)
  /\ keeps_flags (kmutex_lock_cancellable mtx)
  /\ keeps_flags (kmutex_unlock mtx)
  /\ keeps_flags (lock_resume mtx)
  /\ keeps_flags (lock_cancellable_resume mtx)
  /\ (forall s c z v s',
        curthr s = Some c -> flags s !! c = Some z -> z <> 0 ->
        kmutex_lock_cancellable mtx s = Done v s'
        \/ lock_cancellable_resume mtx s = Done v s' ->
        v = - EINTR /\ flags s' !! c = Some z)
  /\ (forall g0 es g,
        sys_initial mtx g0 -> sys_run mtx g0 es = Some g ->
        flags (kern g) = flags (kern g0)
        /\ forall t z,
             flags (kern g0) !! t = Some z -> z <> 0 ->
             always_interrupted t (history g)).
Proof.
  split; [apply keeps_flags_kmutex_init|].
  split; [apply keeps_flags_kmutex_lock|].
  split; [apply keeps_flags_kmutex_lock_cancellable|].
  split; [apply keeps_flags_kmutex_unlock|].
  split; [apply keeps_flags_lock_resume|].
  split; [apply keeps_flags_lock_cancellable_resume|].
  split.
  - intros s c z v s' Hc Hf Hz [E|E].
    + apply (kmutex_lock_cancellable_flagged _ _ _ _ c z) in E
        as [-> ->]; done.
    + apply (lock_cancellable_resume_flagged _ _ _ _ c z) in E
        as [-> ->]; done.
  - intros g0 es g Hinit Hrun.
    pose proof (sys_initial_inv _ _ Hinit) as Hinv.
    split; [by eapply (sys_run_flags mtx es g0 g 0%nat 0)|].
    intros t z Hf Hz.
    eapply (sys_run_flags mtx es g0 g t z); try done.
    rewrite (init_history _ _ Hinit). apply Forall_nil_2.
Qed.

(** Thread 3 of the example is cancelled before it first calls the
    cancellable lock: it parks, is handed the mutex, gives it back and
    reports [-EINTR]; a second call on the now free mutex reports [-EINTR]
    again, and the flag is still set. *)
Example demo_interrupted_again :
  (history <$>
     sys_run 7%nat demo_sys
       [Call 1%nat CLock; Call 3%nat CLockCancellable; Call 1%nat CUnlock;
        Resume 3%nat; Call 3%nat CLockCancellable])
  = Some [mk_returned 1%nat CLock 0 false;
          mk_returned 1%nat CUnlock 0 false;
          mk_returned 3%nat CLockCancellable (- EINTR) true;
          mk_returned 3%nat CLockCancellable (- EINTR) false]
  /\ ((fun g => flags (kern g) !! 3%nat) <$>
        sys_run 7%nat demo_sys
          [Call 1%nat CLock; Call 3%nat CLockCancellable; Call 1%nat CUnlock;
           Resume 3%nat; Call 3%nat CLockCancellable])
     = Some (Some 1).
Proof. split; vm_compute; reflexivity. Qed.

(** ** The plain lock does not look at the cancellation flag *)

Lemma lock_resume_with_flag mtx t z r :
  lock_resume mtx (with_flag t z r)
  = res_in (with_flag t z) (lock_resume mtx r).
Proof.
  destruct (lock_resume_cases r mtx)
    as [[E Hn]|(c & mx & Hc & Hm & Hh & E)]; rewrite E; cbn [res_in].
  - destruct (lock_resume_cases (with_flag t z r) mtx)
      as [[E' _]|(c & mx & Hc & Hm & Hh & _)]; [done|].
    destruct Hn. eauto.
  - by apply (lock_resume_Done _ _ c mx).
Qed.

Lemma parked_state_with_flag st mtx mx c th t z s :
  threads s !! c = Some th ->
  exists th',
    threads (with_flag t z s) !! c = Some th'
    /\ parked_state st mtx mx c th' (with_flag t z s)
       = with_flag t z (parked_state st mtx mx c th s).
Proof.
  intros Ht. unfold parked_state, with_flag. cbn.
  destruct (decide (t = c)) as [->|Hne].
  - exists (set_kt_cancelled z th).
    split; [by rewrite lookup_alter_eq, Ht|].
    unfold set_threads. cbn. f_equal.
    by rewrite insert_alter_eq, alter_insert_eq.
  - exists th. split; [by rewrite lookup_alter_ne|].
    unfold set_threads. cbn. f_equal. by rewrite alter_insert_ne.
Qed.

Lemma kmutex_lock_with_flag mtx t z s :
  kmutex_lock mtx (with_flag t z s)
  = res_in (with_flag t z) (kmutex_lock mtx s).
Proof.
  destruct (kmutex_lock_cases s mtx)
    as [E|[(c & mx & Hc & Hm & Hh & E)
          |(c & mx & h & th & Hc & Hm & Hh & Hne & Ht & E)]]; rewrite E;
    cbn [res_in].
  - destruct (kmutex_lock_cases (with_flag t z s) mtx)
      as [E'|[(c & mx & Hc & Hm & Hh & _)
             |(c & mx & h & th & Hc & Hm & Hh & Hne & Ht & _)]]; [done|..];
      cbn in Hc, Hm.
    + by erewrite kmutex_lock_free in E.
    + assert (is_Some (threads s !! c)) as [th0 Ht0].
      { unfold with_flag in Ht. cbn in Ht.
        destruct (decide (t = c)) as [->|Hn].
        - rewrite lookup_alter_eq in Ht.
          destruct (threads s !! c); [by eexists|done].
        - rewrite lookup_alter_ne in Ht by done. by eexists. }
      by erewrite kmutex_lock_held in E.
  - by erewrite kmutex_lock_free.
  - destruct (parked_state_with_flag KT_SLEEP mtx mx c th t z s Ht)
      as (th' & Ht' & <-).
    by eapply kmutex_lock_held.
Qed.

(** C10: [kmutex_lock] does not read [kt_cancelled].  Overwriting the flag
    of any thread before the call, or before the caller is switched back to,
    changes nothing but that flag in the outcome.  In particular a caller
    whose flag is set claims a free mutex at once, and on a held mutex parks
    and returns as holder when it is resumed after the hand-off; the flag is
    still set and no value is reported. *)
Theorem lock_ignores_cancellation (mtx : mid) (s : kstate) (c : tid)
    (mx : kmutex) (th : kthread) :
  curthr s = Some c ->
  mutexes s !! mtx = Some mx ->
  km_holder mx <> Some c ->
  threads s !! c = Some th ->
  kt_cancelled th <> 0 ->
  match km_holder mx with
  | None =>
      exists s',
        kmutex_lock mtx s = Done tt s'
        /\ holder_of mtx s' = Some c
        /\ threads s' !! c = Some th
  | Some _ =>
      exists s1,
        kmutex_lock mtx s = Suspended s1 (lock_resume mtx)
        /\ kt_cancelled <$> threads s1 !! c = Some (kt_cancelled th)
        /\ forall r,
             curthr r = Some c -> holder_of mtx r = Some c ->
             lock_resume mtx r = Done tt r
  end
  /\ (forall t z s0,
        kmutex_lock mtx (with_flag t z s0)
        = res_in (with_flag t z) (kmutex_lock mtx s0))
  /\ (forall t z r,
        lock_resume mtx (with_flag t z r)
        = res_in (with_flag t z) (lock_resume mtx r)).
Proof.
  intros Hc Hm Hh Ht Hz. split; [|split].
  - destruct (km_holder mx) as [h|] eqn:Hh'.
    + assert (h <> c) by congruence.
      exists (parked_state KT_SLEEP mtx mx c th s).
      split; [by eapply kmutex_lock_held|].
      split; [unfold parked_state; cbn; by rewrite lookup_insert_eq|].
      intros r Hcr Hhr. apply holder_of_Some in Hhr as (mr & ? & ?).
      by eapply lock_resume_Done.
    + exists (holder_set mtx mx (Some c) s).
      split; [by eapply kmutex_lock_free|].
      unfold holder_of, holder_set. cbn. by rewrite lookup_insert_eq.
  - intros. apply kmutex_lock_with_flag.
  - intros. apply lock_resume_with_flag.
Qed.

(** Instance of C10: the cancelled thread 3 locks the free mutex. *)
Lemma lock_ignores_cancellation_witness :
  exists s',
    kmutex_lock 7%nat (set_curthr (Some 3%nat) demo_free) = Done tt s'
    /\ holder_of 7%nat s' = Some 3%nat
    /\ threads s' !! 3%nat = Some (set_kt_cancelled 1 demo_thread).
Proof.
  exact (proj1 (lock_ignores_cancellation 7%nat
                  (set_curthr (Some 3%nat) demo_free) 3%nat kmutex_initial
                  (set_kt_cancelled 1 demo_thread)
                  eq_refl eq_refl ltac:(discriminate) eq_refl
                  ltac:(discriminate))).
Defined.

(** The cancelled thread 3 on the held mutex parks; resumed as holder it
    returns, flag still set. *)
Example demo_cancelled_lock_waits :
  (history <$>
     sys_run 7%nat demo_sys
       [Call 1%nat CLock; Call 3%nat CLock; Call 1%nat CUnlock; Resume 3%nat])
  = Some [mk_returned 1%nat CLock 0 false;
          mk_returned 1%nat CUnlock 0 false;
          mk_returned 3%nat CLock 0 true].
Proof. vm_compute. reflexivity. Qed.

(** * Further properties of kmutex.c *)

(** ** What the functions leave alone *)

Lemma stretches_keep_rebase {X A} (obs : kstate -> X) (r : Res A) s0 s1 :
  obs s1 = obs s0 -> stretches_keep obs s1 r -> stretches_keep obs s0 r.
Proof.
  intros E. destruct r as [a s|s|s k]; cbn; [congruence..|].
  intros [E' Hk]. split; [congruence|done].
Qed.

Lemma stretches_keep_bind {X A B} (obs : kstate -> X) (r : Res A)
    (f : A -> M B) s0 :
  stretches_keep obs s0 r -> (forall a, keeps obs (f a)) ->
  stretches_keep obs s0 (res_bind r f).
Proof.
  intros Hr Hf. revert s0 Hr.
  induction r as [a s|s|s k IH]; intros s0 Hr; cbn in *.
  - eapply stretches_keep_rebase; [exact Hr|apply Hf].
  - done.
  - destruct Hr as [E Hk]. split; [done|]. intros r0. apply IH, Hk.
Qed.

Lemma keeps_bind {X A B} (obs : kstate -> X) (m : M A) (f : A -> M B) :
  keeps obs m -> (forall a, keeps obs (f a)) -> keeps obs (bind m f).
Proof. intros Hm Hf s. apply stretches_keep_bind; [apply Hm|done]. Qed.

Lemma keeps_if {X A} (obs : kstate -> X) (b : bool) (m1 m2 : M A) :
  keeps obs m1 -> keeps obs m2 -> keeps obs (if b then m1 else m2).
Proof. by destruct b. Qed.

Section Untouched.
Variable mtx : mid.

Lemma untouched_ret {A} (a : A) : keeps (untouched mtx) (ret a).
Proof. by intros s. Qed.

Lemma untouched_halt {A} : keeps (untouched mtx) (@halt A).
Proof. by intros s. Qed.

Lemma untouched_read_curthr : keeps (untouched mtx) read_curthr.
Proof. by intros s. Qed.

Lemma untouched_KASSERT b : keeps (untouched mtx) (KASSERT b).
Proof. intros s. unfold KASSERT. by destruct b. Qed.

Lemma untouched_emit e : keeps (untouched mtx) (emit e).
Proof. by intros s. Qed.

Lemma untouched_load_thr p : keeps (untouched mtx) (load_thr p).
Proof.
  intros s. unfold load_thr.
  destruct p as [t|]; [destruct (threads s !! t)|]; done.
Qed.

Lemma untouched_load_mtx : keeps (untouched mtx) (load_mtx mtx).
Proof. intros s. unfold load_mtx. by destruct (mutexes s !! mtx). Qed.

Lemma untouched_store_mtx m : keeps (untouched mtx) (store_mtx mtx m).
Proof.
  intros s. cbn. unfold untouched. cbn. by rewrite delete_insert_eq.
Qed.

Lemma untouched_update_mtx f : keeps (untouched mtx) (update_mtx mtx f).
Proof.
  apply keeps_bind; [apply untouched_load_mtx|].
  intros m. apply untouched_store_mtx.
Qed.

Lemma untouched_read_km_holder : keeps (untouched mtx) (read_km_holder mtx).
Proof.
  apply keeps_bind; [apply untouched_load_mtx|].
  intros m. apply untouched_ret.
Qed.

Lemma untouched_read_tq_size : keeps (untouched mtx) (read_tq_size mtx).
Proof.
  apply keeps_bind; [apply untouched_load_mtx|].
  intros m. apply untouched_ret.
Qed.

Lemma untouched_sched_switch : keeps (untouched mtx) sched_switch.
Proof. intros s. cbn. split; [done|]. by intros r0. Qed.

Lemma untouched_sched_make_runnable p :
  keeps (untouched mtx) (sched_make_runnable p).
Proof. intros s. unfold sched_make_runnable. by destruct p. Qed.

Lemma untouched_update_thr p f :
  (forall th, kt_retval (f th) = kt_retval th
              /\ kt_errno (f th) = kt_errno th
              /\ kt_cancelled (f th) = kt_cancelled th) ->
  keeps (untouched mtx) (update_thr p f).
Proof.
  intros Hf s. unfold update_thr, bind, load_thr.
  destruct p as [t|]; [|done].
  destruct (threads s !! t) as [th|] eqn:Ht; [|done].
  cbn. unfold untouched. cbn. f_equal. rewrite fmap_insert.
  destruct (Hf th) as (-> & -> & ->).
  apply insert_id. by rewrite lookup_fmap, Ht.
Qed.

Create HintDb untouched discriminated.
#[local] Hint Resolve untouched_ret untouched_halt untouched_read_curthr
  untouched_KASSERT untouched_emit untouched_load_thr untouched_load_mtx
  untouched_store_mtx untouched_update_mtx untouched_read_km_holder
  untouched_read_tq_size untouched_sched_switch
  untouched_sched_make_runnable : untouched.

Ltac untouched :=
  repeat first
    [ solve [auto with untouched]
    | apply untouched_update_thr; intros []; repeat split
    | apply keeps_if
    | match goal with
      | |- keeps _ (match ?x with _ => _ end) => destruct x
      end
    | apply keeps_bind; [|intros ?] ].

Lemma untouched_curthr_and op : keeps (untouched mtx) (curthr_and mtx op).
Proof. unfold curthr_and. untouched. Qed.

Lemma untouched_ktqueue_enqueue thr :
  keeps (untouched mtx) (ktqueue_enqueue mtx thr).
Proof. unfold ktqueue_enqueue. untouched. Qed.

Lemma untouched_ktqueue_dequeue : keeps (untouched mtx) (ktqueue_dequeue mtx).
Proof. unfold ktqueue_dequeue. untouched. Qed.

#[local] Hint Resolve untouched_curthr_and untouched_ktqueue_enqueue
  untouched_ktqueue_dequeue : untouched.

Lemma untouched_kmutex_unlock : keeps (untouched mtx) (kmutex_unlock mtx).
Proof. unfold kmutex_unlock. untouched. Qed.

#[local] Hint Resolve untouched_kmutex_unlock : untouched.

Lemma untouched_kmutex_lock : keeps (untouched mtx) (kmutex_lock mtx).
Proof. unfold kmutex_lock. untouched. Qed.

Lemma untouched_kmutex_lock_cancellable :
  keeps (untouched mtx) (kmutex_lock_cancellable mtx).
Proof. unfold kmutex_lock_cancellable. untouched. Qed.

Lemma untouched_kmutex_init : keeps (untouched mtx) (kmutex_init mtx).
Proof. unfold kmutex_init. untouched. Qed.
End Untouched.

(** X1: the four functions called on one mutex never write [curthr], never
    touch another mutex, never create or destroy a thread object and never
    write the return value, the error number or the cancellation flag of a
    thread: in every stretch of their execution, up to a return, a park or a
    halt, these are what they were when the stretch began. *)
Theorem mutex_functions_touch_only_their_mutex (mtx : mid) :
  keeps (untouched mtx) (kmutex_init mtx)
  /\ keeps (untouched mtx) (kmutex_lock mtx)
  /\ keeps (untouched mtx) (kmutex_lock_cancellable mtx)
  /\ keeps (untouched mtx) (kmutex_unlock mtx)
  /\ (forall s s' m,
        m <> mtx ->
        kmutex_unlock mtx s = Done tt s' \/ kmutex_lock mtx s = Done tt s' ->
        mutexes s' !! m = mutexes s !! m /\ curthr s' = curthr s
        /\ dom (threads s') = dom (threads s)).
Proof.
  split; [apply untouched_kmutex_init|].
  split; [apply untouched_kmutex_lock|].
  split; [apply untouched_kmutex_lock_cancellable|].
  split; [apply untouched_kmutex_unlock|].
  intros s s' m Hne Hrun.
  assert (untouched mtx s' = untouched mtx s) as E.
  { destruct Hrun as [Hrun|Hrun].
    - pose proof (untouched_kmutex_unlock mtx s) as H.
      by rewrite Hrun in H.
    - pose proof (untouched_kmutex_lock mtx s) as H.
      by rewrite Hrun in H. }
  unfold untouched in E. injection E as Ec Em Et.
  split; [|split; [done|]].
  - rewrite <- (lookup_delete_ne (mutexes s') mtx m) by done.
    rewrite Em. by apply lookup_delete_ne.
  - apply (f_equal dom) in Et. by rewrite !dom_fmap_L in Et.
Qed.

(** ** Where the functions can park, and where they halt *)

Lemma never_parks_bind_ret {A B} (r : Res A) (b : B) :
  never_parks r -> never_parks (res_bind r (fun _ => ret b)).
Proof. by destruct r. Qed.

Lemma kmutex_unlock_never_parks mtx s : never_parks (kmutex_unlock mtx s).
Proof.
  destruct (kmutex_unlock_cases s mtx)
    as [[s' ->]|[(c & mx & _ & _ & _ & _ & ->)
                |(c & mx & t & rest & th & _ & _ & _ & _ & _ & _ & _ & ->)]];
    done.
Qed.

Lemma lock_resume_never_parks mtx r : never_parks (lock_resume mtx r).
Proof.
  by destruct (lock_resume_cases r mtx)
    as [[-> _]|(c & mx & _ & _ & _ & ->)].
Qed.

Lemma lock_cancellable_resume_never_parks mtx r :
  never_parks (lock_cancellable_resume mtx r).
Proof.
  destruct (lock_cancellable_resume_cases r mtx)
    as [->|[(c & mx & th & _ & _ & _ & _ & _ & ->)
           |(c & mx & th & _ & _ & _ & _ & _ & ->)]]; [done..|].
  apply never_parks_bind_ret, kmutex_unlock_never_parks.
Qed.

Lemma kmutex_lock_parks mtx s :
  parks_at_most_once (kmutex_lock mtx s)
  /\ (~ never_parks (kmutex_lock mtx s) ->
      exists c h, curthr s = Some c /\ holder_of mtx s = Some h /\ h <> c).
Proof.
  destruct (kmutex_lock_cases s mtx)
    as [->|[(c & mx & Hc & Hm & Hh & ->)
           |(c & mx & h & th & Hc & Hm & Hh & Hne & Ht & ->)]]; cbn.
  - split; [done|]. by intros [].
  - split; [done|]. by intros [].
  - split; [intros r0; apply lock_resume_never_parks|].
    intros _. exists c, h. split; [done|]. split; [|done].
    apply holder_of_Some. eauto.
Qed.

Lemma kmutex_lock_cancellable_parks mtx s :
  parks_at_most_once (kmutex_lock_cancellable mtx s)
  /\ (~ never_parks (kmutex_lock_cancellable mtx s) ->
      exists c h, curthr s = Some c /\ holder_of mtx s = Some h /\ h <> c).
Proof.
  destruct (kmutex_lock_cancellable_cases s mtx)
    as [[s' ->]|[(c & mx & Hc & Hm & Hh & ->)
                |(c & mx & h & th & Hc & Hm & Hh & Hne & Ht & ->)]].
  - split; [done|]. by intros [].
  - pose proof (lock_cancellable_resume_never_parks mtx
                  (holder_set mtx mx (Some c) s)) as Hn.
    split; [|done].
    by destruct (lock_cancellable_resume mtx (holder_set mtx mx (Some c) s)).
  - split; [intros r0; apply lock_cancellable_resume_never_parks|].
    intros _. exists c, h. split; [done|]. split; [|done].
    apply holder_of_Some. eauto.
Qed.

(** X2: [kmutex_unlock] and [kmutex_init] never park, in any state, as the
    comment above [kmutex_unlock] demands ("This should _NOT_ be a blocking
    operation!").  The two lock functions park at most once: whatever state
    the parked caller is resumed in, the rest of the call returns or halts
    without a second [sched_switch].  A lock function parks only on a mutex
    that is held by a thread other than the caller. *)
Theorem unlock_never_parks_lock_parks_once (mtx : mid) (s : kstate) :
  never_parks (kmutex_unlock mtx s)
  /\ never_parks (kmutex_init mtx s)
  /\ parks_at_most_once (kmutex_lock mtx s)
  /\ parks_at_most_once (kmutex_lock_cancellable mtx s)
  /\ (~ never_parks (kmutex_lock mtx s)
      \/ ~ never_parks (kmutex_lock_cancellable mtx s) ->
      exists c h, curthr s = Some c /\ holder_of mtx s = Some h /\ h <> c).
Proof.
  destruct (kmutex_lock_parks mtx s) as [Hl Hl'].
  destruct (kmutex_lock_cancellable_parks mtx s) as [Hc Hc'].
  split; [apply kmutex_unlock_never_parks|]. split; [done|].
  split; [done|]. split; [done|]. intros [H|H]; auto.
Qed.

Lemma not_holder_not_resumable mtx r :
  curthr r = None \/ holder_of mtx r <> curthr r ->
  ~ (exists c mx, curthr r = Some c /\ mutexes r !! mtx = Some mx
                  /\ km_holder mx = Some c).
Proof.
  intros H (c & mx & Hc & Hm & Hh). unfold holder_of in H.
  rewrite Hm, Hc, Hh in H. by destruct H.
Qed.

Lemma tails_halt_without_hand_off mtx r :
  curthr r = None \/ holder_of mtx r <> curthr r ->
  lock_resume mtx r = Fault r /\ lock_cancellable_resume mtx r = Fault r.
Proof.
  intros H. apply not_holder_not_resumable in H. split.
  - destruct (lock_resume_cases r mtx) as [[E _]|(c & mx & ? & ? & ? & _)];
      [done|]. destruct H. eauto.
  - by apply lock_cancellable_resume_Fault.
Qed.

(** X3: a caller parked in a lock function that is made to run again without
    having been handed the mutex halts the kernel at the assertion that
    follows [sched_switch] (lines 54 and 79).  In [kmutex_lock_cancellable]
    that assertion comes before the test of [kt_cancelled]: a thread that
    parked on a held mutex and is resumed where it parked, with its flag
    set to any value and the holder unchanged, does not return [-EINTR]; the
    kernel halts and the thread is still linked in the wait queue. *)
Theorem resumed_without_hand_off_halts (mtx : mid) (s : kstate) (c h : tid)
    (mx : kmutex) (th : kthread) (z : Z) :
  curthr s = Some c ->
  mutexes s !! mtx = Some mx ->
  km_holder mx = Some h ->
  h <> c ->
  threads s !! c = Some th ->
  exists s1,
    kmutex_lock_cancellable mtx s
    = Suspended s1 (lock_cancellable_resume mtx)
    /\ lock_cancellable_resume mtx (with_flag c z s1)
       = Fault (with_flag c z s1)
    /\ flags (with_flag c z s1) !! c = Some z
    /\ c ∈ waiters_of mtx (with_flag c z s1)
    /\ holder_of mtx (with_flag c z s1) = Some h
    /\ forall r,
         curthr r = None \/ holder_of mtx r <> curthr r ->
         lock_resume mtx r = Fault r
         /\ lock_cancellable_resume mtx r = Fault r.
Proof.
  intros Hc Hm Hh Hne Ht.
  exists (parked_state KT_SLEEP_CANCELLABLE mtx mx c th s).
  split; [by eapply kmutex_lock_cancellable_held|].
  assert (holder_of mtx
            (with_flag c z (parked_state KT_SLEEP_CANCELLABLE mtx mx c th s))
          = Some h) as Hh1.
  { unfold holder_of, with_flag, parked_state. cbn.
    by rewrite lookup_insert_eq. }
  split; [|split; [|split; [|split; [done|]]]].
  - apply tails_halt_without_hand_off. right. rewrite Hh1. cbn.
    rewrite Hc. congruence.
  - rewrite flags_lookup. unfold with_flag, parked_state. cbn.
    by rewrite lookup_alter_eq, lookup_insert_eq.
  - unfold waiters_of, with_flag, parked_state. cbn.
    rewrite lookup_insert_eq. cbn. apply elem_of_app. right. left.
  - apply tails_halt_without_hand_off.
Qed.

(** Instance of X3: thread 3 parks in the cancellable lock while thread 1
    holds the mutex and is resumed with the flag 1. *)
Lemma resumed_without_hand_off_halts_witness :
  exists s1,
    kmutex_lock_cancellable 7%nat (set_curthr (Some 3%nat) demo_held)
    = Suspended s1 (lock_cancellable_resume 7%nat)
    /\ lock_cancellable_resume 7%nat (with_flag 3%nat 1 s1)
       = Fault (with_flag 3%nat 1 s1)
    /\ 3%nat ∈ waiters_of 7%nat (with_flag 3%nat 1 s1).
Proof.
  destruct (resumed_without_hand_off_halts 7%nat
              (set_curthr (Some 3%nat) demo_held) 3%nat 1%nat
              (mk_kmutex (mk_ktqueue [] 0) (Some 1%nat))
              (set_kt_cancelled 1 demo_thread) 1
              eq_refl eq_refl eq_refl ltac:(discriminate) eq_refl)
    as (s1 & E & Hf & _ & Hw & _).
  exists s1. split; [exact E|]. split; [exact Hf|exact Hw].
Defined.

(** X4: [kmutex_init] needs no current thread and never halts.  Whatever was
    at the address before (nothing, a free mutex, or a mutex with a holder
    and waiters), the mutex is afterwards free with an empty queue and count
    0 and nothing else has changed; a second call changes nothing; the next
    [kmutex_lock] by any current thread claims the mutex at once; and
    [kmutex_unlock] by any thread, the former holder included, halts. *)
Theorem kmutex_init_resets (mtx : mid) (s : kstate) :
  exists s0,
    kmutex_init mtx s = Done tt s0
    /\ mutexes s0 !! mtx = Some kmutex_initial
    /\ (forall m, m <> mtx -> mutexes s0 !! m = mutexes s !! m)
    /\ threads s0 = threads s
    /\ kt_runq s0 = kt_runq s
    /\ klog s0 = klog s
    /\ curthr s0 = curthr s
    /\ kmutex_init mtx s0 = Done tt s0
    /\ kmutex_unlock mtx s0 = Fault s0
    /\ forall c,
         curthr s = Some c ->
         exists s1,
           kmutex_lock mtx s0 = Done tt s1 /\ holder_of mtx s1 = Some c
           /\ waiters_of mtx s1 = [].
Proof.
  exists (set_mutexes (<[mtx := kmutex_initial]> (mutexes s)) s).
  split; [apply kmutex_init_Done|].
  cbn [mutexes threads kt_runq klog curthr set_mutexes].
  split; [apply lookup_insert_eq|].
  split; [intros m Hne; by apply lookup_insert_ne|].
  do 4 (split; [done|]).
  split; [rewrite kmutex_init_Done; unfold set_mutexes; cbn;
          by rewrite insert_insert_eq|].
  split.
  - destruct (curthr s) as [c|] eqn:Hc.
    + eapply kmutex_unlock_not_holder;
        [exact Hc|cbn; apply lookup_insert_eq|done].
    + by apply kmutex_unlock_null.
  - intros c Hc. eexists. split.
    { eapply kmutex_lock_free; [exact Hc|cbn; apply lookup_insert_eq|done]. }
    unfold holder_of, waiters_of, holder_set. cbn.
    by rewrite lookup_insert_eq.
Qed.

(** X5: [kmutex_unlock] decides between release and hand-off by the count
    field alone (line 110).  When the holder unlocks a mutex whose count is 0,
    the holder becomes [NULL] and nothing else is written, whatever threads
    are linked in the list: they stay linked, none is made runnable, and the
    next [kmutex_lock] by any thread claims the mutex ahead of them. *)
Theorem unlock_trusts_the_count (mtx : mid) (s : kstate) (c : tid)
    (mx : kmutex) :
  curthr s = Some c ->
  mutexes s !! mtx = Some mx ->
  km_holder mx = Some c ->
  tq_size (km_waitq mx) = 0 ->
  exists s',
    kmutex_unlock mtx s = Done tt s'
    /\ holder_of mtx s' = None
    /\ waiters_of mtx s' = tq_list (km_waitq mx)
    /\ threads s' = threads s
    /\ kt_runq s' = kt_runq s
    /\ klog s' = klog s
    /\ forall c',
         exists s2,
           kmutex_lock mtx (set_curthr (Some c') s') = Done tt s2
           /\ holder_of mtx s2 = Some c'
           /\ waiters_of mtx s2 = tq_list (km_waitq mx).
Proof.
  intros Hc Hm Hh Hsz. exists (holder_set mtx mx None s).
  split; [by eapply kmutex_unlock_free|].
  assert (mutexes (holder_set mtx mx None s) !! mtx
          = Some (set_km_holder None mx)) as Hm'
    by (unfold holder_set; cbn; apply lookup_insert_eq).
  unfold holder_of, waiters_of. rewrite Hm'.
  do 5 (split; [done|]). intros c'.
  exists (holder_set mtx (set_km_holder None mx) (Some c')
            (set_curthr (Some c') (holder_set mtx mx None s))).
  split; [by eapply kmutex_lock_free|].
  unfold holder_set. cbn. by rewrite lookup_insert_eq.
Qed.

(** Instance of X5: the count says 0 while threads 2 and 3 are linked. *)
Lemma unlock_trusts_the_count_witness :
  exists s',
    kmutex_unlock 7%nat demo_miscounted = Done tt s'
    /\ holder_of 7%nat s' = None
    /\ waiters_of 7%nat s' = [2%nat; 3%nat]
    /\ kt_runq s' = [].
Proof.
  destruct (unlock_trusts_the_count 7%nat demo_miscounted 1%nat
              (mk_kmutex (mk_ktqueue [2%nat; 3%nat] 0) (Some 1%nat))
              eq_refl eq_refl eq_refl eq_refl)
    as (s' & E & Hh & Hw & _ & Hr & _).
  exists s'. split; [exact E|]. split; [exact Hh|].
  split; [exact Hw|exact Hr].
Defined.

(** The assertion after [sched_switch] in [kmutex_lock]: it fires exactly
    when the running thread is not the holder, and writes nothing. *)
Lemma lock_resume_halts mtx r :
  (lock_resume mtx r = Fault r
   /\ (curthr r = None \/ holder_of mtx r <> curthr r))
  \/ (lock_resume mtx r = Done tt r
      /\ curthr r <> None /\ holder_of mtx r = curthr r).
Proof.
  destruct (lock_resume_cases r mtx)
    as [[E Hn]|(c & mx & Hc & Hm & Hh & E)].
  - left. split; [done|]. destruct (curthr r) as [c|] eqn:Hc; [right|by left].
    intros Hh. apply holder_of_Some in Hh as (mx & ? & ?).
    apply Hn. by exists c, mx.
  - right. split; [done|]. rewrite Hc. split; [done|].
    apply holder_of_Some. eauto.
Qed.

(** X6: when [kmutex_lock] and [kmutex_unlock] halt, over the whole call.
    With a live current thread and a well-formed mutex, [kmutex_lock] halts
    in exactly two ways: at entry, when there is no current thread or the
    current thread already holds the mutex (line 40), and then in the
    unchanged entry state; or, having parked on a mutex held by another
    thread, when it is resumed in a state in which the running thread is not
    the holder (line 54), and then in exactly the state it was resumed in.
    [kmutex_unlock] halts exactly when there is no current thread or the
    current thread is not the holder (line 107), in the unchanged state. *)
Theorem lock_and_unlock_halt_exactly_on_violation (mtx : mid) (s : kstate)
    (mx : kmutex) (rs : list kstate) (sf : kstate) :
  mutexes s !! mtx = Some mx ->
  (forall c, curthr s = Some c -> is_Some (threads s !! c)) ->
  mutex_wf s mx ->
  (halts_in rs (kmutex_lock mtx s) sf
   <-> ((curthr s = None \/ km_holder mx = curthr s) /\ sf = s)
       \/ (curthr s <> None /\ km_holder mx <> None
           /\ km_holder mx <> curthr s
           /\ exists rs',
                rs = sf :: rs'
                /\ (curthr sf = None \/ holder_of mtx sf <> curthr sf)))
  /\ (halts_in rs (kmutex_unlock mtx s) sf
      <-> (curthr s = None \/ km_holder mx <> curthr s) /\ sf = s).
Proof.
  intros Hm Hlive Hwf. split.
  - destruct (curthr s) as [c|] eqn:Hc.
    2:{ rewrite (kmutex_lock_null s mtx Hc). cbn. split.
        - intros <-. left. split; [by left|done].
        - intros [[_ ->]|(? & _)]; done. }
    destruct (Hlive c eq_refl) as [th Ht].
    destruct (km_holder mx) as [h|] eqn:Hh.
    + destruct (decide (h = c)) as [->|Hne].
      * rewrite (kmutex_lock_self s mtx c mx Hc Hm Hh). cbn. split.
        -- intros <-. left. split; [by right|done].
        -- intros [[_ ->]|(_ & _ & ? & _)]; done.
      * rewrite (kmutex_lock_held s mtx c mx Hc Hm h Hh Hne th Ht).
        cbn [halts_in]. split.
        -- intros Hr. right. split; [done|]. split; [done|].
           split; [congruence|]. destruct rs as [|r rs']; [done|].
           destruct (lock_resume_halts mtx r) as [[E Hv]|[E _]];
             rewrite E in Hr; [|done].
           cbn in Hr. subst sf. by exists rs'.
        -- intros [[[?|?] _]|(_ & _ & _ & rs' & -> & Hv)]; [congruence..|].
           destruct (lock_resume_halts mtx sf) as [[-> _]|[_ [Hc' Hh']]];
             [done|].
           destruct Hv as [?|?]; congruence.
    + rewrite (kmutex_lock_free s mtx c mx Hc Hm Hh). cbn. split; [done|].
      intros [[[?|?] _]|(_ & ? & _)]; congruence.
  - destruct (curthr s) as [c|] eqn:Hc.
    2:{ rewrite (kmutex_unlock_null s mtx Hc). cbn. split.
        - intros <-. split; [by left|done].
        - by intros [_ ->]. }
    destruct (decide (km_holder mx = Some c)) as [Hh|Hh].
    + destruct (unlock_returns_wf mtx s c mx Hc Hm Hh Hwf) as [s' ->]. cbn.
      split; [done|]. intros [[?|?] _]; congruence.
    + rewrite (kmutex_unlock_not_holder s mtx c mx Hc Hm Hh). cbn. split.
      * intros <-. split; [by right|done].
      * by intros [_ ->].
Qed.

(** Instance of X6: thread 2 calls [kmutex_lock] while thread 1 holds the
    mutex, parks, and is switched to with thread 1 still the holder: the
    kernel halts in the state in which thread 2 was resumed. *)
Lemma lock_and_unlock_halt_exactly_on_violation_witness :
  halts_in [demo_held] (kmutex_lock 7%nat demo_held) demo_held
  /\ ~ halts_in [] (kmutex_lock 7%nat demo_held) demo_held.
Proof.
  assert (mutex_wf demo_held (mk_kmutex (mk_ktqueue [] 0) (Some 1%nat)))
    as Hwf.
  { split; [done| |]; cbn.
    - intros h _. apply not_elem_of_nil.
    - intros t Hin. by apply elem_of_nil in Hin. }
  assert (forall c, curthr demo_held = Some c ->
                    is_Some (threads demo_held !! c)) as Hlive
    by (intros c [= <-]; by eexists).
  split.
  - apply (proj1 (lock_and_unlock_halt_exactly_on_violation 7%nat demo_held
                    _ [demo_held] demo_held eq_refl Hlive Hwf)).
    right. split; [discriminate|]. split; [discriminate|].
    split; [discriminate|]. exists []. split; [reflexivity|].
    right. discriminate.
  - intros H.
    apply (proj1 (lock_and_unlock_halt_exactly_on_violation 7%nat demo_held
                    _ [] demo_held eq_refl Hlive Hwf)) in H
      as [[[H|H] _]|(_ & _ & _ & rs' & H & _)]; discriminate H.
Defined.

(** ** The thread objects along every run *)

Section ThreadTransitions.
Variables (mtx : mid) (mx : kmutex) (rq : list tid) (lg : list kevent).
Variables (ts : gmap nat kthread).
Variables (P : gmap nat (call * (kstate -> Res Z))).
Variables (ow : tid -> bool) (sv : list tid).
Hypothesis Hk : kinv mtx mx rq lg P ow sv.
Hypothesis Ht : tinv mtx mx rq ts P ow.

Lemma tinv_ext ow' :
  (forall t, ow' t = ow t) -> tinv mtx mx rq ts P ow'.
Proof.
  intros E. destruct Ht. split; try done.
  intros t Hh. rewrite E. auto.
Qed.

Lemma tinv_claim t :
  P !! t = None -> km_holder mx = None ->
  tinv mtx (set_km_holder (Some t) mx) rq ts P (own_upd ow t true).
Proof.
  intros Hp Hh. destruct Ht as [Hw Hr Hho]. split; cbn; try done.
  intros t' [= <-]. left. unfold own_upd. by rewrite decide_True.
Qed.

Lemma tinv_park t c k h th :
  P !! t = None -> km_holder mx = Some h -> ts !! t = Some th ->
  tinv mtx
    (mk_kmutex (mk_ktqueue (tq_list (km_waitq mx) ++ [t])
                           (tq_size (km_waitq mx) + 1))
               (km_holder mx))
    rq
    (<[t := set_kt_wchan (Some mtx) (set_kt_state (sleep_state c) th)]> ts)
    (<[t := (c, k)]> P) ow.
Proof.
  intros Hp Hh Hth. destruct Ht as [Hw Hr Hho]. split; cbn.
  - intros t' Hin. apply elem_of_app in Hin as [Hin|Hin].
    + destruct (Hw t' Hin) as (th' & c' & k' & ? & ? & ? & ?).
      assert (t <> t') by congruence.
      exists th', c', k'. by rewrite !lookup_insert_ne.
    + apply list_elem_of_singleton in Hin as ->.
      eexists _, c, k. by rewrite !lookup_insert_eq.
  - intros t' Hin. destruct (Hr t' Hin) as (th' & ? & ? & ?).
    destruct (k_runq _ _ _ _ _ _ _ Hk) as [->|(t0 & -> & _ & [x Hx])];
      [by apply elem_of_nil in Hin|].
    apply list_elem_of_singleton in Hin as ->.
    assert (t <> t0) by congruence.
    exists th'. by rewrite lookup_insert_ne.
  - done.
Qed.

Lemma tinv_release_free t :
  km_holder mx = Some t ->
  tinv mtx (set_km_holder None mx) rq ts P (own_upd ow t false).
Proof. intros Hh. destruct Ht as [Hw Hr Hho]. by split. Qed.

Lemma tinv_release_handoff t t2 rest th :
  P !! t = None -> km_holder mx = Some t ->
  tq_list (km_waitq mx) = t2 :: rest -> ts !! t2 = Some th ->
  tinv mtx
    (mk_kmutex (mk_ktqueue rest (tq_size (km_waitq mx) - 1)) (Some t2))
    (rq ++ [t2])
    (<[t2 := set_kt_state KT_RUN (set_kt_wchan None th)]> ts)
    P (own_upd ow t false).
Proof.
  intros Hp Hh Hl Hth.
  pose proof (unparked_holder_runq _ _ _ _ _ _ _ Hk t Hp Hh) as ->.
  pose proof (k_nodup _ _ _ _ _ _ _ Hk) as Hnd.
  destruct Ht as [Hw Hr Hho]. rewrite Hl in *.
  apply NoDup_cons in Hnd as [Hnin Hnd]. split; cbn.
  - intros t' Hin. destruct (Hw t') as (th' & c' & k' & ? & ? & ? & ?);
      [by right|].
    assert (t2 <> t') by (by intros <-).
    exists th', c', k'. by rewrite lookup_insert_ne.
  - intros t' Hin. apply list_elem_of_singleton in Hin as ->.
    eexists. by rewrite lookup_insert_eq.
  - intros t' [= <-]. right. left.
Qed.

Lemma tinv_resume t :
  is_Some (P !! t) -> t ∈ rq ->
  tinv mtx mx [] ts (delete t P) (own_upd ow t true).
Proof.
  intros Hs Hin.
  destruct (kinv_resume _ _ _ _ _ _ _ Hk t Hs Hin) as (Hh & _ & _).
  destruct Ht as [Hw Hr Hho]. split; cbn.
  - intros t' Hin'. destruct (Hw t' Hin') as (th' & c' & k' & ? & ? & ? & ?).
    assert (t <> t').
    { intros <-. by apply (k_holder_unlinked _ _ _ _ _ _ _ Hk t). }
    exists th', c', k'. by rewrite lookup_delete_ne.
  - intros t' Hin'. by apply elem_of_nil in Hin'.
  - intros t' Hh'. left. unfold own_upd. rewrite decide_True; congruence.
Qed.

(** The head of a non-empty wait queue is a live thread other than the
    holder, and a count other than 0 means the queue is not empty. *)
Lemma head_ready t :
  km_holder mx = Some t -> tq_size (km_waitq mx) <> 0 ->
  exists t2 rest th,
    tq_list (km_waitq mx) = t2 :: rest /\ ts !! t2 = Some th /\ t2 <> t.
Proof.
  intros Hh Hsz. pose proof (k_count _ _ _ _ _ _ _ Hk) as Hcount.
  destruct (tq_list (km_waitq mx)) as [|t2 rest] eqn:Hl; [done|].
  destruct (t_waiting _ _ _ _ _ _ Ht t2) as (th & _ & _ & Hth & _);
    [rewrite Hl; left|].
  exists t2, rest, th. split; [done|]. split; [done|].
  intros ->. apply (k_holder_unlinked _ _ _ _ _ _ _ Hk t Hh).
  rewrite Hl. left.
Qed.
End ThreadTransitions.

Lemma tinv_record mtx mx rq ts P h t c v w :
  tinv mtx mx rq ts P
       (own_upd (fun t' => owns t' h) t (acquired (mk_returned t c v w))) ->
  tinv mtx mx rq ts P (fun t' => owns t' (h ++ [mk_returned t c v w])).
Proof.
  intros H. eapply tinv_ext; [exact H|]. intros t'. by rewrite owns_snoc.
Qed.

Section StepThreads.
Variables (mtx : mid) (s : kstate) (mx : kmutex) (t : tid).
Variables (P : gmap nat (call * (kstate -> Res Z))).
Variables (ow : tid -> bool) (sv : list tid).
Hypothesis Hc : curthr s = Some t.
Hypothesis Hm : mutexes s !! mtx = Some mx.
Hypothesis Hp : P !! t = None.
Hypothesis Hh : km_holder mx = Some t.
Hypothesis Hk : kinv mtx mx (kt_runq s) (klog s) P ow sv.
Hypothesis Ht : tinv mtx mx (kt_runq s) (threads s) P ow.

(** In a state that satisfies the invariant, [kmutex_unlock] by the holder
    returns: the mutex is free when nobody waited and otherwise belongs to
    the head of the queue, which is then alone on the run queue. *)
Lemma kmutex_unlock_returns :
  exists s' mx',
    kmutex_unlock mtx s = Done tt s'
    /\ curthr s' = Some t
    /\ mutexes s' !! mtx = Some mx'
    /\ kinv mtx mx' (kt_runq s') (klog s') P (own_upd ow t false) sv
    /\ tinv mtx mx' (kt_runq s') (threads s') P (own_upd ow t false)
    /\ match tq_list (km_waitq mx) with
       | [] =>
           km_holder mx' = None /\ tq_list (km_waitq mx') = []
           /\ kt_runq s' = []
       | t2 :: rest =>
           km_holder mx' = Some t2 /\ tq_list (km_waitq mx') = rest
           /\ kt_runq s' = [t2]
       end.
Proof.
  pose proof (unparked_holder_runq _ _ _ _ _ _ _ Hk t Hp Hh) as Hrq.
  destruct (decide (tq_size (km_waitq mx) = 0)) as [Hsz|Hsz].
  - exists (holder_set mtx mx None s), (set_km_holder None mx).
    split; [by eapply kmutex_unlock_free|]. split; [done|].
    split; [unfold holder_set; cbn; apply lookup_insert_eq|].
    split; [by apply kinv_release_free|].
    split; [by eapply tinv_release_free|].
    pose proof (k_count _ _ _ _ _ _ _ Hk) as Hcount.
    destruct (tq_list (km_waitq mx)) as [|t2 rest] eqn:Hl;
      [done|cbn in Hcount; lia].
  - destruct (head_ready _ _ _ _ _ _ _ _ Hk Ht t Hh Hsz)
      as (t2 & rest & th & Hl & Hth & Hne).
    exists (handoff_state mtx mx t2 rest th s). eexists.
    split; [by eapply kmutex_unlock_handoff|]. split; [done|].
    split; [unfold handoff_state; cbn; apply lookup_insert_eq|].
    split; [cbn; by eapply kinv_release_handoff|].
    split; [cbn; by eapply tinv_release_handoff|].
    rewrite Hl. cbn. by rewrite Hrq.
Qed.

(** The tail of the cancellable lock, run by the live thread that has just
    been given the mutex, returns: 0 with the state untouched when the flag
    is clear, [-EINTR] after a successful [kmutex_unlock] when it is set. *)
Lemma lock_cancellable_resume_returns th :
  threads s !! t = Some th -> ow t = true ->
  exists v s' mx',
    lock_cancellable_resume mtx s = Done v s'
    /\ mutexes s' !! mtx = Some mx'
    /\ kinv mtx mx' (kt_runq s') (klog s') P
            (own_upd ow t (bool_decide (v = 0))) sv
    /\ tinv mtx mx' (kt_runq s') (threads s') P
            (own_upd ow t (bool_decide (v = 0)))
    /\ ((kt_cancelled th = 0 /\ v = 0 /\ s' = s)
        \/ (kt_cancelled th <> 0 /\ v = - EINTR
            /\ kmutex_unlock mtx s = Done tt s')).
Proof.
  intros Hth How. destruct (decide (kt_cancelled th = 0)) as [Hz|Hz].
  - exists 0, s, mx.
    split; [by eapply lock_cancellable_resume_clear|]. split; [done|].
    assert (forall t', own_upd ow t (bool_decide (0 = 0)) t' = ow t') as E.
    { intros t'. unfold own_upd. cbn.
      by destruct (decide (t = t')) as [<-|]. }
    split; [by eapply kinv_ext|]. split; [by eapply tinv_ext|]. by left.
  - destruct kmutex_unlock_returns as (s' & mx' & E & _ & ? & ? & ? & _).
    exists (- EINTR), s', mx'. split.
    { erewrite lock_cancellable_resume_cancelled by done.
      by erewrite bind_Done. }
    split; [done|]. split; [done|]. split; [done|]. by right.
Qed.
End StepThreads.

Lemma sys_step_tinv mtx g e g' :
  sys_inv mtx g -> sys_tinv mtx g -> sys_step mtx g e = Some g' ->
  sys_tinv mtx g'.
Proof.
  intros (mx & Hm & Hinv) (mx0 & Hm0 & Ht) Hstep. simplify_eq.
  destruct e as [t c|t]; cbn in Hstep.
  - destruct (parked g !! t) eqn:Hp; [done|].
    set (s := set_curthr (Some t) (kern g)) in *.
    assert (curthr s = Some t) as Hc by done.
    assert (mutexes s !! mtx = Some mx) as Hm' by done.
    destruct c; unfold run_call in Hstep.
    + destruct (kmutex_lock_cases s mtx)
        as [E|[(c & mx1 & ? & ? & Hh & E)
              |(c & mx1 & h & th & ? & ? & Hh & Hne & Hth & E)]].
      * by erewrite bind_Fault in Hstep by exact E.
      * simplify_eq. erewrite bind_Done in Hstep by exact E.
        cbn in Hstep. injection Hstep as <-.
        exists (set_km_holder (Some t) mx).
        split; [cbn; apply lookup_insert_eq|].
        cbn. rewrite delete_id by done. apply tinv_record. cbn.
        by apply tinv_claim.
      * simplify_eq. erewrite bind_Suspended in Hstep by exact E.
        cbn in Hstep. injection Hstep as <-. eexists.
        split; [cbn; apply lookup_insert_eq|].
        cbn. by eapply (tinv_park _ _ _ _ _ _ _ _ Hinv Ht t CLock).
    + destruct (kmutex_lock_cancellable_cases s mtx)
        as [[s' E]|[(c & mx1 & ? & ? & Hh & E)
                   |(c & mx1 & h & th & ? & ? & Hh & Hne & Hth & E)]].
      * by rewrite E in Hstep.
      * simplify_eq. rewrite E in Hstep.
        set (s1 := holder_set mtx mx (Some t) s) in *.
        destruct (threads s1 !! t) as [th|] eqn:Hth.
        2:{ erewrite lock_cancellable_resume_unallocated in Hstep;
              [done|done|subst s1; cbn; apply lookup_insert_eq|done..]. }
        destruct (lock_cancellable_resume_returns mtx s1
                    (set_km_holder (Some t) mx) t (parked g)
                    (own_upd (fun t' => owns t' (history g)) t true)
                    (served (history g)))
          with (th := th)
          as (v & s' & mx' & E' & Hm2 & _ & Ht2 & _); try done.
        { subst s1. cbn. apply lookup_insert_eq. }
        { subst s1. cbn. by apply kinv_claim. }
        { subst s1. cbn. by apply tinv_claim. }
        { unfold own_upd. by rewrite decide_True. }
        rewrite E' in Hstep. cbn in Hstep. injection Hstep as <-.
        exists mx'. split; [done|]. cbn. rewrite delete_id by done.
        apply tinv_record. cbn.
        eapply tinv_ext; [exact Ht2|]. intros t'. apply own_upd_twice.
      * simplify_eq. rewrite E in Hstep.
        cbn in Hstep. injection Hstep as <-. eexists.
        split; [cbn; apply lookup_insert_eq|].
        cbn. by eapply (tinv_park _ _ _ _ _ _ _ _ Hinv Ht t CLockCancellable).
    + destruct (decide (km_holder mx = Some t)) as [Hh|Hh].
      2:{ by erewrite bind_Fault in Hstep
            by (by eapply kmutex_unlock_not_holder). }
      destruct (kmutex_unlock_returns mtx s mx t (parked g) _ _
                  Hc Hm' Hp Hh Hinv Ht)
        as (s' & mx' & E & _ & Hm2 & _ & Ht2 & _).
      erewrite bind_Done in Hstep by exact E.
      cbn in Hstep. injection Hstep as <-.
      exists mx'. split; [done|]. cbn. rewrite delete_id by done.
      by apply tinv_record.
  - destruct (parked g !! t) as [[c k]|] eqn:Hp; [|done].
    unfold sched_dispatch in Hstep.
    destruct (bool_decide (t ∈ kt_runq (kern g))) eqn:Hin; [|done].
    apply bool_decide_eq_true in Hin.
    destruct (kinv_resume _ _ _ _ _ _ _ Hinv t) as (Hh & Hrf & Hinv');
      [by eexists|done|].
    pose proof (tinv_resume _ _ _ _ _ _ _ _ Hinv Ht t
                  ltac:(by eexists) Hin) as Ht'.
    rewrite Hrf in Hstep.
    set (r := set_curthr (Some t) (set_runq [] (kern g))) in *.
    pose proof (k_conts _ _ _ _ _ _ _ Hinv t c k Hp) as Hres.
    destruct c; cbn [resumes_as] in Hres; [| |done]; rewrite Hres in Hstep.
    + erewrite lock_resume_Done in Hstep; [|done..].
      cbn in Hstep. injection Hstep as <-.
      exists mx. split; [done|]. cbn. apply tinv_record. by cbn.
    + destruct (threads r !! t) as [th|] eqn:Hth.
      2:{ by erewrite lock_cancellable_resume_unallocated in Hstep. }
      destruct (lock_cancellable_resume_returns mtx r mx t
                  (delete t (parked g))
                  (own_upd (fun t' => owns t' (history g)) t true)
                  (served (history g) ++ [t]))
        with (th := th)
        as (v & s' & mx' & E' & Hm2 & _ & Ht2 & _); try done.
      { apply lookup_delete_eq. }
      { unfold own_upd. by rewrite decide_True. }
      rewrite E' in Hstep. cbn in Hstep. injection Hstep as <-.
      exists mx'. split; [done|]. cbn.
      apply tinv_record. cbn.
      eapply tinv_ext; [exact Ht2|]. intros t'. apply own_upd_twice.
Qed.

Lemma sys_initial_tinv mtx g : sys_initial mtx g -> sys_tinv mtx g.
Proof.
  intros [Hm Hrq Hlg Hp Hh]. exists kmutex_initial. split; [done|].
  rewrite Hrq. split; cbn; try done.
  - intros t Hin. by apply elem_of_nil in Hin.
  - intros t Hin. by apply elem_of_nil in Hin.
Qed.

Lemma sys_run_tinv mtx es g g' :
  sys_inv mtx g -> sys_tinv mtx g -> sys_run mtx g es = Some g' ->
  sys_inv mtx g' /\ sys_tinv mtx g'.
Proof.
  revert g. induction es as [|e es IH]; intros g Hinv Ht Hrun; cbn in Hrun.
  - by injection Hrun as <-.
  - destruct (sys_step mtx g e) as [g1|] eqn:Hstep; [|done].
    eauto using sys_step_inv, sys_step_tinv.
Qed.

(** A state reached by a run from a freshly initialised mutex, with its
    mutex and both parts of the invariant. *)
Lemma reachable_invariants mtx g0 es g :
  sys_initial mtx g0 -> sys_run mtx g0 es = Some g ->
  exists mx,
    mutexes (kern g) !! mtx = Some mx
    /\ kinv mtx mx (kt_runq (kern g)) (klog (kern g)) (parked g)
            (fun t => owns t (history g)) (served (history g))
    /\ tinv mtx mx (kt_runq (kern g)) (threads (kern g)) (parked g)
            (fun t => owns t (history g)).
Proof.
  intros Hinit Hrun.
  destruct (sys_run_tinv mtx es g0 g (sys_initial_inv _ _ Hinit)
              (sys_initial_tinv _ _ Hinit) Hrun)
    as [(mx & Hm & Hk) (mx' & Hm' & Ht)].
  simplify_eq. eauto.
Qed.



(** ** Calls and resumptions in reachable states *)

Section Reachable.
Variables (mtx : mid) (g0 g : sys) (es : list event).
Hypothesis Hinit : sys_initial mtx g0.
Hypothesis Hrun : sys_run mtx g0 es = Some g.

(** What [kmutex_unlock] by thread [t] leaves of the queue [l]. *)
Lemma owner_unlock_steps t :
  parked g !! t = None -> owns t (history g) = true ->
  exists g',
    sys_step mtx g (Call t CUnlock) = Some g'
    /\ history g' = history g ++ [mk_returned t CUnlock 0 false]
    /\ match waiters_of mtx (kern g) with
       | [] =>
           holder_of mtx (kern g') = None /\ waiters_of mtx (kern g') = []
           /\ kt_runq (kern g') = []
       | t2 :: rest =>
           holder_of mtx (kern g') = Some t2
           /\ waiters_of mtx (kern g') = rest
           /\ kt_runq (kern g') = [t2]
       end.
Proof.
  intros Hp Ho.
  destruct (reachable_invariants mtx g0 es g Hinit Hrun)
    as (mx & Hm & Hk & Ht).
  destruct (k_owner _ _ _ _ _ _ _ Hk t Ho) as [Hh _].
  destruct (kmutex_unlock_returns mtx (set_curthr (Some t) (kern g)) mx t
              (parked g) _ _ eq_refl Hm Hp Hh Hk Ht)
    as (s' & mx' & E & _ & Hm' & _ & _ & Hl).
  eexists. split.
  { cbn [sys_step]. rewrite Hp. cbn [run_call].
    erewrite bind_Done by exact E. reflexivity. }
  cbn. split; [done|]. unfold waiters_of, holder_of. by rewrite Hm, Hm'.
Qed.

(** A thread on the run queue can be switched to, and its call returns. *)
Lemma runnable_resumes t :
  t ∈ kt_runq (kern g) ->
  exists c k th g' v,
    parked g !! t = Some (c, k)
    /\ threads (kern g) !! t = Some th
    /\ sys_step mtx g (Resume t) = Some g'
    /\ history g' = history g ++ [mk_returned t c v true]
    /\ ((v = 0 /\ holder_of mtx (kern g') = Some t
         /\ waiters_of mtx (kern g') = waiters_of mtx (kern g)
         /\ (c = CLock \/ kt_cancelled th = 0))
        \/ (v = - EINTR /\ c = CLockCancellable /\ kt_cancelled th <> 0
            /\ match waiters_of mtx (kern g) with
               | [] =>
                   holder_of mtx (kern g') = None
                   /\ waiters_of mtx (kern g') = []
                   /\ kt_runq (kern g') = []
               | t2 :: rest =>
                   holder_of mtx (kern g') = Some t2
                   /\ waiters_of mtx (kern g') = rest
                   /\ kt_runq (kern g') = [t2]
               end)).
Proof.
  intros Hin.
  destruct (reachable_invariants mtx g0 es g Hinit Hrun)
    as (mx & Hm & Hk & Ht).
  destruct (t_runnable _ _ _ _ _ _ Ht t Hin) as (th & Hth & _).
  assert (is_Some (parked g !! t)) as [[c k] Hp].
  { destruct (k_runq _ _ _ _ _ _ _ Hk) as [E|(t' & E & _ & Hs)];
      rewrite E in Hin; [by apply elem_of_nil in Hin|].
    by apply list_elem_of_singleton in Hin as ->. }
  destruct (kinv_resume _ _ _ _ _ _ _ Hk t) as (Hh & Hrf & Hk');
    [by eexists|done|].
  pose proof (tinv_resume _ _ _ _ _ _ _ _ Hk Ht t
                ltac:(by eexists) Hin) as Ht'.
  pose proof (k_conts _ _ _ _ _ _ _ Hk t c k Hp) as Hres.
  set (r := set_curthr (Some t) (set_runq [] (kern g))).
  assert (sys_step mtx g (Resume t) = settle t c true (k r) g) as Hstep.
  { cbn. rewrite Hp. unfold sched_dispatch.
    by rewrite bool_decide_eq_true_2, Hrf by done. }
  exists c, k, th. destruct c; cbn [resumes_as] in Hres; [| |done].
  - exists (mk_sys r (delete t (parked g))
                   (history g ++ [mk_returned t CLock 0 true])), 0.
    split; [done|]. split; [done|]. split.
    { rewrite Hstep, Hres. by erewrite lock_resume_Done. }
    split; [done|]. left. unfold holder_of, waiters_of. cbn. rewrite Hm.
    split; [done|]. split; [done|]. split; [done|]. by left.
  - destruct (lock_cancellable_resume_returns mtx r mx t
                (delete t (parked g))
                (own_upd (fun t' => owns t' (history g)) t true)
                (served (history g) ++ [t])
                eq_refl Hm (lookup_delete_eq _ _) Hh Hk' Ht' th Hth)
      as (v & s' & mx' & E & Hm' & _ & _ & Hv).
    { unfold own_upd. by rewrite decide_True. }
    exists (mk_sys s' (delete t (parked g))
                   (history g ++ [mk_returned t CLockCancellable v true])), v.
    split; [done|]. split; [done|].
    split; [by rewrite Hstep, Hres, E|]. split; [done|].
    destruct Hv as [(Hz & -> & ->)|(Hz & -> & Hu)].
    + left. unfold holder_of, waiters_of. cbn. rewrite Hm.
      split; [done|]. split; [done|]. split; [done|]. by right.
    + right. split; [done|]. split; [done|]. split; [done|].
      destruct (kmutex_unlock_returns mtx r mx t (delete t (parked g)) _ _
                  eq_refl Hm (lookup_delete_eq _ _) Hh Hk' Ht')
        as (s2 & mx2 & E2 & _ & Hm2 & _ & _ & Hl).
      rewrite Hu in E2. injection E2 as <-.
      unfold waiters_of, holder_of. cbn. by rewrite Hm, Hm2.
Qed.

(** A lock call by a thread that is neither parked nor the owner: on a free
    mutex it returns at once; on a held mutex it parks at the tail, and its
    return is not recorded. *)
Lemma lock_call_steps t c :
  c = CLock \/ c = CLockCancellable ->
  parked g !! t = None ->
  (forall g',
     sys_step mtx g (Call t c) = Some g' ->
     (holder_of mtx (kern g) = None
      /\ waiters_of mtx (kern g) = [] /\ kt_runq (kern g) = []
      /\ exists v, history g' = history g ++ [mk_returned t c v false])
     \/ (holder_of mtx (kern g) <> None
         /\ holder_of mtx (kern g') = holder_of mtx (kern g)
         /\ waiters_of mtx (kern g') = waiters_of mtx (kern g) ++ [t]
         /\ is_Some (parked g' !! t)
         /\ history g' = history g))
  /\ (owns t (history g) = false -> is_Some (threads (kern g) !! t) ->
      is_Some (sys_step mtx g (Call t c))).
Proof.
  intros Hc Hp.
  destruct (reachable_invariants mtx g0 es g Hinit Hrun)
    as (mx & Hm & Hk & Ht).
  set (s := set_curthr (Some t) (kern g)).
  assert (sys_step mtx g (Call t c) = settle t c false (run_call mtx c s) g)
    as Hstep by (cbn; by rewrite Hp).
  rewrite Hstep. unfold holder_of, waiters_of. rewrite Hm.
  destruct (km_holder mx) as [h|] eqn:Hh.
  - (* held *)
    destruct (decide (h = t)) as [->|Hne].
    { assert (run_call mtx c s = Fault s) as ->.
      { destruct Hc as [-> | ->]; cbn [run_call].
        - by erewrite bind_Fault by (by eapply kmutex_lock_self).
        - by eapply kmutex_lock_cancellable_self. }
      split; [done|]. intros Ho _.
      destruct (t_holder _ _ _ _ _ _ Ht t Hh) as [Ho'|Hin]; [congruence|].
      destruct (k_runq _ _ _ _ _ _ _ Hk) as [E|(t' & E & _ & [x Hx])];
        rewrite E in Hin; [by apply elem_of_nil in Hin|].
      apply list_elem_of_singleton in Hin as ->. congruence. }
    destruct (threads (kern g) !! t) as [th|] eqn:Hth.
    2:{ assert (run_call mtx c s = Fault s) as ->.
        { destruct Hc as [-> | ->]; cbn [run_call].
          - by erewrite bind_Fault
              by (by eapply kmutex_lock_held_unallocated).
          - by eapply kmutex_lock_cancellable_held_unallocated. }
        split; [done|]. by intros _ []. }
    assert (exists st k,
              run_call mtx c s = Suspended (parked_state st mtx mx t th s) k)
      as (st & k & ->).
    { destruct Hc as [-> | ->]; cbn [run_call]; eexists _, _.
      - by erewrite bind_Suspended by (by eapply kmutex_lock_held).
      - by eapply kmutex_lock_cancellable_held. }
    cbn. split; [|by eexists]. intros g' [= <-]. right. cbn.
    rewrite !lookup_insert_eq. done.
  - (* free *)
    pose proof (k_free_empty _ _ _ _ _ _ _ Hk Hh) as Hl.
    pose proof (free_runq _ _ _ _ _ _ _ Hk Hh) as Hrq.
    split.
    + intros g' Hs. left. split; [done|]. split; [done|]. split; [done|].
      destruct (run_call mtx c s) as [v s'|s'|s' k] eqn:E;
        cbn in Hs; [|done|].
      * injection Hs as <-. by exists v.
      * exfalso. destruct Hc as [-> | ->]; cbn [run_call] in E.
        -- by erewrite bind_Done in E by (by eapply kmutex_lock_free).
        -- erewrite kmutex_lock_cancellable_free in E by done.
           pose proof (lock_cancellable_resume_never_parks mtx
                         (holder_set mtx mx (Some t) s)) as Hn.
           by rewrite E in Hn.
    + intros Ho [th Hth]. destruct Hc as [-> | ->]; cbn [run_call].
      * erewrite bind_Done by (by eapply kmutex_lock_free). by eexists.
      * erewrite kmutex_lock_cancellable_free by done.
        destruct (lock_cancellable_resume_returns mtx
                    (holder_set mtx mx (Some t) s)
                    (set_km_holder (Some t) mx) t (parked g)
                    (own_upd (fun t' => owns t' (history g)) t true)
                    (served (history g)))
          with (th := th)
          as (v & s' & mx' & E & _); try done.
        { cbn. apply lookup_insert_eq. }
        { cbn. by apply kinv_claim. }
        { cbn. by apply tinv_claim. }
        { unfold own_upd. by rewrite decide_True. }
        rewrite E. by eexists.
Qed.
End Reachable.


Lemma demo_cancelled_schedule_runs :
  sys_run 7%nat demo_sys demo_cancelled_schedule = Some demo_cancelled_sys.
Proof. vm_compute. reflexivity. Defined.



Lemma demo_waiting_sys_runs :
  sys_run 7%nat demo_sys (take 2 demo_schedule) = Some demo_waiting_sys.
Proof. vm_compute. reflexivity. Defined.

Lemma demo_queued_sys_steps :
  sys_step 7%nat demo_waiting_sys (Call 3%nat CLock) = Some demo_queued_sys.
Proof. vm_compute. reflexivity. Defined.




(** ** Cancellation and the other two functions *)

Lemma handoff_state_with_flag mtx mx t rest th t0 z s :
  threads s !! t = Some th ->
  exists th',
    threads (with_flag t0 z s) !! t = Some th'
    /\ handoff_state mtx mx t rest th' (with_flag t0 z s)
       = with_flag t0 z (handoff_state mtx mx t rest th s).
Proof.
  intros Ht. unfold handoff_state, with_flag. cbn.
  destruct (decide (t0 = t)) as [->|Hne].
  - exists (set_kt_cancelled z th).
    split; [by rewrite lookup_alter_eq, Ht|].
    unfold set_threads. cbn. f_equal.
    by rewrite insert_alter_eq, alter_insert_eq.
  - exists th. split; [by rewrite lookup_alter_ne|].
    unfold set_threads. cbn. f_equal. by rewrite alter_insert_ne.
Qed.

Lemma kmutex_unlock_with_flag_Done mtx t z s s' :
  kmutex_unlock mtx s = Done tt s' ->
  kmutex_unlock mtx (with_flag t z s) = Done tt (with_flag t z s').
Proof.
  intros Hrun.
  destruct (kmutex_unlock_cases s mtx)
    as [[s1 E]|[(c & mx & Hc & Hm & Hh & Hsz & E)
               |(c & mx & t2 & rest & th & Hc & Hm & Hh & Hsz & Hl & Ht
                 & Hne & E)]];
    rewrite E in Hrun; [done|..]; injection Hrun as <-.
  - by erewrite kmutex_unlock_free.
  - destruct (handoff_state_with_flag mtx mx t2 rest th t z s Ht)
      as (th' & Ht' & <-).
    by eapply kmutex_unlock_handoff.
Qed.

(** X13: [kmutex_unlock] does not look at [kt_cancelled].  If it returns
    from a state, it returns from the same state with any thread's flag
    overwritten, in the same end state up to that flag.  In particular a
    cancelled holder unlocks like any other, and a waiter at the head of the
    queue is handed the mutex whether or not it has been cancelled: the
    hand-off never skips a thread. *)
Theorem unlock_ignores_cancellation (mtx : mid) (s s' : kstate) (t : tid)
    (z : Z) :
  kmutex_unlock mtx s = Done tt s' ->
  kmutex_unlock mtx (with_flag t z s) = Done tt (with_flag t z s')
  /\ holder_of mtx (with_flag t z s') = holder_of mtx s'
  /\ waiters_of mtx (with_flag t z s') = waiters_of mtx s'
  /\ kt_runq (with_flag t z s') = kt_runq s'.
Proof.
  intros Hrun. split; [by apply kmutex_unlock_with_flag_Done|done].
Qed.

(** Instance of X13: on the contended example the head of the queue,
    thread 2, is cancelled before thread 1 unlocks, and gets the mutex. *)
Lemma unlock_ignores_cancellation_witness :
  kmutex_unlock 7%nat (with_flag 2%nat 1 demo_contended)
  = Done tt (with_flag 2%nat 1
               (handoff_state 7%nat demo_waiting 2%nat [3%nat] demo_thread
                  demo_contended))
  /\ holder_of 7%nat
       (with_flag 2%nat 1
          (handoff_state 7%nat demo_waiting 2%nat [3%nat] demo_thread
             demo_contended))
     = Some 2%nat.
Proof.
  assert (kmutex_unlock 7%nat demo_contended
          = Done tt (handoff_state 7%nat demo_waiting 2%nat [3%nat]
                       demo_thread demo_contended)) as E
    by (vm_compute; reflexivity).
  destruct (unlock_ignores_cancellation 7%nat demo_contended _ 2%nat 1 E)
    as (E' & Hh & _).
  split; [exact E'|]. rewrite Hh. reflexivity.
Defined.

(** X14: [kmutex_lock_cancellable] tests [kt_cancelled] only after the
    caller has the mutex (line 82 follows the [sched_switch] of line 75).  A
    caller whose flag is already set does not return early on a held mutex:
    whatever the flag is when it calls, it parks exactly as with a clear
    flag.  What decides between 0 and [-EINTR] is the flag in the state in
    which the caller is resumed as holder. *)
Theorem cancellable_lock_tests_the_flag_after_the_grant (mtx : mid)
    (s : kstate) (c h : tid) (mx : kmutex) (th : kthread) :
  curthr s = Some c ->
  mutexes s !! mtx = Some mx ->
  km_holder mx = Some h ->
  h <> c ->
  threads s !! c = Some th ->
  (forall z,
     kmutex_lock_cancellable mtx (with_flag c z s)
     = Suspended
         (with_flag c z (parked_state KT_SLEEP_CANCELLABLE mtx mx c th s))
         (lock_cancellable_resume mtx))
  /\ (forall r tr z,
        curthr r = Some c -> holder_of mtx r = Some c ->
        threads r !! c = Some tr ->
        lock_cancellable_resume mtx (with_flag c 0 r)
        = Done 0 (with_flag c 0 r)
        /\ (z <> 0 ->
            lock_cancellable_resume mtx (with_flag c z r)
            = (kmutex_unlock mtx ;;; ret (- EINTR)) (with_flag c z r))).
Proof.
  intros Hc Hm Hh Hne Ht. split.
  - intros z.
    destruct (parked_state_with_flag KT_SLEEP_CANCELLABLE mtx mx c th c z s
                Ht) as (th' & Ht' & <-).
    by eapply kmutex_lock_cancellable_held.
  - intros r tr z Hcr Hhr Htr.
    apply holder_of_Some in Hhr as (mr & Hmr & Hhr).
    assert (forall z', threads (with_flag c z' r) !! c
                       = Some (set_kt_cancelled z' tr)) as Hf.
    { intros z'. unfold with_flag. cbn. by rewrite lookup_alter_eq, Htr. }
    split.
    + by eapply lock_cancellable_resume_clear.
    + intros Hz. by eapply lock_cancellable_resume_cancelled.
Qed.

(** Instance of X14: thread 3, cancelled before it calls, parks while
    thread 1 holds the mutex. *)
Lemma cancellable_lock_tests_the_flag_after_the_grant_witness :
  kmutex_lock_cancellable 7%nat
    (with_flag 3%nat 1 (set_curthr (Some 3%nat) demo_held))
  = Suspended
      (with_flag 3%nat 1
         (parked_state KT_SLEEP_CANCELLABLE 7%nat
            (mk_kmutex (mk_ktqueue [] 0) (Some 1%nat)) 3%nat
            (set_kt_cancelled 1 demo_thread)
            (set_curthr (Some 3%nat) demo_held)))
      (lock_cancellable_resume 7%nat).
Proof.
  exact (proj1 (cancellable_lock_tests_the_flag_after_the_grant 7%nat
                  (set_curthr (Some 3%nat) demo_held) 3%nat 1%nat
                  (mk_kmutex (mk_ktqueue [] 0) (Some 1%nat))
                  (set_kt_cancelled 1 demo_thread)
                  eq_refl eq_refl eq_refl ltac:(discriminate) eq_refl) 1).
Defined.

(** * Runs with cancellation and a shared run queue *)

(** ** Lists with one element taken out *)

Lemma remove_first_elem_ne t x l :
  x <> t -> x ∈ remove_first t l <-> x ∈ l.
Proof.
  intros Hne. induction l as [|y l IH]; cbn; [done|].
  destruct (decide (y = t)) as [->|Hy].
  - rewrite elem_of_cons. split; [by right|]. by intros [->|?].
  - by rewrite !elem_of_cons, IH.
Qed.

Lemma remove_first_subset t x l : x ∈ remove_first t l -> x ∈ l.
Proof.
  induction l as [|y l IH]; cbn; [done|].
  destruct (decide (y = t)) as [->|Hy]; [by right|].
  rewrite !elem_of_cons. intros [->|Hin]; [by left|right; auto].
Qed.

Lemma remove_first_notin t l : t ∉ l -> remove_first t l = l.
Proof.
  induction l as [|y l IH]; cbn; [done|]. intros Hn.
  apply not_elem_of_cons in Hn as [Hne Hn].
  rewrite decide_False by done. by rewrite IH.
Qed.

Lemma remove_first_app_in t l1 l2 :
  t ∈ l1 -> remove_first t (l1 ++ l2) = remove_first t l1 ++ l2.
Proof.
  induction l1 as [|y l1 IH]; cbn; intros Hin.
  - by apply elem_of_nil in Hin.
  - destruct (decide (y = t)) as [->|Hy]; [done|].
    apply elem_of_cons in Hin as [->|Hin]; [done|]. by rewrite IH.
Qed.

Lemma remove_first_app_notin t l1 l2 :
  t ∉ l1 -> remove_first t (l1 ++ l2) = l1 ++ remove_first t l2.
Proof.
  induction l1 as [|y l1 IH]; cbn; intros Hn; [done|].
  apply not_elem_of_cons in Hn as [Hne Hn].
  rewrite decide_False by done. by rewrite IH.
Qed.

Lemma remove_first_length t l :
  t ∈ l -> S (length (remove_first t l)) = length l.
Proof.
  induction l as [|y l IH]; cbn; intros Hin.
  - by apply elem_of_nil in Hin.
  - destruct (decide (y = t)) as [->|Hy]; [done|].
    apply elem_of_cons in Hin as [->|Hin]; [done|]. cbn. by rewrite IH.
Qed.

Lemma remove_first_NoDup t l :
  NoDup l -> NoDup (remove_first t l) /\ t ∉ remove_first t l.
Proof.
  induction 1 as [|y l Hy Hnd [IH1 IH2]]; cbn.
  - split; [constructor|apply not_elem_of_nil].
  - destruct (decide (y = t)) as [->|Hne]; [done|]. split.
    + constructor; [|done]. intros Hin. by apply remove_first_subset in Hin.
    + apply not_elem_of_cons. by split.
Qed.

Lemma remove_last_app t g w :
  t ∈ w -> remove_last t (g ++ w) = g ++ remove_last t w.
Proof.
  intros Hin. unfold remove_last.
  rewrite reverse_app, remove_first_app_in by (by apply elem_of_reverse).
  by rewrite reverse_app, reverse_involutive.
Qed.

Lemma remove_last_NoDup t w : NoDup w -> remove_last t w = remove_first t w.
Proof.
  unfold remove_last. induction 1 as [|x w Hx Hnd IH]; [done|].
  rewrite reverse_cons. destruct (decide (t ∈ w)) as [Hin|Hn].
  - rewrite remove_first_app_in by (by apply elem_of_reverse).
    rewrite reverse_app, IH. cbn.
    rewrite decide_False; [done|]. by intros ->.
  - rewrite remove_first_app_notin by (by rewrite elem_of_reverse).
    rewrite reverse_app, reverse_involutive. cbn.
    destruct (decide (x = t)) as [->|Hne]; [done|].
    by rewrite remove_first_notin.
Qed.

(** ** The logs of arrivals and grants *)

Lemma admitted_snoc mtx l e :
  admitted mtx (l ++ [e])
  = match e with
    | EvEnqueue q t =>
        if decide (q = mtx) then admitted mtx l ++ [t] else admitted mtx l
    | EvRemove q t =>
        if decide (q = mtx) then remove_last t (admitted mtx l)
        else admitted mtx l
    | _ => admitted mtx l
    end.
Proof. unfold admitted. by rewrite foldl_app. Qed.

Lemma grants_snoc mtx l e :
  grants mtx (l ++ [e])
  = grants mtx l ++ match e with
                    | EvDequeue q t => if decide (q = mtx) then [t] else []
                    | _ => []
                    end.
Proof.
  unfold grants. rewrite omap_app. f_equal.
  destruct e as [q t|q t|q t|t|t]; cbn; try done.
  by destruct (decide (q = mtx)).
Qed.

Lemma arrivals_snoc mtx l e :
  arrivals mtx (l ++ [e])
  = arrivals mtx l ++ match e with
                      | EvEnqueue q t => if decide (q = mtx) then [t] else []
                      | _ => []
                      end.
Proof.
  unfold arrivals. rewrite omap_app. f_equal.
  destruct e as [q t|q t|q t|t|t]; cbn; try done.
  by destruct (decide (q = mtx)).
Qed.

(** Without a cancellation that took a waiter off the queue, the admitted
    threads are all the arrivals. *)
Lemma admitted_arrivals mtx l :
  (forall t, EvRemove mtx t ∉ l) -> admitted mtx l = arrivals mtx l.
Proof.
  induction l as [|e l IH] using rev_ind; [done|]. intros Hn.
  rewrite admitted_snoc, arrivals_snoc, IH.
  2:{ intros t Hin. apply (Hn t), elem_of_app. by left. }
  destruct e as [q t|q t|q t|t|t]; rewrite ?app_nil_r; try done.
  - by destruct (decide (q = mtx)); rewrite ?app_nil_r.
  - destruct (decide (q = mtx)) as [->|]; [|done].
    destruct (Hn t). apply elem_of_app. right. by left.
Qed.

(** ** Equations of the cancellation *)

Section Cancel.
Variables (s : kstate) (t : tid) (v : Z).

Lemma kthread_cancel_unallocated :
  threads s !! t = None -> kthread_cancel (Some t) v s = Fault s.
Proof.
  intros Ht. unfold kthread_cancel.
  by erewrite bind_Fault by (by apply load_thr_Fault).
Qed.

Variable th : kthread.
Hypothesis Ht : threads s !! t = Some th.

Lemma kthread_cancel_deferred :
  kt_state th <> KT_SLEEP_CANCELLABLE ->
  kthread_cancel (Some t) v s
  = Done tt (set_threads
               (<[t := set_kt_cancelled 1 (set_kt_retval v th)]> (threads s))
               s).
Proof.
  intros Hst. unfold kthread_cancel. kdone load_thr_Done.
  kdone update_thr_Done. by rewrite bool_decide_eq_false_2.
Qed.

Lemma kthread_cancel_wake q mq :
  kt_state th = KT_SLEEP_CANCELLABLE -> kt_wchan th = Some q ->
  mutexes s !! q = Some mq ->
  kthread_cancel (Some t) v s = Done tt (struck_state q mq t th v s).
Proof.
  intros Hst Hw Hq. unfold kthread_cancel. kdone load_thr_Done.
  kdone update_thr_Done. rewrite bool_decide_eq_true_2 by done. rewrite Hw.
  erewrite (bind_Done (ktqueue_remove q (Some t))); cycle 1.
  { unfold ktqueue_remove. kdone update_mtx_Done. kdone update_thr_Done.
    unfold emit. reflexivity. }
  kdone update_thr_Done. unfold sched_make_runnable, struck_state.
  knorm. done.
Qed.

Lemma kthread_cancel_wake_unallocated q :
  kt_state th = KT_SLEEP_CANCELLABLE -> kt_wchan th = Some q ->
  mutexes s !! q = None ->
  exists s', kthread_cancel (Some t) v s = Fault s'.
Proof.
  intros Hst Hw Hq. unfold kthread_cancel. kdone load_thr_Done.
  kdone update_thr_Done. rewrite bool_decide_eq_true_2 by done. rewrite Hw.
  eexists. erewrite bind_Fault; [done|].
  unfold ktqueue_remove. erewrite bind_Fault; [done|].
  apply update_mtx_Fault. by kheap.
Qed.

Lemma kthread_cancel_wake_unqueued :
  kt_state th = KT_SLEEP_CANCELLABLE -> kt_wchan th = None ->
  kthread_cancel (Some t) v s
  = Done tt
      (mk_kstate (curthr s)
         (<[t := set_kt_state KT_RUN
                   (set_kt_cancelled 1 (set_kt_retval v th))]> (threads s))
         (mutexes s) (kt_runq s ++ [t]) (klog s ++ [EvMakeRunnable t])).
Proof.
  intros Hst Hw. unfold kthread_cancel. kdone load_thr_Done.
  kdone update_thr_Done. rewrite bool_decide_eq_true_2 by done. rewrite Hw.
  unfold ret at 1. erewrite bind_Done by reflexivity.
  kdone update_thr_Done. unfold sched_make_runnable. knorm. done.
Qed.
End Cancel.

(** ** Transitions of the invariant *)

Lemma sleep_state_cancellable c :
  sleep_state c = KT_SLEEP_CANCELLABLE -> c = CLockCancellable.
Proof. by destruct c. Qed.

Section WideTransitions.
Variables (mtx : mid) (mx : kmutex) (rq : list tid) (lg : list kevent).
Variables (ts : gmap nat kthread).
Variables (P : gmap nat (call * (kstate -> Res Z))).
Variables (ow : tid -> bool) (sv : list tid).
Hypothesis Hinv : winv mtx mx rq lg ts P ow sv.

Lemma winv_ext ow' :
  (forall t, ow' t = ow t) -> winv mtx mx rq lg ts P ow' sv.
Proof.
  intros E. destruct Hinv. split; try done.
  - intros t Ht. rewrite E in Ht. auto.
  - intros t Ht. rewrite E. auto.
Qed.

Lemma w_unparked_not_linked t :
  P !! t = None -> t ∉ tq_list (km_waitq mx).
Proof.
  intros Hp Hin.
  destruct (w_waiting _ _ _ _ _ _ _ _ Hinv t Hin)
    as (_ & th & c & k & _ & Hp' & _).
  congruence.
Qed.

Lemma w_unparked_holder t :
  P !! t = None -> km_holder mx = Some t -> ow t = true.
Proof.
  intros Hp Hh. destruct (w_holder _ _ _ _ _ _ _ _ Hinv t Hh) as [?|[x Hx]];
    [done|congruence].
Qed.

Lemma handed_to_unparked t :
  km_holder mx = Some t -> P !! t = None -> handed_to mx P = [].
Proof. unfold handed_to. by intros -> ->. Qed.

Lemma handed_to_free : km_holder mx = None -> handed_to mx P = [].
Proof. unfold handed_to. by intros ->. Qed.

(** A parked thread on the run queue that is not the holder. *)
Lemma w_parked_other t c k t0 :
  P !! t = Some (c, k) -> km_holder mx <> Some t ->
  resumes_as mtx c k
  /\ (t ∈ tq_list (km_waitq mx)
      \/ (t ∈ rq
          /\ exists th,
               ts !! t = Some th /\ kt_state th = KT_RUN
               /\ (t0 = Some t
                   \/ (c = CLockCancellable /\ kt_cancelled th <> 0)))).
Proof.
  intros Hp Hh. destruct (w_parked _ _ _ _ _ _ _ _ Hinv t c k Hp)
    as [Hres [Hin|(Hin & th & Hth & Hst & [?|?])]]; [by auto|done|].
  split; [done|]. right. split; [done|]. exists th. auto.
Qed.

(** The caller claims the free mutex. *)
Lemma winv_claim t :
  P !! t = None -> km_holder mx = None ->
  winv mtx (set_km_holder (Some t) mx) rq lg ts P (own_upd ow t true) sv.
Proof.
  intros Hp Hh. pose proof w_parked_other as Hpo.
  pose proof (handed_to_free Hh) as Hhd.
  destruct Hinv as [Hcount Hnd Hunl Hfe Hw Hwc Hpk How Hho Hfq Hfs].
  specialize (Hfe Hh). split; cbn; try done.
  - intros t' _. rewrite Hfe. apply not_elem_of_nil.
  - intros t' c k Hp'. apply Hpo; [done|congruence].
  - intros t'. unfold own_upd. destruct (decide (t = t')) as [<-|Hne].
    + done.
    + intros Ho. destruct (How t' Ho). congruence.
  - intros t' [= <-]. left. unfold own_upd. by rewrite decide_True.
  - rewrite Hfs, Hhd. unfold handed_to. cbn. by rewrite Hp.
Qed.

(** The caller parks at the tail of the wait queue. *)
Lemma winv_park t c k h th ev :
  P !! t = None -> t ∉ rq -> km_holder mx = Some h -> h <> t ->
  ts !! t = Some th -> resumes_as mtx c k ->
  winv mtx
    (mk_kmutex (mk_ktqueue (tq_list (km_waitq mx) ++ [t])
                           (tq_size (km_waitq mx) + 1))
               (km_holder mx))
    rq ((lg ++ [EvEnqueue mtx t]) ++ [EvSwitch ev])
    (<[t := set_kt_wchan (Some mtx) (set_kt_state (sleep_state c) th)]> ts)
    (<[t := (c, k)]> P) ow sv.
Proof.
  intros Hp Hrq Hh Hne Hth Hres.
  pose proof (w_unparked_not_linked t Hp) as Hnl.
  destruct Hinv as [Hcount Hnd Hunl Hfe Hw Hwc Hpk How Hho Hfq Hfs].
  split; cbn.
  - rewrite length_app. cbn. lia.
  - apply NoDup_app. split; [done|]. split; [|apply NoDup_singleton].
    intros x Hx Hx'. apply list_elem_of_singleton in Hx'. by subst.
  - intros t' Ht' Hin. apply elem_of_app in Hin as [Hin|Hin].
    + by apply (Hunl t').
    + apply list_elem_of_singleton in Hin. congruence.
  - congruence.
  - intros t' Hin. apply elem_of_app in Hin as [Hin|Hin].
    + destruct (Hw t' Hin) as (? & th' & c' & k' & ? & ? & ? & ?).
      assert (t <> t') by congruence. split; [done|].
      exists th', c', k'. by rewrite !lookup_insert_ne.
    + apply list_elem_of_singleton in Hin as ->. split; [done|].
      eexists _, c, k. by rewrite !lookup_insert_eq.
  - intros t' th' Hl Hwch. apply elem_of_app.
    destruct (decide (t = t')) as [<-|Hne']; [right; left|left].
    rewrite lookup_insert_ne in Hl by done. eauto.
  - intros t' c' k' Hl. destruct (decide (t = t')) as [<-|Hne'].
    + rewrite lookup_insert_eq in Hl. injection Hl as <- <-.
      split; [done|]. left. apply elem_of_app. right. left.
    + rewrite lookup_insert_ne in Hl by done.
      destruct (Hpk t' c' k' Hl) as [? [Hin|(Hin & th' & ? & ?)]];
        (split; [done|]).
      * left. apply elem_of_app. by left.
      * right. split; [done|]. exists th'. by rewrite lookup_insert_ne.
  - intros t' Ho. destruct (How t' Ho) as [Hh' Hp']. split; [done|].
    rewrite lookup_insert_ne; [done|]. congruence.
  - intros t' Hh'. destruct (Hho t' Hh') as [?|Hs]; [by left|right].
    apply lookup_insert_is_Some'. by right.
  - rewrite !admitted_snoc, !grants_snoc, decide_True by done.
    by rewrite !app_nil_r, Hfq, app_assoc.
  - rewrite !grants_snoc, !app_nil_r, Hfs. unfold handed_to.
    cbn [km_holder]. rewrite Hh. by rewrite lookup_insert_ne.
Qed.

Lemma w_own_upd_release t t' :
  km_holder mx = Some t -> own_upd ow t false t' = true -> False.
Proof.
  intros Hh. unfold own_upd. destruct (decide (t = t')) as [<-|Hne].
  - done.
  - intros Ho. destruct (w_owner _ _ _ _ _ _ _ _ Hinv t' Ho). congruence.
Qed.

(** The holder releases the mutex while nobody waits. *)
Lemma winv_release_free t :
  P !! t = None -> km_holder mx = Some t -> tq_size (km_waitq mx) = 0 ->
  winv mtx (set_km_holder None mx) rq lg ts P (own_upd ow t false) sv.
Proof.
  intros Hp Hh Hsz. pose proof w_parked_other as Hpo.
  pose proof (w_own_upd_release t) as Hrel.
  pose proof (handed_to_unparked t Hh Hp) as Hhd.
  destruct Hinv as [Hcount Hnd Hunl Hfe Hw Hwc Hpk How Hho Hfq Hfs].
  split; cbn; try done.
  - intros _. apply length_zero_iff_nil. lia.
  - intros t' c k Hp'. apply Hpo; [done|congruence].
  - intros t' Ho. destruct (Hrel t' Hh Ho).
  - by rewrite Hfs, Hhd.
Qed.

(** The holder passes the mutex to the head of the wait queue. *)
Lemma winv_release_handoff t t2 rest th :
  P !! t = None -> km_holder mx = Some t ->
  tq_list (km_waitq mx) = t2 :: rest -> ts !! t2 = Some th ->
  winv mtx
    (mk_kmutex (mk_ktqueue rest (tq_size (km_waitq mx) - 1)) (Some t2))
    (rq ++ [t2]) ((lg ++ [EvDequeue mtx t2]) ++ [EvMakeRunnable t2])
    (<[t2 := set_kt_state KT_RUN (set_kt_wchan None th)]> ts)
    P (own_upd ow t false) sv.
Proof.
  intros Hp Hh Hl Hth. pose proof w_parked_other as Hpo.
  pose proof (w_own_upd_release t) as Hrel.
  pose proof (handed_to_unparked t Hh Hp) as Hhd.
  destruct Hinv as [Hcount Hnd Hunl Hfe Hw Hwc Hpk How Hho Hfq Hfs].
  rewrite Hl in *. apply NoDup_cons in Hnd as [Hnin Hnd].
  destruct (Hw t2) as (Hrq2 & th2 & c2 & k2 & ? & Hp2 & _); [left|].
  split; cbn; try done.
  - rewrite Hcount. cbn [length]. lia.
  - by intros t' [= <-].
  - intros t' Hin. destruct (Hw t') as (? & th' & c' & k' & ? & ? & ? & ?);
      [by right|].
    assert (t2 <> t') by (by intros <-). split.
    + intros Hin'. apply elem_of_app in Hin' as [?|Hin']; [done|].
      by apply list_elem_of_singleton in Hin'.
    + exists th', c', k'. by rewrite lookup_insert_ne.
  - intros t' th' Hl' Hwch. destruct (decide (t2 = t')) as [<-|Hne'].
    + rewrite lookup_insert_eq in Hl'. by injection Hl' as <-.
    + rewrite lookup_insert_ne in Hl' by done.
      specialize (Hwc t' th' Hl' Hwch).
      by apply elem_of_cons in Hwc as [->|?].
  - intros t' c k Hp'. destruct (decide (t2 = t')) as [<-|Hne'].
    + destruct (Hpk t2 c k Hp') as [? _]. split; [done|]. right.
      split; [apply elem_of_app; right; left|].
      eexists. rewrite lookup_insert_eq. split; [done|]. split; [done|].
      by left.
    + destruct (Hpo t' c k None Hp')
        as [? [Hin|(Hin & th' & ? & ? & Hd)]]; [congruence|..];
        (split; [done|]).
      * left. by apply elem_of_cons in Hin as [->|?].
      * right. split; [apply elem_of_app; by left|].
        exists th'. rewrite lookup_insert_ne by done.
        split; [done|]. split; [done|]. right. by destruct Hd.
  - intros t' Ho. destruct (Hrel t' Hh Ho).
  - intros t' [= <-]. right. by eexists.
  - rewrite !admitted_snoc, !grants_snoc, decide_True by done.
    by rewrite app_nil_r, Hfq, <- app_assoc.
  - rewrite !grants_snoc, decide_True by done.
    rewrite app_nil_r, Hfs, Hhd, app_nil_r. unfold handed_to. cbn.
    by rewrite Hp2.
Qed.

(** The scheduler switches back to the parked holder. *)
Lemma winv_resume t c k :
  P !! t = Some (c, k) -> km_holder mx = Some t ->
  winv mtx mx (remove_first t rq) lg ts (delete t P) (own_upd ow t true)
       (sv ++ [t]).
Proof.
  intros Hp Hh. pose proof w_parked_other as Hpo.
  destruct Hinv as [Hcount Hnd Hunl Hfe Hw Hwc Hpk How Hho Hfq Hfs].
  split; cbn; try done.
  - intros t' Hin. destruct (Hw t' Hin) as (? & th' & c' & k' & ? & ? & ?).
    assert (t <> t') by (intros <-; by apply (Hunl t)). split.
    + intros Hin'. by apply remove_first_subset in Hin'.
    + exists th', c', k'. by rewrite lookup_delete_ne.
  - intros t' c' k' Hl. apply lookup_delete_Some in Hl as [Hne Hl].
    destruct (Hpo t' c' k' None Hl) as [? [Hin|(Hin & th' & ? & ? & Hd)]];
      [congruence|..]; (split; [done|]); [by left|right].
    split; [by apply remove_first_elem_ne|].
    exists th'. split; [done|]. split; [done|].
    right. by destruct Hd.
  - intros t'. unfold own_upd. destruct (decide (t = t')) as [<-|Hne].
    + intros _. split; [done|]. apply lookup_delete_eq.
    + intros Ho. destruct (How t' Ho). congruence.
  - intros t' Hh'. left. unfold own_upd. rewrite decide_True; congruence.
  - rewrite Hfs. unfold handed_to. rewrite Hh, Hp, lookup_delete_eq.
    by rewrite app_nil_r.
Qed.

(** A cancellation takes a thread asleep in [kmutex_lock_cancellable] off
    the wait queue and makes it runnable. *)
Lemma winv_strike t th v :
  t ∈ tq_list (km_waitq mx) -> ts !! t = Some th ->
  kt_state th = KT_SLEEP_CANCELLABLE ->
  winv mtx
    (mk_kmutex (mk_ktqueue (remove_first t (tq_list (km_waitq mx)))
                           (tq_size (km_waitq mx) - 1))
               (km_holder mx))
    (rq ++ [t]) ((lg ++ [EvRemove mtx t]) ++ [EvMakeRunnable t])
    (<[t := set_kt_state KT_RUN
              (set_kt_wchan None (set_kt_cancelled 1 (set_kt_retval v th)))]>
       ts)
    P ow sv.
Proof.
  intros Hin Hth Hst.
  destruct Hinv as [Hcount Hnd Hunl Hfe Hw Hwc Hpk How Hho Hfq Hfs].
  destruct (remove_first_NoDup t _ Hnd) as [Hnd' Hnin].
  destruct (Hw t Hin) as (Hrqt & th0 & c0 & k0 & ? & Hp0 & Hst0 & _).
  simplify_eq. rewrite Hst in Hst0.
  symmetry in Hst0. apply sleep_state_cancellable in Hst0 as ->.
  split; cbn; try done.
  - pose proof (remove_first_length t _ Hin). lia.
  - intros t' Hh' Hin'. apply remove_first_subset in Hin'.
    by apply (Hunl t').
  - intros Hh'. rewrite (Hfe Hh') in Hin. by apply elem_of_nil in Hin.
  - intros t' Hin'. assert (t <> t') by (by intros <-).
    apply remove_first_subset in Hin'.
    destruct (Hw t' Hin') as (? & th' & c' & k' & ? & ? & ? & ?). split.
    + intros Hin2. apply elem_of_app in Hin2 as [?|Hin2]; [done|].
      by apply list_elem_of_singleton in Hin2.
    + exists th', c', k'. by rewrite lookup_insert_ne.
  - intros t' th' Hl' Hwch. destruct (decide (t = t')) as [<-|Hne'].
    + rewrite lookup_insert_eq in Hl'. by injection Hl' as <-.
    + rewrite lookup_insert_ne in Hl' by done.
      apply remove_first_elem_ne; [done|]. eauto.
  - intros t' c k Hp'. destruct (decide (t = t')) as [<-|Hne'].
    + simplify_eq. destruct (Hpk t _ _ Hp0) as [? _]. split; [done|].
      right. split; [apply elem_of_app; right; left|].
      eexists. rewrite lookup_insert_eq. split; [done|]. split; [done|].
      by right.
    + destruct (Hpk t' c k Hp') as [? [Hin'|(Hin' & th' & ?)]];
        (split; [done|]).
      * left. by apply remove_first_elem_ne.
      * right. split; [apply elem_of_app; by left|].
        exists th'. by rewrite lookup_insert_ne.
  - rewrite !admitted_snoc, !grants_snoc, decide_True by done.
    rewrite !app_nil_r, Hfq, remove_last_app by done.
    by rewrite remove_last_NoDup.
  - by rewrite !grants_snoc, !app_nil_r.
Qed.

(** Changes that do not concern the mutex: the run queue changes for threads
    that are not parked, the log grows by calls on other queues, and thread
    objects change in fields the invariant does not read. *)
Lemma winv_frame rq' lg' ts' :
  (forall t, is_Some (P !! t) -> t ∈ rq' <-> t ∈ rq) ->
  admitted mtx lg' = admitted mtx lg -> grants mtx lg' = grants mtx lg ->
  (forall t th, ts !! t = Some th -> is_Some (P !! t) ->
     exists th', ts' !! t = Some th' /\ kt_state th' = kt_state th
                 /\ kt_wchan th' = kt_wchan th
                 /\ (kt_cancelled th <> 0 -> kt_cancelled th' <> 0)) ->
  (forall t th', ts' !! t = Some th' -> kt_wchan th' = Some mtx ->
     exists th, ts !! t = Some th /\ kt_wchan th = Some mtx) ->
  winv mtx mx rq' lg' ts' P ow sv.
Proof.
  intros Hrq Ha Hg Hkeep Hback.
  destruct Hinv as [Hcount Hnd Hunl Hfe Hw Hwc Hpk How Hho Hfq Hfs].
  split; try done.
  - intros t Hin. destruct (Hw t Hin) as (? & th & c & k & Hth & Hp & ? & ?).
    destruct (Hkeep t th Hth) as (th' & ? & E1 & E2 & _); [by eexists|].
    split; [rewrite Hrq by (by eexists); done|].
    exists th', c, k. by rewrite E1, E2.
  - intros t th' Hl Hwch. destruct (Hback t th' Hl Hwch) as (th & ? & ?).
    eauto.
  - intros t c k Hp.
    destruct (Hpk t c k Hp) as [? [Hin|(Hin & th & Hth & Hst & Hd)]];
      (split; [done|]); [by left|right].
    destruct (Hkeep t th Hth) as (th' & ? & E1 & E2 & E3); [by eexists|].
    split; [rewrite Hrq by (by eexists); done|].
    exists th'. split; [done|]. split; [congruence|].
    destruct Hd as [?|[? ?]]; [by left|right; auto].
  - by rewrite Ha, Hg.
  - by rewrite Hg.
Qed.
End WideTransitions.

Lemma winv_record mtx mx rq lg ts P h t c v w :
  winv mtx mx rq lg ts P
       (own_upd (fun t' => owns t' h) t (acquired (mk_returned t c v w)))
       (served h ++ (if w then [t] else [])) ->
  winv mtx mx rq lg ts P
       (fun t' => owns t' (h ++ [mk_returned t c v w]))
       (served (h ++ [mk_returned t c v w])).
Proof.
  intros H. rewrite served_snoc. cbn [r_waited r_thread].
  eapply winv_ext; [exact H|]. intros t'. by rewrite owns_snoc.
Qed.

(** ** The mutex functions in a state that satisfies the invariant *)

Section WideStep.
Variables (mtx : mid) (s : kstate) (mx : kmutex) (t : tid).
Variables (P : gmap nat (call * (kstate -> Res Z))).
Variables (ow : tid -> bool) (sv : list tid).
Hypothesis Hc : curthr s = Some t.
Hypothesis Hm : mutexes s !! mtx = Some mx.
Hypothesis Hp : P !! t = None.
Hypothesis Hh : km_holder mx = Some t.
Hypothesis Hinv : winv mtx mx (kt_runq s) (klog s) (threads s) P ow sv.

(** [kmutex_unlock] by the holder returns: the mutex is free when nobody
    waited, and otherwise belongs to the head of the queue, which has joined
    the run queue. *)
Lemma kmutex_unlock_winv :
  exists s' mx',
    kmutex_unlock mtx s = Done tt s'
    /\ mutexes s' !! mtx = Some mx'
    /\ winv mtx mx' (kt_runq s') (klog s') (threads s') P
            (own_upd ow t false) sv
    /\ match tq_list (km_waitq mx) with
       | [] =>
           km_holder mx' = None /\ tq_list (km_waitq mx') = []
           /\ kt_runq s' = kt_runq s
       | t2 :: rest =>
           km_holder mx' = Some t2 /\ tq_list (km_waitq mx') = rest
           /\ kt_runq s' = kt_runq s ++ [t2] /\ is_Some (P !! t2)
       end.
Proof.
  pose proof (w_count _ _ _ _ _ _ _ _ Hinv) as Hcount.
  destruct (tq_list (km_waitq mx)) as [|t2 rest] eqn:Hl.
  - exists (holder_set mtx mx None s), (set_km_holder None mx).
    assert (tq_size (km_waitq mx) = 0) as Hsz by done.
    split; [by eapply kmutex_unlock_free|].
    split; [unfold holder_set; cbn; apply lookup_insert_eq|].
    split; [by apply winv_release_free|]. cbn. by rewrite Hl.
  - destruct (w_waiting _ _ _ _ _ _ _ _ Hinv t2)
      as (_ & th & c & k & Hth & Hp2 & _); [rewrite Hl; left|].
    assert (t2 <> t) as Hne.
    { intros ->. apply (w_holder_unlinked _ _ _ _ _ _ _ _ Hinv t Hh).
      rewrite Hl. left. }
    exists (handoff_state mtx mx t2 rest th s). eexists.
    split.
    { eapply kmutex_unlock_handoff; eauto. rewrite Hcount. cbn. lia. }
    split; [unfold handoff_state; cbn; apply lookup_insert_eq|].
    split; [cbn; by eapply winv_release_handoff|].
    cbn. split; [done|]. split; [done|]. split; [done|]. by eexists.
Qed.

(** The tail of the cancellable lock, run by the live thread that has the
    mutex: it returns 0 with the state untouched when the flag is clear, and
    [-EINTR] after [kmutex_unlock] when it is set. *)
Lemma lock_cancellable_resume_winv th :
  threads s !! t = Some th -> ow t = true ->
  exists v s' mx',
    lock_cancellable_resume mtx s = Done v s'
    /\ mutexes s' !! mtx = Some mx'
    /\ winv mtx mx' (kt_runq s') (klog s') (threads s') P
            (own_upd ow t (bool_decide (v = 0))) sv
    /\ ((kt_cancelled th = 0 /\ v = 0 /\ s' = s)
        \/ (kt_cancelled th <> 0 /\ v = - EINTR
            /\ kmutex_unlock mtx s = Done tt s')).
Proof.
  intros Hth How. destruct (decide (kt_cancelled th = 0)) as [Hz|Hz].
  - exists 0, s, mx.
    split; [by eapply lock_cancellable_resume_clear|]. split; [done|].
    split; [|by left]. eapply winv_ext; [exact Hinv|].
    intros t'. unfold own_upd. cbn. by destruct (decide (t = t')) as [<-|].
  - destruct kmutex_unlock_winv as (s' & mx' & E & ? & ? & _).
    exists (- EINTR), s', mx'. split.
    { erewrite lock_cancellable_resume_cancelled by done.
      by erewrite bind_Done. }
    split; [done|]. split; [done|]. by right.
Qed.
End WideStep.

(** ** The invariant holds along every run *)

Lemma moves_intro mtx a g g' mx mx' :
  mutexes (kern g) !! mtx = Some mx ->
  mutexes (kern g') !! mtx = Some mx' ->
  queue_move a (km_holder mx) (tq_list (km_waitq mx))
             (km_holder mx') (tq_list (km_waitq mx')) ->
  moves mtx a g g'.
Proof. unfold moves, holder_of, waiters_of. by intros -> ->. Qed.

Lemma call_step_winv mtx g t c g' :
  sys_winv mtx g -> kernel_step mtx g (Mutex (Call t c)) = Some g' ->
  sys_winv mtx g' /\ moves mtx (Mutex (Call t c)) g g'.
Proof.
  intros (mx & Hm & Hinv) Hstep. cbn [kernel_step] in Hstep.
  destruct (bool_decide (t ∈ kt_runq (kern g))) eqn:Hrq; [done|].
  apply bool_decide_eq_false in Hrq. cbn [sys_step] in Hstep.
  destruct (parked g !! t) eqn:Hp; [done|].
  set (s := set_curthr (Some t) (kern g)) in *.
  assert (curthr s = Some t) as Hc by done.
  assert (mutexes s !! mtx = Some mx) as Hm' by done.
  assert (winv mtx mx (kt_runq s) (klog s) (threads s) (parked g)
               (fun t' => owns t' (history g)) (served (history g)))
    as Hinv' by done.
  pose proof (w_unparked_not_linked _ _ _ _ _ _ _ _ Hinv t Hp) as Hnl.
  destruct c; cbn [run_call] in Hstep.
  - destruct (kmutex_lock_cases s mtx)
      as [E|[(c & mx1 & ? & ? & Hh & E)
            |(c & mx1 & h & th & ? & ? & Hh & Hne & Ht & E)]].
    + by erewrite bind_Fault in Hstep by exact E.
    + simplify_eq. erewrite bind_Done in Hstep by exact E.
      cbn in Hstep. injection Hstep as <-.
      assert (mutexes (holder_set mtx mx (Some t) s) !! mtx
              = Some (set_km_holder (Some t) mx)) as Hm2
        by (cbn; apply lookup_insert_eq).
      split.
      * exists (set_km_holder (Some t) mx). split; [done|].
        cbn. rewrite delete_id by done. apply winv_record. cbn.
        rewrite app_nil_r. by apply winv_claim.
      * eapply moves_intro; [done..|]. cbn.
        rewrite (w_free_empty _ _ _ _ _ _ _ _ Hinv Hh), Hh.
        by eapply qm_claim.
    + simplify_eq. erewrite bind_Suspended in Hstep by exact E.
      cbn in Hstep. injection Hstep as <-. split.
      * eexists. split; [cbn; apply lookup_insert_eq|].
        cbn. by eapply (winv_park _ _ _ _ _ _ _ _ Hinv t CLock).
      * eapply moves_intro; [done|cbn; apply lookup_insert_eq|]. cbn.
        eapply qm_join; [done|done|congruence|done].
  - destruct (kmutex_lock_cancellable_cases s mtx)
      as [[s' E]|[(c & mx1 & ? & ? & Hh & E)
                 |(c & mx1 & h & th & ? & ? & Hh & Hne & Ht & E)]].
    + by rewrite E in Hstep.
    + simplify_eq. rewrite E in Hstep.
      set (s1 := holder_set mtx mx (Some t) s) in *.
      assert (mutexes s1 !! mtx = Some (set_km_holder (Some t) mx)) as Hm2
        by (cbn; apply lookup_insert_eq).
      destruct (threads s1 !! t) as [th|] eqn:Hth.
      2:{ by erewrite lock_cancellable_resume_unallocated in Hstep. }
      pose proof (winv_claim _ _ _ _ _ _ _ _ Hinv t Hp Hh) as Hinv1.
      destruct (lock_cancellable_resume_winv mtx s1
                  (set_km_holder (Some t) mx) t (parked g)
                  (own_upd (fun t' => owns t' (history g)) t true)
                  (served (history g)) eq_refl Hm2 Hp eq_refl Hinv1 th Hth)
        as (v & s' & mx' & E' & Hm3 & Hinv3 & Hv).
      { unfold own_upd. by rewrite decide_True. }
      rewrite E' in Hstep. cbn in Hstep. injection Hstep as <-. split.
      * exists mx'. split; [done|]. cbn. rewrite delete_id by done.
        apply winv_record. cbn. rewrite app_nil_r.
        eapply winv_ext; [exact Hinv3|]. intros t'. apply own_upd_twice.
      * eapply moves_intro; [done..|].
        rewrite (w_free_empty _ _ _ _ _ _ _ _ Hinv Hh), Hh.
        destruct Hv as [(_ & _ & ->)|(_ & _ & Hu)].
        -- rewrite Hm2 in Hm3. injection Hm3 as <-. cbn.
           rewrite (w_free_empty _ _ _ _ _ _ _ _ Hinv Hh).
           by eapply qm_claim.
        -- destruct (kmutex_unlock_winv mtx s1 (set_km_holder (Some t) mx)
                       t (parked g) _ _ eq_refl Hm2 Hp eq_refl Hinv1)
             as (s2 & mx2 & E2 & Hm4 & _ & Hl).
           rewrite Hu in E2. injection E2 as <-. simplify_eq. cbn in Hl.
           rewrite (w_free_empty _ _ _ _ _ _ _ _ Hinv Hh) in Hl.
           destruct Hl as (-> & -> & _). apply qm_stay.
    + simplify_eq. rewrite E in Hstep.
      cbn in Hstep. injection Hstep as <-. split.
      * eexists. split; [cbn; apply lookup_insert_eq|].
        cbn. by eapply (winv_park _ _ _ _ _ _ _ _ Hinv t CLockCancellable).
      * eapply moves_intro; [done|cbn; apply lookup_insert_eq|]. cbn.
        eapply qm_join; [done|done|congruence|done].
  - destruct (decide (km_holder mx = Some t)) as [Hh|Hh].
    2:{ by erewrite bind_Fault in Hstep
          by (by eapply kmutex_unlock_not_holder). }
    destruct (kmutex_unlock_winv mtx s mx t (parked g) _ _
                Hc Hm' Hp Hh Hinv')
      as (s' & mx' & E & Hm2 & Hinv2 & Hl).
    erewrite bind_Done in Hstep by exact E.
    cbn in Hstep. injection Hstep as <-. split.
    + exists mx'. split; [done|]. cbn. rewrite delete_id by done.
      apply winv_record. cbn. by rewrite app_nil_r.
    + eapply moves_intro; [done..|]. rewrite Hh.
      destruct (tq_list (km_waitq mx)) as [|t2 rest].
      * destruct Hl as (-> & -> & _). by apply qm_free.
      * destruct Hl as (-> & -> & _). by eapply qm_pass.
Qed.

Lemma resume_step_winv mtx g t g' :
  sys_winv mtx g -> kernel_step mtx g (Mutex (Resume t)) = Some g' ->
  sys_winv mtx g' /\ moves mtx (Mutex (Resume t)) g g'.
Proof.
  intros (mx & Hm & Hinv) Hstep. cbn [kernel_step sys_step] in Hstep.
  destruct (parked g !! t) as [[c k]|] eqn:Hp; [|done].
  unfold sched_dispatch in Hstep.
  destruct (bool_decide (t ∈ kt_runq (kern g))) eqn:Hin; [|done].
  apply bool_decide_eq_true in Hin.
  set (r := set_curthr (Some t)
              (set_runq (remove_first t (kt_runq (kern g))) (kern g))) in *.
  assert (curthr r = Some t) as Hc by done.
  assert (mutexes r !! mtx = Some mx) as Hm' by done.
  destruct (w_parked _ _ _ _ _ _ _ _ Hinv t c k Hp)
    as [Hres [Hl|(_ & th & Hth & _ & Hd)]].
  { by destruct (w_waiting _ _ _ _ _ _ _ _ Hinv t Hl). }
  destruct (decide (km_holder mx = Some t)) as [Hh|Hh].
  2:{ destruct Hd as [?|[-> _]]; [done|]. cbn [resumes_as] in Hres.
      rewrite Hres, lock_cancellable_resume_Fault in Hstep; [done|].
      intros (c' & mx' & ? & ? & ?). congruence. }
  pose proof (winv_resume _ _ _ _ _ _ _ _ Hinv t c k Hp Hh) as Hinv'.
  destruct c; cbn [resumes_as] in Hres; [| |done]; rewrite Hres in Hstep.
  - erewrite lock_resume_Done in Hstep; [|done..].
    cbn in Hstep. injection Hstep as <-. split.
    + exists mx. split; [done|]. cbn. apply winv_record. by cbn.
    + eapply moves_intro; [done..|]. apply qm_stay.
  - destruct (lock_cancellable_resume_winv mtx r mx t
                (delete t (parked g))
                (own_upd (fun t' => owns t' (history g)) t true)
                (served (history g) ++ [t])
                Hc Hm' (lookup_delete_eq _ _) Hh Hinv' th Hth)
      as (v & s' & mx' & E' & Hm2 & Hinv2 & Hv).
    { unfold own_upd. by rewrite decide_True. }
    rewrite E' in Hstep. cbn in Hstep. injection Hstep as <-. split.
    + exists mx'. split; [done|]. cbn. apply winv_record. cbn.
      eapply winv_ext; [exact Hinv2|]. intros t'. apply own_upd_twice.
    + eapply moves_intro; [done..|].
      destruct Hv as [(_ & _ & ->)|(_ & _ & Hu)].
      * simplify_eq. apply qm_stay.
      * destruct (kmutex_unlock_winv mtx r mx t (delete t (parked g)) _ _
                    Hc Hm' (lookup_delete_eq _ _) Hh Hinv')
          as (s2 & mx2 & E2 & Hm4 & _ & Hl).
        rewrite Hu in E2. injection E2 as <-. simplify_eq. rewrite Hh.
        destruct (tq_list (km_waitq mx)) as [|t2 rest].
        -- destruct Hl as (-> & -> & _). by apply qm_free.
        -- destruct Hl as (-> & -> & _). by eapply qm_pass.
Qed.

(** A thread whose state field says [KT_SLEEP_CANCELLABLE] and which does
    not point at the wait queue of the mutex is not parked in one of its
    lock functions. *)
Lemma asleep_elsewhere_unparked mtx mx rq lg ts P ow sv t th :
  winv mtx mx rq lg ts P ow sv ->
  ts !! t = Some th -> kt_state th = KT_SLEEP_CANCELLABLE ->
  kt_wchan th <> Some mtx -> P !! t = None.
Proof.
  intros Hinv Hth Hst Hw. destruct (P !! t) as [[c k]|] eqn:Hp; [|done].
  destruct (w_parked _ _ _ _ _ _ _ _ Hinv t c k Hp)
    as [_ [Hl|(_ & th' & ? & ? & _)]].
  - destruct (w_waiting _ _ _ _ _ _ _ _ Hinv t Hl)
      as (_ & th' & ? & ? & ? & _ & _ & ?). congruence.
  - congruence.
Qed.

Lemma cancel_step_winv mtx g t v g' :
  sys_winv mtx g -> kernel_step mtx g (Cancel t v) = Some g' ->
  sys_winv mtx g' /\ moves mtx (Cancel t v) g g'.
Proof.
  intros (mx & Hm & Hinv) Hstep. cbn [kernel_step] in Hstep.
  destruct (threads (kern g) !! t) as [th|] eqn:Hth.
  2:{ by rewrite kthread_cancel_unallocated in Hstep. }
  destruct (decide (kt_state th = KT_SLEEP_CANCELLABLE)) as [Hst|Hst].
  2:{ rewrite (kthread_cancel_deferred _ _ _ _ Hth Hst) in Hstep.
      injection Hstep as <-. split.
      - exists mx. split; [done|]. cbn.
        eapply winv_frame; [exact Hinv|done..| |].
        + intros t0 th0 Hl _. destruct (decide (t = t0)) as [<-|Hne].
          * eexists. rewrite lookup_insert_eq. simplify_eq. by cbn.
          * exists th0. by rewrite lookup_insert_ne.
        + intros t0 th' Hl Hw. destruct (decide (t = t0)) as [<-|Hne].
          * rewrite lookup_insert_eq in Hl. injection Hl as <-. eauto.
          * rewrite lookup_insert_ne in Hl by done. eauto.
      - eapply moves_intro; [done..|]. apply qm_stay. }
  destruct (kt_wchan th) as [q|] eqn:Hw.
  - destruct (mutexes (kern g) !! q) as [mq|] eqn:Hq.
    2:{ destruct (kthread_cancel_wake_unallocated _ _ v _ Hth q Hst Hw Hq)
          as [s' E]. by rewrite E in Hstep. }
    rewrite (kthread_cancel_wake _ _ _ _ Hth q mq Hst Hw Hq) in Hstep.
    injection Hstep as <-. destruct (decide (q = mtx)) as [->|Hne].
    + simplify_eq.
      pose proof (w_wchan _ _ _ _ _ _ _ _ Hinv t th Hth Hw) as Hin. split.
      * eexists. split; [cbn; apply lookup_insert_eq|].
        cbn. by eapply winv_strike.
      * eapply moves_intro; [done|cbn; apply lookup_insert_eq|]. cbn.
        by eapply qm_strike.
    + assert (parked g !! t = None) as Hp.
      { eapply asleep_elsewhere_unparked; [exact Hinv|done..|]. congruence. }
      assert (mutexes (struck_state q mq t th v (kern g)) !! mtx = Some mx)
        as Hm2 by (cbn; by rewrite lookup_insert_ne).
      split.
      * exists mx. split; [done|]. cbn.
        eapply winv_frame; [exact Hinv|..].
        -- intros t0 [x Hx]. rewrite elem_of_app, list_elem_of_singleton.
           split; [|by left]. intros [?| ->]; [done|congruence].
        -- rewrite !admitted_snoc. by rewrite decide_False.
        -- by rewrite !grants_snoc, !app_nil_r.
        -- intros t0 th0 Hl [x Hx]. exists th0.
           rewrite lookup_insert_ne by congruence. done.
        -- intros t0 th' Hl Hw'. destruct (decide (t = t0)) as [<-|Hne'].
           ++ rewrite lookup_insert_eq in Hl. by injection Hl as <-.
           ++ rewrite lookup_insert_ne in Hl by done. eauto.
      * eapply moves_intro; [done..|]. apply qm_stay.
  - rewrite (kthread_cancel_wake_unqueued _ _ _ _ Hth Hst Hw) in Hstep.
    injection Hstep as <-.
    assert (parked g !! t = None) as Hp.
    { eapply asleep_elsewhere_unparked; [exact Hinv|done..|]. congruence. }
    split.
    + exists mx. split; [done|]. cbn.
      eapply winv_frame; [exact Hinv|..].
      * intros t0 [x Hx]. rewrite elem_of_app, list_elem_of_singleton.
        split; [|by left]. intros [?| ->]; [done|congruence].
      * by rewrite !admitted_snoc.
      * by rewrite !grants_snoc, !app_nil_r.
      * intros t0 th0 Hl [x Hx]. exists th0.
        rewrite lookup_insert_ne by congruence. done.
      * intros t0 th' Hl Hw'. destruct (decide (t = t0)) as [<-|Hne'].
        -- rewrite lookup_insert_eq in Hl. injection Hl as <-.
           cbn in Hw'. congruence.
        -- rewrite lookup_insert_ne in Hl by done. eauto.
    + eapply moves_intro; [done..|]. apply qm_stay.
Qed.

Lemma wake_step_winv mtx g t g' :
  sys_winv mtx g -> kernel_step mtx g (Wake t) = Some g' ->
  sys_winv mtx g' /\ moves mtx (Wake t) g g'.
Proof.
  intros (mx & Hm & Hinv) Hstep. cbn [kernel_step] in Hstep.
  destruct (parked g !! t) eqn:Hp; [done|].
  cbn in Hstep. injection Hstep as <-. split.
  - exists mx. split; [done|]. cbn.
    eapply winv_frame; [exact Hinv|..].
    + intros t0 [x Hx]. rewrite elem_of_app, list_elem_of_singleton.
      split; [|by left]. intros [?| ->]; [done|congruence].
    + by rewrite !admitted_snoc.
    + by rewrite !grants_snoc, !app_nil_r.
    + intros t0 th0 Hl _. by exists th0.
    + eauto.
  - eapply moves_intro; [done..|]. apply qm_stay.
Qed.

Lemma dispatch_step_winv mtx g t g' :
  sys_winv mtx g -> kernel_step mtx g (Dispatch t) = Some g' ->
  sys_winv mtx g' /\ moves mtx (Dispatch t) g g'.
Proof.
  intros (mx & Hm & Hinv) Hstep. cbn [kernel_step] in Hstep.
  destruct (parked g !! t) eqn:Hp; [done|].
  unfold sched_dispatch in Hstep.
  destruct (bool_decide (t ∈ kt_runq (kern g))); [|done].
  injection Hstep as <-. split.
  - exists mx. split; [done|]. cbn.
    eapply winv_frame; [exact Hinv| |done|done| |].
    + intros t0 [x Hx]. apply remove_first_elem_ne. congruence.
    + intros t0 th0 Hl _. by exists th0.
    + eauto.
  - eapply moves_intro; [done..|]. apply qm_stay.
Qed.

Lemma kernel_step_winv mtx g a g' :
  sys_winv mtx g -> kernel_step mtx g a = Some g' ->
  sys_winv mtx g' /\ moves mtx a g g'.
Proof.
  destruct a as [[t c|t]|t v|t|t];
    eauto using call_step_winv, resume_step_winv, cancel_step_winv,
                wake_step_winv, dispatch_step_winv.
Qed.

Lemma kernel_run_winv mtx acts g g' :
  sys_winv mtx g -> kernel_run mtx g acts = Some g' -> sys_winv mtx g'.
Proof.
  revert g. induction acts as [|a acts IH]; intros g Hinv Hrun; cbn in Hrun.
  - by injection Hrun as <-.
  - destruct (kernel_step mtx g a) as [g1|] eqn:Hstep; [|done].
    destruct (kernel_step_winv mtx g a g1 Hinv Hstep). eauto.
Qed.

Lemma kernel_initial_winv mtx g : kernel_initial mtx g -> sys_winv mtx g.
Proof.
  intros [Hm Hw Hlg Hp Hh]. exists kmutex_initial. split; [done|].
  rewrite Hlg, Hp, Hh. split; cbn; try done.
  - apply NoDup_nil_2.
  - intros t Hin. by apply elem_of_nil in Hin.
  - intros t th Hth Hwc. by destruct (Hw t th Hth).
Qed.

(** A state reached by a run from a freshly initialised mutex, with its
    mutex and the invariant. *)
Lemma reachable_winv mtx g0 acts g :
  kernel_initial mtx g0 -> kernel_run mtx g0 acts = Some g ->
  exists mx,
    mutexes (kern g) !! mtx = Some mx
    /\ winv mtx mx (kt_runq (kern g)) (klog (kern g)) (threads (kern g))
            (parked g) (fun t => owns t (history g)) (served (history g)).
Proof.
  intros Hinit Hrun.
  exact (kernel_run_winv mtx acts g0 g (kernel_initial_winv _ _ Hinit) Hrun).
Qed.

(** ** Calls and resumptions in the states of these runs *)

Lemma handed_singleton mtx g t :
  handed mtx g = [t]
  <-> holder_of mtx (kern g) = Some t /\ is_Some (parked g !! t).
Proof.
  unfold handed, holder_of, handed_to.
  destruct (mutexes (kern g) !! mtx) as [mx|]; [|by split; [|intros []]].
  destruct (km_holder mx) as [h|]; [|by split; [|intros []]].
  destruct (parked g !! h) as [x|] eqn:Hp; split.
  - intros [= <-]. split; [done|]. by eexists.
  - by intros [[= <-] _].
  - done.
  - intros [[= <-] [y Hy]]. congruence.
Qed.

Section WideReachable.
Variables (mtx : mid) (g0 g : sys) (acts : list action).
Hypothesis Hinit : kernel_initial mtx g0.
Hypothesis Hrun : kernel_run mtx g0 acts = Some g.

(** [kmutex_unlock] by the thread inside its critical section. *)
Lemma owner_unlocks t :
  running g t -> owns t (history g) = true ->
  exists g',
    kernel_step mtx g (Mutex (Call t CUnlock)) = Some g'
    /\ history g' = history g ++ [mk_returned t CUnlock 0 false]
    /\ parked g' = parked g
    /\ match waiters_of mtx (kern g) with
       | [] =>
           holder_of mtx (kern g') = None /\ waiters_of mtx (kern g') = []
           /\ kt_runq (kern g') = kt_runq (kern g)
       | t2 :: rest =>
           holder_of mtx (kern g') = Some t2
           /\ waiters_of mtx (kern g') = rest
           /\ kt_runq (kern g') = kt_runq (kern g) ++ [t2]
           /\ is_Some (parked g !! t2)
       end.
Proof.
  intros [Hp Hrq] Ho.
  destruct (reachable_winv mtx g0 acts g Hinit Hrun) as (mx & Hm & Hinv).
  destruct (w_owner _ _ _ _ _ _ _ _ Hinv t Ho) as [Hh _].
  destruct (kmutex_unlock_winv mtx (set_curthr (Some t) (kern g)) mx t
              (parked g) _ _ eq_refl Hm Hp Hh Hinv)
    as (s' & mx' & E & Hm' & _ & Hl).
  eexists. split.
  { cbn [kernel_step]. rewrite bool_decide_eq_false_2 by done.
    cbn [sys_step]. rewrite Hp. cbn [run_call].
    erewrite bind_Done by exact E. reflexivity. }
  cbn. split; [done|]. split; [by apply delete_id|].
  unfold waiters_of, holder_of. by rewrite Hm, Hm'.
Qed.

(** A call that breaks the contract halts the kernel. *)
Lemma wide_violations t :
  parked g !! t = None ->
  (owns t (history g) = true ->
   kernel_step mtx g (Mutex (Call t CLock)) = None
   /\ kernel_step mtx g (Mutex (Call t CLockCancellable)) = None)
  /\ (owns t (history g) = false ->
      kernel_step mtx g (Mutex (Call t CUnlock)) = None).
Proof.
  intros Hp.
  destruct (reachable_winv mtx g0 acts g Hinit Hrun) as (mx & Hm & Hinv).
  set (s := set_curthr (Some t) (kern g)).
  split; intros Ho.
  - destruct (w_owner _ _ _ _ _ _ _ _ Hinv t Ho) as [Hh _].
    split; cbn [kernel_step];
      (destruct (bool_decide (t ∈ kt_runq (kern g))); [done|]);
      cbn [sys_step]; rewrite Hp; cbn [run_call].
    + by erewrite bind_Fault by (by eapply kmutex_lock_self).
    + by erewrite kmutex_lock_cancellable_self.
  - assert (km_holder mx <> Some t) as Hh.
    { intros Hh. destruct (w_holder _ _ _ _ _ _ _ _ Hinv t Hh) as [?|[x Hx]];
        congruence. }
    cbn [kernel_step].
    destruct (bool_decide (t ∈ kt_runq (kern g))); [done|].
    cbn [sys_step]. rewrite Hp. cbn [run_call].
    by erewrite bind_Fault by (by eapply (kmutex_unlock_not_holder s)).
Qed.

(** A lock call by a live running thread that is not inside its critical
    section goes through. *)
Lemma outsider_locks t c :
  c = CLock \/ c = CLockCancellable ->
  running g t -> owns t (history g) = false ->
  is_Some (threads (kern g) !! t) ->
  is_Some (kernel_step mtx g (Mutex (Call t c))).
Proof.
  intros Hc [Hp Hrq] Ho [th Hth].
  destruct (reachable_winv mtx g0 acts g Hinit Hrun) as (mx & Hm & Hinv).
  set (s := set_curthr (Some t) (kern g)).
  cbn [kernel_step]. rewrite bool_decide_eq_false_2 by done.
  cbn [sys_step]. rewrite Hp.
  destruct (km_holder mx) as [h|] eqn:Hh.
  - assert (h <> t) as Hne.
    { intros ->. destruct (w_holder _ _ _ _ _ _ _ _ Hinv t Hh) as [?|[x Hx]];
        congruence. }
    destruct Hc as [-> | ->]; cbn [run_call].
    + erewrite bind_Suspended by (by eapply (kmutex_lock_held s)).
      by eexists.
    + erewrite (kmutex_lock_cancellable_held s) by done. by eexists.
  - destruct Hc as [-> | ->]; cbn [run_call].
    + erewrite bind_Done by (by eapply (kmutex_lock_free s)). by eexists.
    + erewrite (kmutex_lock_cancellable_free s) by done.
      destruct (lock_cancellable_resume_winv mtx
                  (holder_set mtx mx (Some t) s)
                  (set_km_holder (Some t) mx) t (parked g)
                  (own_upd (fun t' => owns t' (history g)) t true)
                  (served (history g)))
        with (th := th)
        as (v & s' & mx' & E & _); try done.
      { cbn. apply lookup_insert_eq. }
      { cbn. by apply winv_claim. }
      { unfold own_upd. by rewrite decide_True. }
      rewrite E. by eexists.
Qed.

(** Switching to a parked thread on the run queue: the holder's call
    returns; any other such thread was woken by a cancellation while asleep
    in [kmutex_lock_cancellable], and the kernel halts. *)
Lemma parked_resumes t c k :
  parked g !! t = Some (c, k) -> t ∈ kt_runq (kern g) ->
  exists th,
    threads (kern g) !! t = Some th /\ kt_state th = KT_RUN
    /\ (holder_of mtx (kern g) = Some t ->
        exists g' v,
          kernel_step mtx g (Mutex (Resume t)) = Some g'
          /\ history g' = history g ++ [mk_returned t c v true]
          /\ ((v = 0 /\ holder_of mtx (kern g') = Some t
               /\ waiters_of mtx (kern g') = waiters_of mtx (kern g)
               /\ (c = CLock \/ kt_cancelled th = 0))
              \/ (v = - EINTR /\ c = CLockCancellable
                  /\ kt_cancelled th <> 0
                  /\ match waiters_of mtx (kern g) with
                     | [] =>
                         holder_of mtx (kern g') = None
                         /\ waiters_of mtx (kern g') = []
                     | t2 :: rest =>
                         holder_of mtx (kern g') = Some t2
                         /\ waiters_of mtx (kern g') = rest
                         /\ t2 ∈ kt_runq (kern g')
                         /\ is_Some (parked g' !! t2)
                     end)))
    /\ (holder_of mtx (kern g) <> Some t ->
        kernel_step mtx g (Mutex (Resume t)) = None
        /\ c = CLockCancellable /\ kt_cancelled th <> 0).
Proof.
  intros Hp Hin.
  destruct (reachable_winv mtx g0 acts g Hinit Hrun) as (mx & Hm & Hinv).
  destruct (w_parked _ _ _ _ _ _ _ _ Hinv t c k Hp)
    as [Hres [Hl|(_ & th & Hth & Hst & Hd)]].
  { by destruct (w_waiting _ _ _ _ _ _ _ _ Hinv t Hl). }
  exists th. split; [done|]. split; [done|].
  set (r := set_curthr (Some t)
              (set_runq (remove_first t (kt_runq (kern g))) (kern g))).
  assert (kernel_step mtx g (Mutex (Resume t)) = settle t c true (k r) g)
    as Hstep.
  { cbn [kernel_step sys_step]. rewrite Hp. unfold sched_dispatch.
    by rewrite bool_decide_eq_true_2 by done. }
  unfold holder_of, waiters_of. rewrite Hm. split.
  - intros Hh.
    pose proof (winv_resume _ _ _ _ _ _ _ _ Hinv t c k Hp Hh) as Hinv'.
    destruct c; cbn [resumes_as] in Hres; [| |done].
    + exists (mk_sys r (delete t (parked g))
                     (history g ++ [mk_returned t CLock 0 true])), 0.
      split; [rewrite Hstep, Hres; by erewrite lock_resume_Done|].
      split; [done|]. left. cbn. rewrite Hm. do 3 (split; [done|]).
      by left.
    + destruct (lock_cancellable_resume_winv mtx r mx t
                  (delete t (parked g))
                  (own_upd (fun t' => owns t' (history g)) t true)
                  (served (history g) ++ [t])
                  eq_refl Hm (lookup_delete_eq _ _) Hh Hinv' th Hth)
        as (v & s' & mx' & E & Hm' & _ & Hv).
      { unfold own_upd. by rewrite decide_True. }
      exists (mk_sys s' (delete t (parked g))
                     (history g ++ [mk_returned t CLockCancellable v true])),
             v.
      split; [by rewrite Hstep, Hres, E|]. split; [done|].
      destruct Hv as [(Hz & -> & ->)|(Hz & -> & Hu)].
      * left. cbn. rewrite Hm. do 3 (split; [done|]). by right.
      * right. do 3 (split; [done|]).
        destruct (kmutex_unlock_winv mtx r mx t (delete t (parked g)) _ _
                    eq_refl Hm (lookup_delete_eq _ _) Hh Hinv')
          as (s2 & mx2 & E2 & Hm2 & _ & Hl).
        rewrite Hu in E2. injection E2 as <-. cbn. rewrite Hm2.
        destruct (tq_list (km_waitq mx)) as [|t2 rest]; [tauto|].
        destruct Hl as (? & ? & -> & ?). split; [done|]. split; [done|].
        split; [apply elem_of_app; right; left|done].
  - intros Hh. destruct Hd as [?|[-> Hz]]; [done|].
    split; [|done]. cbn [resumes_as] in Hres.
    rewrite Hstep, Hres, lock_cancellable_resume_Fault; [done|].
    intros (c' & mx' & Hc' & Hm' & ?). subst r. cbn in Hc', Hm'.
    congruence.
Qed.
End WideReachable.

(** ** Properties of all runs *)

Lemma demo_kernel_initial : kernel_initial 7%nat demo_kernel.
Proof.
  split; try done. intros t th Ht. cbn in Ht. unfold demo_threads in Ht.
  repeat (apply lookup_insert_Some in Ht as [[_ <-]|[_ Ht]]; [done|]).
  by rewrite lookup_empty in Ht.
Defined.

Lemma demo_actions_run :
  kernel_run 7%nat demo_kernel demo_actions = Some demo_kernel_final.
Proof. vm_compute. reflexivity. Defined.

Lemma demo_actions_run_to n :
  (n <= 7)%nat ->
  kernel_run 7%nat demo_kernel (take n demo_actions)
  = Some (demo_kernel_after n).
Proof.
  intros Hn. do 8 (destruct n as [|n]; [vm_compute; reflexivity|]). lia.
Defined.

(** C5: along every run of the kernel from a freshly initialised mutex, in
    which any number of threads call the three mutex functions, threads are
    cancelled and the scheduler runs other threads as well:
    (1) a thread that is inside its critical section is the holder, so two
    threads never are at once;
    (2) the threads admitted to the wait queue, in arrival order, are those
    whose blocked call has returned, in the order of these returns, then the
    thread that has been passed the mutex and has not run yet, if any, then
    the threads still waiting, in queue order; as long as no cancellation
    took a waiter off the queue these are all the arrivals;
    (3) every step leaves the holder and the queue alone, appends the caller
    of a lock function at the tail, lets such a caller claim the mutex when
    it is free and nobody waits, or, when the holder runs, frees the mutex
    if nobody waits and otherwise passes it to the head of the queue; only a
    cancellation takes a waiter out of the queue otherwise;
    (4) [kmutex_unlock] by the thread inside its critical section always
    goes through and passes the mutex to the longest-waiting thread;
    (5) the thread that was passed the mutex is on the run queue, and when
    the scheduler switches to it its lock call returns, a [kmutex_lock]
    with the caller inside its critical section. *)
Theorem mutual_exclusion_and_fifo (mtx : mid) (g0 g : sys)
    (acts : list action) :
  kernel_initial mtx g0 ->
  kernel_run mtx g0 acts = Some g ->
  (forall t, owns t (history g) = true -> holder_of mtx (kern g) = Some t)
  /\ (forall t1 t2,
        owns t1 (history g) = true -> owns t2 (history g) = true -> t1 = t2)
  /\ admitted mtx (klog (kern g))
     = served (history g) ++ handed mtx g ++ waiters_of mtx (kern g)
  /\ grants mtx (klog (kern g)) = served (history g) ++ handed mtx g
  /\ ((forall t, EvRemove mtx t ∉ klog (kern g)) ->
      arrivals mtx (klog (kern g))
      = served (history g) ++ handed mtx g ++ waiters_of mtx (kern g))
  /\ NoDup (waiters_of mtx (kern g))
  /\ (forall a g', kernel_step mtx g a = Some g' -> moves mtx a g g')
  /\ (forall t,
        running g t -> owns t (history g) = true ->
        exists g',
          kernel_step mtx g (Mutex (Call t CUnlock)) = Some g'
          /\ match waiters_of mtx (kern g) with
             | [] => holder_of mtx (kern g') = None
             | t2 :: rest =>
                 holder_of mtx (kern g') = Some t2
                 /\ waiters_of mtx (kern g') = rest
                 /\ handed mtx g' = [t2]
             end)
  /\ (forall t,
        handed mtx g = [t] ->
        t ∈ kt_runq (kern g)
        /\ exists g' c v,
             kernel_step mtx g (Mutex (Resume t)) = Some g'
             /\ history g' = history g ++ [mk_returned t c v true]
             /\ (c = CLock -> owns t (history g') = true)).
Proof.
  intros Hinit Hrun.
  destruct (reachable_winv mtx g0 acts g Hinit Hrun) as (mx & Hm & Hinv).
  assert (forall t, owns t (history g) = true ->
                    holder_of mtx (kern g) = Some t) as Hown.
  { intros t Ho. apply holder_of_Some. exists mx. split; [done|].
    by destruct (w_owner _ _ _ _ _ _ _ _ Hinv t Ho). }
  assert (admitted mtx (klog (kern g))
          = served (history g) ++ handed mtx g ++ waiters_of mtx (kern g))
    as Hadm.
  { unfold waiters_of, handed. rewrite Hm.
    rewrite (w_fifo_queue _ _ _ _ _ _ _ _ Hinv).
    rewrite (w_fifo_served _ _ _ _ _ _ _ _ Hinv). by rewrite app_assoc. }
  split; [done|]. split.
  { intros t1 t2 H1 H2. apply Hown in H1, H2. congruence. }
  split; [done|]. split.
  { unfold handed. rewrite Hm. apply (w_fifo_served _ _ _ _ _ _ _ _ Hinv). }
  split; [intros Hn; by rewrite <- admitted_arrivals|]. split.
  { unfold waiters_of. rewrite Hm. apply (w_nodup _ _ _ _ _ _ _ _ Hinv). }
  split.
  { intros a g' Hstep.
    apply (kernel_step_winv mtx g a g'); [by exists mx|done]. }
  split.
  - intros t Hr Ho.
    destruct (owner_unlocks mtx g0 g acts Hinit Hrun t Hr Ho)
      as (g' & Hs & _ & Hp & Hl).
    exists g'. split; [done|].
    destruct (waiters_of mtx (kern g)) as [|t2 rest]; [tauto|].
    destruct Hl as (? & ? & _ & ?). split; [done|]. split; [done|].
    apply handed_singleton. by rewrite Hp.
  - intros t Hhd. apply handed_singleton in Hhd as [Hh [[c k] Hp]].
    assert (t ∈ kt_runq (kern g)) as Hin.
    { destruct (w_parked _ _ _ _ _ _ _ _ Hinv t c k Hp)
        as [_ [Hl|(? & _)]]; [|done].
      apply holder_of_Some in Hh as (mx' & ? & Hh). simplify_eq.
      by destruct (w_holder_unlinked _ _ _ _ _ _ _ _ Hinv t Hh). }
    split; [done|].
    destruct (parked_resumes mtx g0 g acts Hinit Hrun t c k Hp Hin)
      as (th & _ & _ & Hgo & _).
    destruct (Hgo Hh) as (g' & v & ? & Hhist & Hv). exists g', c, v.
    split; [done|]. split; [done|]. intros ->.
    rewrite Hhist, owns_snoc. cbn. by rewrite decide_True.
Qed.

(** Instance of C5 on the example run. *)
Lemma mutual_exclusion_and_fifo_witness :
  admitted 7%nat (klog (kern demo_kernel_final))
  = served (history demo_kernel_final) ++ handed 7%nat demo_kernel_final
    ++ waiters_of 7%nat (kern demo_kernel_final)
  /\ grants 7%nat (klog (kern demo_kernel_final))
     = served (history demo_kernel_final) ++ handed 7%nat demo_kernel_final
  /\ forall t1 t2,
       owns t1 (history demo_kernel_final) = true ->
       owns t2 (history demo_kernel_final) = true -> t1 = t2.
Proof.
  destruct (mutual_exclusion_and_fifo 7%nat demo_kernel demo_kernel_final
              demo_actions demo_kernel_initial demo_actions_run)
    as (_ & Hx & Ha & Hg & _).
  split; [exact Ha|]. split; [exact Hg|exact Hx].
Defined.

(** On the example thread 2 arrives before thread 3 and is cancelled while
    it waits: thread 3 is the only thread admitted, was passed the mutex and
    owns it at the end, while thread 2 waits on the run queue. *)
Example demo_kernel_final_observed :
  arrivals 7%nat (klog (kern demo_kernel_final)) = [2%nat; 3%nat]
  /\ admitted 7%nat (klog (kern demo_kernel_final)) = [3%nat]
  /\ served (history demo_kernel_final) = [3%nat]
  /\ holder_of 7%nat (kern demo_kernel_final) = Some 3%nat
  /\ owns 3%nat (history demo_kernel_final) = true
  /\ kt_runq (kern demo_kernel_final) = [9%nat; 2%nat].
Proof. vm_compute. repeat split. Qed.

(** X7: along every run of the kernel, with cancellations and other threads
    on the run queue, the wait queue stays sound: the mutex is well formed
    (the count equals the number of linked threads, the holder is not
    linked, linked threads are live); no thread is linked twice; a free
    mutex has no waiter; a thread object points at the queue exactly when
    the thread is linked; a linked thread is parked and not on the run
    queue; a parked thread is linked or on the run queue, so none is lost;
    the holder is inside its critical section or parked on the run queue;
    and a parked thread on the run queue is the holder or parked in
    [kmutex_lock_cancellable]. *)
Theorem runs_keep_the_wait_queue_sound (mtx : mid) (g0 g : sys)
    (acts : list action) :
  kernel_initial mtx g0 ->
  kernel_run mtx g0 acts = Some g ->
  exists mx,
    mutexes (kern g) !! mtx = Some mx
    /\ mutex_wf (kern g) mx
    /\ NoDup (waiters_of mtx (kern g))
    /\ (holder_of mtx (kern g) = None -> waiters_of mtx (kern g) = [])
    /\ (forall t th,
          threads (kern g) !! t = Some th ->
          kt_wchan th = Some mtx <-> t ∈ waiters_of mtx (kern g))
    /\ (forall t,
          t ∈ waiters_of mtx (kern g) ->
          is_Some (parked g !! t) /\ t ∉ kt_runq (kern g))
    /\ (forall t,
          is_Some (parked g !! t) ->
          t ∈ waiters_of mtx (kern g) \/ t ∈ kt_runq (kern g))
    /\ (forall t,
          holder_of mtx (kern g) = Some t ->
          owns t (history g) = true
          \/ (is_Some (parked g !! t) /\ t ∈ kt_runq (kern g)))
    /\ (forall t c k,
          parked g !! t = Some (c, k) -> t ∈ kt_runq (kern g) ->
          holder_of mtx (kern g) = Some t \/ c = CLockCancellable).
Proof.
  intros Hinit Hrun.
  destruct (reachable_winv mtx g0 acts g Hinit Hrun) as (mx & Hm & Hinv).
  pose proof Hinv as [Hcount Hnd Hunl Hfe Hw Hwc Hpk How Hho Hfq Hfs].
  exists mx. unfold waiters_of, holder_of. rewrite Hm.
  split; [done|]. split.
  { split; [done..|]. intros t Hin.
    destruct (Hw t Hin) as (_ & th & _ & _ & ? & _). by eexists. }
  split; [done|]. split; [done|]. split.
  { intros t th Hth. split; [by apply Hwc|]. intros Hin.
    destruct (Hw t Hin) as (_ & th' & _ & _ & ? & _ & _ & ?). congruence. }
  split.
  { intros t Hin. destruct (Hw t Hin) as (? & th & c & k & _ & ? & _).
    split; [by eexists|done]. }
  split.
  { intros t [[c k] Hp].
    destruct (Hpk t c k Hp) as [_ [?|(? & _)]]; [by left|by right]. }
  split.
  - intros t Hh. destruct (Hho t Hh) as [?|[[c k] Hp]]; [by left|right].
    split; [by eexists|].
    destruct (Hpk t c k Hp) as [_ [Hl|(? & _)]]; [|done].
    by destruct (Hunl t Hh).
  - intros t c k Hp Hin.
    destruct (Hpk t c k Hp) as [_ [Hl|(_ & th & _ & _ & [?|[? _]])]];
      [|by left|by right].
    by destruct (Hw t Hl).
Qed.

(** Instance of X7 on the example run: after the cancellation thread 2 is
    parked on the run queue without being linked or holder. *)
Lemma runs_keep_the_wait_queue_sound_witness :
  exists mx,
    mutexes (kern (demo_kernel_after 5)) !! 7%nat = Some mx
    /\ mutex_wf (kern (demo_kernel_after 5)) mx
    /\ waiters_of 7%nat (kern (demo_kernel_after 5)) = [3%nat]
    /\ kt_runq (kern (demo_kernel_after 5)) = [9%nat; 2%nat].
Proof.
  destruct (runs_keep_the_wait_queue_sound 7%nat demo_kernel
              (demo_kernel_after 5) (take 5 demo_actions)
              demo_kernel_initial (demo_actions_run_to 5 ltac:(lia)))
    as (mx & Hm & Hwf & _).
  exists mx. split; [exact Hm|]. split; [exact Hwf|].
  split; vm_compute; reflexivity.
Defined.

(** X9: what makes the kernel halt along these runs.  For a running thread
    (not parked, not on the run queue): [kmutex_unlock] goes through exactly
    when the thread is inside its critical section, and for a live thread
    [kmutex_lock] and [kmutex_lock_cancellable] go through exactly when it
    is not; so a call that keeps the contract trips no assertion, at entry
    or at the end.  A parked thread on the run queue can be switched to
    exactly when it is the holder.  A thread parked in [kmutex_lock] is on
    the run queue only as the holder, so it can always be switched to; a
    thread on the run queue that is not the holder parked in
    [kmutex_lock_cancellable] and was woken by a cancellation: its flag is
    set, its state is [KT_RUN], and switching to it halts the kernel at the
    assertion of line 79 instead of returning [-EINTR]. *)
Theorem halts_only_on_violation_or_cancelled_sleeper (mtx : mid)
    (g0 g : sys) (acts : list action) (t : tid) :
  kernel_initial mtx g0 ->
  kernel_run mtx g0 acts = Some g ->
  (running g t ->
     (is_Some (kernel_step mtx g (Mutex (Call t CUnlock)))
      <-> owns t (history g) = true)
     /\ (is_Some (threads (kern g) !! t) ->
         (is_Some (kernel_step mtx g (Mutex (Call t CLock)))
          <-> owns t (history g) = false)
         /\ (is_Some (kernel_step mtx g (Mutex (Call t CLockCancellable)))
             <-> owns t (history g) = false)))
  /\ (forall c k,
        parked g !! t = Some (c, k) -> t ∈ kt_runq (kern g) ->
        (is_Some (kernel_step mtx g (Mutex (Resume t)))
         <-> holder_of mtx (kern g) = Some t)
        /\ (c = CLock -> holder_of mtx (kern g) = Some t)
        /\ (holder_of mtx (kern g) <> Some t ->
            c = CLockCancellable
            /\ exists th,
                 threads (kern g) !! t = Some th /\ kt_cancelled th <> 0
                 /\ kt_state th = KT_RUN
                 /\ forall r,
                      curthr r = Some t ->
                      holder_of mtx r = holder_of mtx (kern g) ->
                      k r = Fault r)).
Proof.
  intros Hinit Hrun. split.
  - intros Hr. pose proof Hr as [Hp _].
    destruct (wide_violations mtx g0 g acts Hinit Hrun t Hp) as [Hv1 Hv2].
    split.
    + split.
      * intros [g' Hs]. destruct (owns t (history g)) eqn:Ho; [done|].
        rewrite Hv2 in Hs; done.
      * intros Ho.
        destruct (owner_unlocks mtx g0 g acts Hinit Hrun t Hr Ho)
          as (g' & -> & _). by eexists.
    + intros Hlive.
      split; (split;
        [ intros [g' Hs]; destruct (owns t (history g)) eqn:Ho; [|done];
          destruct (Hv1 eq_refl) as [E1 E2]; congruence
        | intros Ho; eapply outsider_locks; eauto ]).
  - intros c k Hp Hin.
    destruct (parked_resumes mtx g0 g acts Hinit Hrun t c k Hp Hin)
      as (th & Hth & Hst & Hgo & Hno).
    destruct (reachable_winv mtx g0 acts g Hinit Hrun) as (mx & Hm & Hinv).
    destruct (w_parked _ _ _ _ _ _ _ _ Hinv t c k Hp) as [Hres _].
    split; [|split].
    + split.
      * intros [g' Hs]. destruct (decide (holder_of mtx (kern g) = Some t))
          as [?|Hh]; [done|].
        destruct (Hno Hh) as [E _]. congruence.
      * intros Hh. destruct (Hgo Hh) as (g' & v & -> & _). by eexists.
    + intros ->. destruct (decide (holder_of mtx (kern g) = Some t))
        as [?|Hh]; [done|].
      by destruct (Hno Hh) as (_ & ? & _).
    + intros Hh. destruct (Hno Hh) as (_ & -> & Hz). split; [done|].
      exists th. do 3 (split; [done|]). intros r Hc Hhr.
      cbn [resumes_as] in Hres. rewrite Hres.
      apply lock_cancellable_resume_Fault.
      intros (c' & mx' & ? & ? & ?). apply Hh. rewrite <- Hhr.
      apply holder_of_Some. exists mx'. split; [done|]. congruence.
Qed.

(** Instance of X9 on the example run after the cancellation of thread 2:
    thread 1 can unlock, and thread 2, on the run queue without the mutex,
    cannot be switched to without halting the kernel. *)
Lemma halts_only_on_violation_or_cancelled_sleeper_witness :
  is_Some (kernel_step 7%nat (demo_kernel_after 5)
             (Mutex (Call 1%nat CUnlock)))
  /\ ~ is_Some (kernel_step 7%nat (demo_kernel_after 5)
                  (Mutex (Resume 2%nat))).
Proof.
  assert (running (demo_kernel_after 5) 1%nat) as Hr.
  { split; [vm_compute; reflexivity|]. vm_compute.
    intros H. apply elem_of_cons in H as [H|H]; [discriminate H|].
    apply elem_of_cons in H as [H|H]; [discriminate H|].
    by apply elem_of_nil in H. }
  assert (owns 1%nat (history (demo_kernel_after 5)) = true) as Ho
    by (vm_compute; reflexivity).
  assert (parked (demo_kernel_after 5) !! 2%nat
          = Some (CLockCancellable, lock_cancellable_resume 7%nat)) as Hp
    by (vm_compute; reflexivity).
  assert (2%nat ∈ kt_runq (kern (demo_kernel_after 5))) as Hin
    by (vm_compute; right; left).
  assert (holder_of 7%nat (kern (demo_kernel_after 5)) <> Some 2%nat) as Hh
    by (vm_compute; discriminate).
  split.
  - destruct (halts_only_on_violation_or_cancelled_sleeper 7%nat demo_kernel
                (demo_kernel_after 5) (take 5 demo_actions) 1%nat
                demo_kernel_initial (demo_actions_run_to 5 ltac:(lia)))
      as [H _].
    destruct (H Hr) as [Hu _]. apply Hu. exact Ho.
  - destruct (halts_only_on_violation_or_cancelled_sleeper 7%nat demo_kernel
                (demo_kernel_after 5) (take 5 demo_actions) 2%nat
                demo_kernel_initial (demo_actions_run_to 5 ltac:(lia)))
      as [_ H].
    destruct (H _ _ Hp Hin) as [Hiff _]. intros Hs. apply Hh, Hiff, Hs.
Defined.

(** ** Runs of mutex calls alone

    The runs of the first part, in which nothing but mutex calls and
    resumptions happens, are runs of the kernel. *)

Lemma sys_step_kernel_step mtx g e g' :
  sys_inv mtx g -> sys_step mtx g e = Some g' ->
  kernel_step mtx g (Mutex e) = Some g'.
Proof.
  intros (mx & Hm & Hinv) Hstep. destruct e as [t c|t]; [|done].
  cbn [kernel_step]. rewrite bool_decide_eq_false_2; [done|].
  cbn in Hstep. destruct (parked g !! t) eqn:Hp; [done|].
  destruct (k_runq _ _ _ _ _ _ _ Hinv) as [->|(t' & -> & _ & [x Hx])].
  - apply not_elem_of_nil.
  - intros Hin. apply list_elem_of_singleton in Hin as ->. congruence.
Qed.

Lemma sys_run_kernel_run mtx es g g' :
  sys_inv mtx g -> sys_run mtx g es = Some g' ->
  kernel_run mtx g (Mutex <$> es) = Some g'.
Proof.
  revert g. induction es as [|e es IH]; intros g Hinv Hrun; [done|].
  rewrite fmap_cons. cbn [kernel_run]. cbn [sys_run] in Hrun.
  destruct (sys_step mtx g e) as [g1|] eqn:Hstep; [|done].
  rewrite (sys_step_kernel_step mtx g e g1 Hinv Hstep).
  eauto using sys_step_inv.
Qed.

Lemma mutex_runs_are_kernel_runs mtx g0 es g :
  sys_initial mtx g0 ->
  (forall t th, threads (kern g0) !! t = Some th ->
                kt_wchan th <> Some mtx) ->
  sys_run mtx g0 es = Some g ->
  kernel_initial mtx g0 /\ kernel_run mtx g0 (Mutex <$> es) = Some g.
Proof.
  intros Hinit Hw Hrun. split.
  - destruct Hinit. by split.
  - apply sys_run_kernel_run; [by apply sys_initial_inv|done].
Qed.
